(** * finna-crawler: a resumable OAI-PMH harvest, embedded and verified

    Shallow embedding of [src/finna_crawler.py].  The command [crawl_finna]
    is modelled as a computation that emits a trace of the calls it makes
    on its files, its log and its transport, and ends by returning, by
    raising an exception nobody catches, or by running out of fuel.  A
    separate interpreter replays a trace on the files, so that "the process
    is killed after n calls" is the replay of the first n events.

    Modelling conventions
    - a Python [str] is a [string]; characters are code points below 256;
    - the three files (status file, metadata table, record stream) are
      three distinct paths; I/O errors of the operating system are left out;
    - the metadata table is the list of rows written to it and the record
      stream is its decoded text, but the handles are not transparent: a
      text handle keeps fewer than 8192 pending bytes to itself until it is
      flushed, and a handle that [xopen] opens on a name with a compression
      suffix keeps what it is given until it is closed, whatever is flushed
      (the compressor holds its input until a block of it is full, which
      the harvests considered here do not reach);
    - Sickle's iterator, [ElementTree.tostring] and the builtin [int] are
      libraries, not code of this repository: the iterator is modelled by
      the pages a server returns, the other two are taken as parameters;
    - an lxml tree holds elements and nodes that are not elements
      (comments, processing instructions, entity references), whose [tag]
      is not a string; the check of names that lxml makes when a tag or an
      attribute is assigned is left out. *)

From Stdlib Require Import String Ascii List Bool Arith NArith Lia.
Import ListNotations.
Open Scope string_scope.
Open Scope list_scope.

(** ** Python string operations used by the source *)

Module PyStr.
(** [str.isspace] on one character, for code points below 256. *)
Definition is_space (c : ascii) : bool :=
  let n := nat_of_ascii c in
  (((9 <=? n) && (n <=? 13)) || ((28 <=? n) && (n <=? 32))
   || (n =? 133) || (n =? 160))%nat.

(** [s.rstrip()] *)
Fixpoint rstrip (s : string) : string :=
  match s with
  | EmptyString => EmptyString
  | String c s' =>
      match rstrip s' with
      | EmptyString => if is_space c then EmptyString else String c EmptyString
      | r => String c r
      end
  end.

(** [s.split(sep)] for a one-character separator: never the empty list. *)
Fixpoint split (sep : ascii) (s : string) : list string :=
  match s with
  | EmptyString => [EmptyString]
  | String c s' =>
      if Ascii.eqb c sep then EmptyString :: split sep s'
      else match split sep s' with
           | [] => [String c EmptyString]
           | h :: t => String c h :: t
           end
  end.

(** [s.split(sep, 1)[1]]: what follows the first [sep]; [None] stands for
    the IndexError raised when [sep] does not occur. *)
Fixpoint split1_snd (sep : ascii) (s : string) : option string :=
  match s with
  | EmptyString => None
  | String c s' => if Ascii.eqb c sep then Some s' else split1_snd sep s'
  end.

(** [s.startswith(c)] for a one-character prefix. *)
Definition startswith (c : ascii) (s : string) : bool :=
  match s with
  | EmptyString => false
  | String d _ => Ascii.eqb d c
  end.

(** [sep.join(l)] *)
Fixpoint join (sep : string) (l : list string) : string :=
  match l with
  | [] => EmptyString
  | [x] => x
  | x :: rest => (x ++ sep ++ join sep rest)%string
  end.

Definition LF : ascii := ascii_of_nat 10.
Definition CR : ascii := ascii_of_nat 13.

(** [f.readline()] on a text file opened with universal newlines, read
    from the start: the first line, its terminator (LF, CR or CR LF)
    translated to one LF. *)
Fixpoint readline (content : string) : string :=
  match content with
  | EmptyString => EmptyString
  | String c rest =>
      if Ascii.eqb c LF || Ascii.eqb c CR then String LF EmptyString
      else String c (readline rest)
  end.

(** [s.endswith(suffix)] *)
Fixpoint endswith (suffix s : string) : bool :=
  String.eqb s suffix
  || match s with
     | EmptyString => false
     | String _ s' => endswith suffix s'
     end.

(** No character of [s] satisfies [p]. *)
Fixpoint free_of (p : ascii -> bool) (s : string) : bool :=
  match s with
  | EmptyString => true
  | String c s' => negb (p c) && free_of p s'
  end.

End PyStr.


(** ** Continuation state and the checkpoint file *)

(** [sickle.models.ResumptionToken]: four attributes, each a string or None. *)
Record ResumptionToken := mkResumptionToken {
  token : option string;
  cursor : option string;
  complete_list_size : option string;
  expiration_date : option string
}.

(** Result of lines 78-94: the token to resume from, or the parts that the
    error message of line 90 reports before the command returns. *)
Inductive load_result :=
| Loaded (resumption_token : option ResumptionToken)
| UnknownParts (parts : list string).

Definition slash : ascii := "/"%char.

(** Lines 78-94; the argument is the content of the status file, [None]
    when [exists(status_file)] is false. *)
Definition load_status_file (status : option string) : load_result :=
  match status with
  | Some content =>
      let parts := PyStr.split slash (PyStr.rstrip (PyStr.readline content)) in
      if (length parts =? 4)%nat then
        Loaded (Some (mkResumptionToken
                        (Some (nth 0 parts ""))
                        (Some (nth 1 parts ""))
                        (Some (nth 2 parts ""))
                        (Some (nth 3 parts ""))))
      else if (length parts =? 1)%nat && (nth 0 parts "" =? "") then Loaded None
      else UnknownParts parts
  | None => Loaded None
  end.

(** ** Exceptions, XML elements and [strip_namespaces] *)

Inductive exn :=
| HTTPError          (* requests.HTTPError: the transport gave up *)
| TransportError     (* any other failure of the transport (OAI error, connection) *)
| TypeError
| AttributeError
| ValueError
| IndexError
| KeyError.

(** What a pure Python expression evaluates to. *)
Inductive value (A : Type) :=
| Val (a : A)
| Exc (e : exn).
Arguments Val {A} a.
Arguments Exc {A} e.

Definition vbind {A B : Type} (v : value A) (k : A -> value B) : value B :=
  match v with
  | Val a => k a
  | Exc e => Exc e
  end.

(** A node of an lxml tree.  An element has a tag, attributes in
    document order, a text, children and a tail.  A comment, a processing
    instruction or an entity reference has a text and a tail only; its
    [tag] is not a string but a function of lxml. *)
#[warning="-register-all"]
Inductive element :=
| Element (tag : string) (attrib : list (string * string)) (text : option string)
          (children : list element) (tail : option string)
| ContentOnly (text : option string) (tail : option string).

(** The tag of an element.  The empty string, which is the tag of no
    element, stands for the tag of a node that is not an element. *)
Definition tag (el : element) : string :=
  match el with
  | Element t _ _ _ _ => t
  | ContentOnly _ _ => EmptyString
  end.
Definition attrib (el : element) : list (string * string) :=
  match el with
  | Element _ a _ _ _ => a
  | ContentOnly _ _ => []
  end.
Definition children (el : element) : list element :=
  match el with
  | Element _ _ _ c _ => c
  | ContentOnly _ _ => []
  end.

Definition lbrace : ascii := "{"%char.
Definition rbrace : ascii := "}"%char.

(** [an.split('}', 1)[1]], IndexError when there is no closing brace. *)
Definition local_name (name : string) : value string :=
  match PyStr.split1_snd rbrace name with
  | Some l => Val l
  | None => Exc IndexError
  end.

(** Lines 44-45 on one tag. *)
Definition strip_tag (t : string) : value string :=
  if PyStr.startswith lbrace t then local_name t else Val t.

(** [attrib.pop(an)]: the value and the attributes left, KeyError when absent. *)
Fixpoint attrib_pop (an : string) (a : list (string * string))
  : value (string * list (string * string)) :=
  match a with
  | [] => Exc KeyError
  | (k, v) :: rest =>
      if String.eqb k an then Val (v, rest)
      else vbind (attrib_pop an rest) (fun r => Val (fst r, (k, v) :: snd r))
  end.

(** [attrib[k] = v]: an existing attribute keeps its place, a new one goes last. *)
Fixpoint attrib_set (k v : string) (a : list (string * string)) : list (string * string) :=
  match a with
  | [] => [(k, v)]
  | (k', v') :: rest =>
      if String.eqb k' k then (k, v) :: rest else (k', v') :: attrib_set k v rest
  end.

(** Lines 47-49: the loop over the snapshot [el.attrib.keys()].  The right
    side of the assignment (the pop) is evaluated before the subscript. *)
Fixpoint strip_attrib (keys : list string) (a : list (string * string))
  : value (list (string * string)) :=
  match keys with
  | [] => Val a
  | an :: keys' =>
      if PyStr.startswith lbrace an then
        vbind (attrib_pop an a) (fun popped =>
        vbind (local_name an) (fun l =>
        strip_attrib keys' (attrib_set l (fst popped) (snd popped))))
      else strip_attrib keys' a
  end.

(** Lines 41-51.  [doc.getiterator()] visits the node and then its
    descendants in document order, comments, processing instructions and
    entity references included; on such a node [el.tag] is a function and
    [el.tag.startswith] raises AttributeError.  The in-place update is
    returned as the new tree.  [etree.cleanup_namespaces] only drops unused
    declarations, which this model of elements does not carry. *)
Fixpoint strip_namespaces (doc : element) : value element :=
  match doc with
  | Element t a tx ch tl =>
      vbind (strip_tag t) (fun t' =>
      vbind (strip_attrib (map fst a) a) (fun a' =>
      vbind ((fix each (l : list element) : value (list element) :=
                match l with
                | [] => Val []
                | c :: l' =>
                    vbind (strip_namespaces c) (fun c' =>
                    vbind (each l') (fun l'' => Val (c' :: l'')))
                end) ch) (fun ch' =>
      Val (Element t' a' tx ch' tl))))
  | ContentOnly _ _ => Exc AttributeError
  end.

(** A name settles in one application: what follows its namespace part
    (the text after the first closing brace) does not start with a brace
    again.  Names without a prefix, and prefixed names without a closing
    brace, settle as well. *)
Definition settled_name (name : string) : bool :=
  if PyStr.startswith lbrace name then
    match PyStr.split1_snd rbrace name with
    | Some l => negb (PyStr.startswith lbrace l)
    | None => true
    end
  else true.

Fixpoint settled_element (doc : element) : bool :=
  match doc with
  | Element t a _ ch _ =>
      settled_name t && forallb settled_name (map fst a)
      && (fix each (l : list element) : bool :=
            match l with
            | [] => true
            | c :: l' => settled_element c && each l'
            end) ch
  | ContentOnly _ _ => true
  end.

(** [el.find('.//' + name)]: the first descendant element with that
    tag, in document order; the element itself is not a candidate, and a
    node that is not an element matches no name. *)
Fixpoint find_descendant (name : string) (el : element) : option element :=
  match el with
  | Element _ _ _ ch _ =>
      (fix each (l : list element) : option element :=
         match l with
         | [] => None
         | ContentOnly _ _ :: l' => each l'
         | (Element t _ _ _ _ as c) :: l' =>
             if String.eqb t name then Some c
             else match find_descendant name c with
                  | Some d => Some d
                  | None => each l'
                  end
         end) ch
  | ContentOnly _ _ => None
  end.

(** ** Records, configuration, transport *)

(** [sickle.models.Record] as the program uses it: the header's identifier
    and datestamp, the dictionary [record.metadata] (a tag maps to the texts
    of the elements that carry it, None for an element without text) and
    the element [record.xml]. *)
Record OAIRecord := mkRecord {
  header_identifier : string;
  header_datestamp : string;
  metadata : list (string * list (option string));
  xml : element
}.

(** [d.get(key)] on a dictionary kept as an association list. *)
Fixpoint dict_get {V : Type} (key : string) (d : list (string * V)) : option V :=
  match d with
  | [] => None
  | (k, v) :: rest => if String.eqb k key then Some v else dict_get key rest
  end.

(** The command's options, lines 55-65. *)
Record Config := mkConfig {
  metadata_prefix : option string;
  status_file : string;
  metadata_output : option string;
  record_output : option string;
  set : option string;
  strip_xml : bool;
  full_record : bool
}.

(** A ListRecords request: the first one carries the metadata prefix and
    the set, every later one only a resumption token. *)
Inductive request :=
| Initial (metadataPrefix : string) (set_spec : option string)
| Resume (resumptionToken : option string).

(** What the transport hands back for one request, after its own retries:
    a page of records with the resumption token of its response (None when
    the response has no resumptionToken element), or an exception. *)
Inductive response :=
| Page (items : list OAIRecord) (resumption_token : option ResumptionToken)
| Failure (e : exn).

(** The remote repository.  It answers a request the same way each time
    it is asked. *)
Record Server := mkServer {
  metadata_formats : value (list string);
  set_names : value (list string);
  list_records : request -> response
}.

(** Libraries the program calls whose results it only passes on. *)
Class Externals := {
  (** does the builtin [int] accept this string *)
  int_accepts : string -> bool;
  (** [ElementTree.tostring(elem, encoding='unicode', method='xml')] *)
  tostring : element -> string
}.

(** ** Files, events and their replay *)

Inductive file := StatusFile | MetadataFile | RecordFile.

Inductive mode := WT | AT.

(** [xopen] chooses the codec by the name of the file: a name with one of
    these suffixes is written through a compressor. *)
Definition compressed (path : string) : bool :=
  PyStr.endswith ".gz" path || PyStr.endswith ".bz2" path
  || PyStr.endswith ".xz" path || PyStr.endswith ".zst" path.

Inductive log_record :=
| ErrorUnknownParts (parts : list string)                  (* line 90 *)
| WarningTotalChanged (earlier now : option string)        (* line 106 *)
| LoggedException (e : exn).                               (* line 161 *)

(** One call the program makes on the outside world. *)
Inductive event :=
| Print (line : string)
| Log (r : log_record)
| Discover                          (* a discovery listing of help mode *)
| Request (q : request)             (* one page request of ListRecords *)
| Open (f : file) (m : mode)                    (* the builtin [open(path, mode)] *)
| Xopen (f : file) (path : string) (m : mode)  (* [xopen(path, mode, threads=0)] *)
| Write (f : file) (data : string)  (* [f.write(data)] on a text handle *)
| WriteRow (row : list string)      (* [cw.writerow(row)] on the metadata handle *)
| Truncate0                         (* [sf.truncate(0)] *)
| Seek0                             (* [sf.seek(0)] *)
| Flush (f : file)
| Fsync (f : file)
| Close (f : file).

(** What a restarted process finds: the content of each file, [None] for a
    file that does not exist. *)
Record Disk := mkDisk {
  status_on_disk : option string;
  metadata_on_disk : option (list (list string));
  records_on_disk : option string
}.

(** A running process: the files as the operating system shows them, and
    what its handles still hold back.  [sf_pos] is the position of the
    status handle.  A sink is packed when its handle writes through a
    compressor. *)
Record Process := mkProcess {
  files : Disk;
  sf_buffer : string;
  sf_pos : nat;
  metadata_buffer : list (list string);
  record_buffer : string;
  metadata_packed : bool;
  record_packed : bool
}.

Definition start (d : Disk) : Process := mkProcess d "" 0 [] "" false false.

(** Killing the process loses what the handles held back. *)
Definition kill (p : Process) : Disk := files p.

Definition NUL : ascii := ascii_of_nat 0.

Fixpoint zeros (n : nat) : string :=
  match n with
  | O => EmptyString
  | S n' => String NUL (zeros n')
  end.

(** Writing [data] at position [pos] of a file: the gap up to [pos], if
    any, reads as NUL; what lies beyond the written range stays. *)
Definition write_at (pos : nat) (content data : string) : string :=
  (substring 0 pos content ++ zeros (pos - String.length content) ++ data
   ++ substring (pos + String.length data) (String.length content) content)%string.

Definition content_or_empty {A : Type} (empty : A) (c : option A) : A :=
  match c with
  | Some x => x
  | None => empty
  end.

(** The bytes a text handle makes of a string (UTF-8). *)
Fixpoint encoded_size (s : string) : N :=
  match s with
  | EmptyString => 0%N
  | String c s' => ((if (nat_of_ascii c <? 128)%nat then 1 else 2) + encoded_size s')%N
  end.

(** The text layer of a handle passes its pending bytes on once there are
    this many of them. *)
Definition chunk_size : N := 8192%N.

Definition held_back (pending : string) : bool := (encoded_size pending <? chunk_size)%N.

Definition flush_status (p : Process) : Process :=
  match sf_buffer p with
  | EmptyString => p
  | data =>
      mkProcess
        (mkDisk (Some (write_at (sf_pos p) (content_or_empty "" (status_on_disk (files p))) data))
                (metadata_on_disk (files p)) (records_on_disk (files p)))
        "" (sf_pos p + String.length data) (metadata_buffer p) (record_buffer p)
        (metadata_packed p) (record_packed p)
  end.

Definition flush_metadata (p : Process) : Process :=
  match metadata_buffer p with
  | [] => p
  | rows =>
      mkProcess
        (mkDisk (status_on_disk (files p))
                (Some (content_or_empty [] (metadata_on_disk (files p)) ++ rows))
                (records_on_disk (files p)))
        (sf_buffer p) (sf_pos p) [] (record_buffer p)
        (metadata_packed p) (record_packed p)
  end.

Definition flush_records (p : Process) : Process :=
  match record_buffer p with
  | EmptyString => p
  | data =>
      mkProcess
        (mkDisk (status_on_disk (files p)) (metadata_on_disk (files p))
                (Some (content_or_empty "" (records_on_disk (files p)) ++ data)%string))
        (sf_buffer p) (sf_pos p) (metadata_buffer p) ""
        (metadata_packed p) (record_packed p)
  end.

(** Closing a handle writes out all it holds, compressed or not. *)
Definition flush_file (f : file) (p : Process) : Process :=
  match f with
  | StatusFile => flush_status p
  | MetadataFile => flush_metadata p
  | RecordFile => flush_records p
  end.

(** [f.flush()]: a packed sink hands its text to the compressor, which
    keeps it; nothing reaches the file. *)
Definition flush_handle (f : file) (p : Process) : Process :=
  match f with
  | StatusFile => flush_status p
  | MetadataFile => if metadata_packed p then p else flush_metadata p
  | RecordFile => if record_packed p then p else flush_records p
  end.

(** Opening with mode ['wt'] creates or empties the file, with mode ['at']
    it creates the file when missing and leaves its content.  [packed]
    tells whether the new handle of a sink writes through a compressor. *)
Definition open_file (f : file) (m : mode) (packed : bool) (p : Process) : Process :=
  let d := files p in
  match f with
  | StatusFile =>
      mkProcess
        (mkDisk (Some (match m with WT => "" | AT => content_or_empty "" (status_on_disk d) end))
                (metadata_on_disk d) (records_on_disk d))
        "" 0 (metadata_buffer p) (record_buffer p) (metadata_packed p) (record_packed p)
  | MetadataFile =>
      mkProcess
        (mkDisk (status_on_disk d)
                (Some (match m with WT => [] | AT => content_or_empty [] (metadata_on_disk d) end))
                (records_on_disk d))
        (sf_buffer p) (sf_pos p) [] (record_buffer p) packed (record_packed p)
  | RecordFile =>
      mkProcess
        (mkDisk (status_on_disk d) (metadata_on_disk d)
                (Some (match m with WT => "" | AT => content_or_empty "" (records_on_disk d) end)))
        (sf_buffer p) (sf_pos p) (metadata_buffer p) "" (metadata_packed p) packed
  end.

(** [f.write(data)] on the status handle: the text stays in the handle
    while fewer than [chunk_size] bytes are pending, and is passed on to
    the file otherwise. *)
Definition write_status (data : string) (p : Process) : Process :=
  let q := mkProcess (files p) (sf_buffer p ++ data)%string (sf_pos p)
             (metadata_buffer p) (record_buffer p) (metadata_packed p) (record_packed p) in
  if held_back (sf_buffer p ++ data) then q else flush_status q.

(** [f.write(data)] on the handle of the record stream: the same, but what
    a packed handle passes on goes to its compressor. *)
Definition write_records (data : string) (p : Process) : Process :=
  let q := mkProcess (files p) (sf_buffer p) (sf_pos p)
             (metadata_buffer p) (record_buffer p ++ data)%string
             (metadata_packed p) (record_packed p) in
  if record_packed p || held_back (record_buffer p ++ data) then q else flush_records q.

(** The effect of one call on the process and its files.  Truncate and
    seek flush the status handle first; fsync changes nothing a reader of
    the file can see.  A row of the metadata table is one short line that
    [csv.writer] hands to the handle: it stays there until a flush. *)
Definition step (e : event) (p : Process) : Process :=
  match e with
  | Print _ | Log _ | Discover | Request _ | Fsync _ => p
  | Open f m => open_file f m false p
  | Xopen f path m => open_file f m (compressed path) p
  | Write StatusFile data => write_status data p
  | Write RecordFile data => write_records data p
  | Write MetadataFile _ => p
  | WriteRow row =>
      mkProcess (files p) (sf_buffer p) (sf_pos p) (metadata_buffer p ++ [row]) (record_buffer p)
        (metadata_packed p) (record_packed p)
  | Truncate0 =>
      let q := flush_status p in
      mkProcess
        (mkDisk (Some "") (metadata_on_disk (files q)) (records_on_disk (files q)))
        "" (sf_pos q) (metadata_buffer q) (record_buffer q)
        (metadata_packed q) (record_packed q)
  | Seek0 =>
      let q := flush_status p in
      mkProcess (files q) "" 0 (metadata_buffer q) (record_buffer q)
        (metadata_packed q) (record_packed q)
  | Flush f => flush_handle f p
  | Close f => flush_file f p
  end.

Definition replay (trace : list event) (p : Process) : Process :=
  fold_left (fun q e => step e q) trace p.

(** ** The program as a computation that emits events *)

(** How a computation ends: with a value, with an exception still
    propagating, or cut short because the fuel for page requests ran out. *)
Inductive result (A : Type) :=
| Ret (a : A)
| Raise (e : exn)
| OutOfFuel.
Arguments Ret {A} a.
Arguments Raise {A} e.
Arguments OutOfFuel {A}.

Definition M (A : Type) : Type := (list event * result A)%type.

Definition ret {A : Type} (a : A) : M A := ([], Ret a).
Definition raise {A : Type} (e : exn) : M A := ([], Raise e).
Definition emit (e : event) : M unit := ([e], Ret tt).

Definition bind {A B : Type} (m : M A) (k : A -> M B) : M B :=
  match snd m with
  | Ret a => (fst m ++ fst (k a), snd (k a))
  | Raise e => (fst m, Raise e)
  | OutOfFuel => (fst m, OutOfFuel)
  end.

Declare Scope py_scope.
Delimit Scope py_scope with py.
Notation "x <- m ;; k" := (bind m (fun x => k))
  (at level 61, m at next level, right associativity) : py_scope.
Notation "m ;; k" := (bind m (fun _ => k))
  (at level 61, right associativity) : py_scope.
Open Scope py_scope.

(** A pure expression evaluated inside the program. *)
Definition eval {A : Type} (v : value A) : M A :=
  match v with
  | Val a => ret a
  | Exc e => raise e
  end.

(** [try: body except HTTPError as e: handler] *)
Definition try_except_HTTPError (body : M unit) (handler : M unit) : M unit :=
  match snd body with
  | Raise HTTPError => (fst body ++ fst handler, snd handler)
  | _ => body
  end.

(** The exit of a [with] block: the handles are closed on every way out. *)
Definition finally {A : Type} (body : M A) (closing : list event) : M A :=
  (fst body ++ closing, snd body).

Definition when (b : bool) (m : M unit) : M unit := if b then m else ret tt.

Definition is_some {A : Type} (o : option A) : bool :=
  match o with
  | Some _ => true
  | None => false
  end.

Definition newline : string := String PyStr.LF EmptyString.

Definition header_row : list string :=
  ["id"; "timestamp"; "id2"; "creator"; "title"; "subjects"].

(** [filter(lambda x: x is not None, record.metadata.get(key, []))] *)
Definition not_none_values (key : string) (record : OAIRecord) : list string :=
  let values := match dict_get key (metadata record) with
                | Some l => l
                | None => []
                end in
  flat_map (fun v => match v with Some s => [s] | None => [] end) values.

(** Lines 117-128: the row of one record. *)
Definition metadata_row (record : OAIRecord) : list string :=
  [ header_identifier record;
    header_datestamp record;
    PyStr.join "|" (not_none_values "identifier" record);
    PyStr.join "|" (not_none_values "creator" record);
    PyStr.join "|" (not_none_values "title" record);
    PyStr.join "|" (not_none_values "subject" record) ].

Definition oai_namespace : string := "{http://www.openarchives.org/OAI/2.0/}".

(** Python's [x[0]] on a list. *)
Definition first {A : Type} (l : list A) : value A :=
  match l with
  | x :: _ => Val x
  | [] => Exc IndexError
  end.

Section Program.

Context {ext : Externals}.

(** Lines 132-141: the text written for one record, before the newline.
    Writing None to a text file is a TypeError, and so is subscripting the
    None that [find] returns when there is no metadata element. *)
Definition record_text (cfg : Config) (record : OAIRecord) : value string :=
  match (if full_record cfg then None else dict_get "metadata" (metadata record)) with
  | Some texts =>
      vbind (first texts) (fun t =>
      match t with
      | Some s => Val s
      | None => Exc TypeError
      end)
  | None =>
      vbind (if full_record cfg then Val (xml record)
             else match find_descendant (oai_namespace ++ "metadata") (xml record) with
                  | Some m => first (children m)
                  | None => Exc TypeError
                  end) (fun elem =>
      vbind (if strip_xml cfg then strip_namespaces elem else Val elem) (fun elem' =>
      Val (tostring elem')))
  end.

(** Lines 116-130. *)
Definition write_metadata (cfg : Config) (record : OAIRecord) : M unit :=
  when (is_some (metadata_output cfg))
    (emit (WriteRow (metadata_row record)) ;;
     emit (Flush MetadataFile) ;;
     emit (Fsync MetadataFile)).

(** Lines 131-144. *)
Definition write_record (cfg : Config) (record : OAIRecord) : M unit :=
  when (is_some (record_output cfg))
    (t <- eval (record_text cfg record) ;;
     emit (Write RecordFile t) ;;
     emit (Write RecordFile newline) ;;
     emit (Flush RecordFile) ;;
     emit (Fsync RecordFile)).

(** [sf.write(v)]: None is not a string. *)
Definition sf_write (v : option string) : M unit :=
  match v with
  | Some s => emit (Write StatusFile s)
  | None => raise TypeError
  end.

Definition sf_write_if_present (v : option string) : M unit :=
  match v with
  | Some s => emit (Write StatusFile s)
  | None => ret tt
  end.

(** Lines 145-159: the checkpoint write; the argument is
    [records.resumption_token]. *)
Definition save_checkpoint (rt : option ResumptionToken) : M unit :=
  emit Truncate0 ;;
  emit Seek0 ;;
  match rt with
  | Some t =>
      sf_write (token t) ;;
      emit (Write StatusFile "/") ;;
      sf_write_if_present (cursor t) ;;
      emit (Write StatusFile "/") ;;
      sf_write_if_present (complete_list_size t) ;;
      emit (Write StatusFile "/") ;;
      sf_write_if_present (expiration_date t)
  | None => ret tt
  end ;;
  emit (Flush StatusFile) ;;
  emit (Fsync StatusFile).

(** The body of the loop of line 114 for one record; [rt] is
    [records.resumption_token], the token of the page that holds the record. *)
Definition process_record (cfg : Config) (rt : option ResumptionToken)
    (record : OAIRecord) : M unit :=
  write_metadata cfg record ;;
  write_record cfg record ;;
  save_checkpoint rt.

(** The records of one page, in order. *)
Fixpoint for_page (cfg : Config) (rt : option ResumptionToken)
    (items : list OAIRecord) : M unit :=
  match items with
  | [] => ret tt
  | record :: rest => process_record cfg rt record ;; for_page cfg rt rest
  end.

(** Sickle's [_next_response]: one request; the page and the token of the
    response replace the iterator's, a failure is raised. *)
Definition next_response (sickle : Server) (q : request)
  : M (list OAIRecord * option ResumptionToken) :=
  emit (Request q) ;;
  match list_records sickle q with
  | Page items rt => ret (items, rt)
  | Failure e => raise e
  end.

(** Sickle's test [self.resumption_token and self.resumption_token.token]:
    the token to continue with, if there is one and it is not empty. *)
Definition continuation (rt : option ResumptionToken) : option string :=
  match rt with
  | Some t =>
      match token t with
      | Some EmptyString => None
      | Some s => Some s
      | None => None
      end
  | None => None
  end.

(** The loop of line 114 over Sickle's iterator: the records of the
    current page, then the next page while the token of the current one is
    not empty.  [fuel] bounds the number of further pages requested. *)
Fixpoint for_records (fuel : nat) (cfg : Config) (sickle : Server)
    (rt : option ResumptionToken) (items : list OAIRecord) : M unit :=
  for_page cfg rt items ;;
  match continuation rt with
  | None => ret tt
  | Some tok =>
      match fuel with
      | O => ([], OutOfFuel)
      | S fuel' =>
          page <- next_response sickle (Resume (Some tok)) ;;
          for_records fuel' cfg sickle (snd page) (fst page)
      end
  end.

(** The builtin [int] on an attribute of the token. *)
Definition py_int (v : option string) : M unit :=
  match v with
  | Some s => if int_accepts s then ret tt else raise ValueError
  | None => raise TypeError
  end.

(** The arguments [initial] and [total] of the progress bar, line 114-115. *)
Definition tqdm_arguments (rt : option ResumptionToken) : M unit :=
  match rt with
  | Some t => py_int (cursor t) ;; py_int (complete_list_size t)
  | None => raise AttributeError
  end.

(** Lines 114-159, from a page that has just been received. *)
Definition stream (fuel : nat) (cfg : Config) (sickle : Server)
    (page : list OAIRecord * option ResumptionToken) : M unit :=
  tqdm_arguments (snd page) ;;
  for_records fuel cfg sickle (snd page) (fst page).

Definition option_eqb (a b : option string) : bool :=
  match a, b with
  | Some x, Some y => String.eqb x y
  | None, None => true
  | _, _ => false
  end.

(** Lines 104-109: with a token loaded from the status file, the total of
    the fresh listing is compared with the stored one, the stored token
    replaces the iterator's and the next response is requested with it. *)
Definition reposition (sickle : Server) (resumption_token : option ResumptionToken)
    (page : list OAIRecord * option ResumptionToken)
  : M (list OAIRecord * option ResumptionToken) :=
  match resumption_token with
  | Some stored =>
      match snd page with
      | Some fresh =>
          when (negb (option_eqb (complete_list_size fresh) (complete_list_size stored)))
            (emit (Log (WarningTotalChanged (complete_list_size stored)
                                            (complete_list_size fresh))))
      | None => raise AttributeError
      end ;;
      next_response sickle (Resume (token stored))
  | None => ret page
  end.

(** Lines 103-159: the body of the [try]. *)
Definition harvest (fuel : nat) (cfg : Config) (sickle : Server) (prefix : string)
    (resumption_token : option ResumptionToken) : M unit :=
  page <- next_response sickle (Initial prefix (set cfg)) ;;
  page' <- reposition sickle resumption_token page ;;
  stream fuel cfg sickle page'.

(** Lines 95-98.  [os.path.exists(None)] raises TypeError. *)
Definition write_header (cfg : Config) (fs : Disk) : M unit :=
  match metadata_output cfg with
  | Some path =>
      when (negb (is_some (metadata_on_disk fs)))
        (emit (Xopen MetadataFile path WT) ;;
         emit (WriteRow header_row) ;;
         emit (Close MetadataFile))
  | None => raise TypeError
  end.

Definition option_events {A : Type} (o : option A) (e : event) : list event :=
  match o with
  | Some _ => [e]
  | None => []
  end.

(** [xopen(path, 'at', threads=0) if path is not None else nullcontext()] *)
Definition xopen_or_nullcontext (f : file) (o : option string) : M unit :=
  match o with
  | Some path => emit (Xopen f path AT)
  | None => ret tt
  end.

(** The [with] statement of lines 99-101: the status file is opened for
    writing, each configured sink for appending; they are closed in the
    reverse order however the body ends. *)
Definition with_outputs (cfg : Config) (body : M unit) : M unit :=
  emit (Open StatusFile WT) ;;
  xopen_or_nullcontext MetadataFile (metadata_output cfg) ;;
  xopen_or_nullcontext RecordFile (record_output cfg) ;;
  finally body
    (option_events (record_output cfg) (Close RecordFile)
     ++ option_events (metadata_output cfg) (Close MetadataFile)
     ++ [Close StatusFile]).

Definition help_line (what : string) (names : list string) : string :=
  (what ++ PyStr.join ", " names)%string.

(** Lines 64-162.  [fs] is what the file system holds when the command
    starts; it is read by lines 78-95, before the first write. *)
Definition crawl_finna (fuel : nat) (cfg : Config) (sickle : Server) (fs : Disk) : M unit :=
  match metadata_prefix cfg with
  | None =>
      emit Discover ;;
      prefixes <- eval (metadata_formats sickle) ;;
      emit (Print (help_line "Available prefixes (specify with -p or --metadata-prefix): " prefixes)) ;;
      emit Discover ;;
      sets <- eval (set_names sickle) ;;
      emit (Print (help_line "Available sets (optionally specify with -s or --set): " sets))
  | Some prefix =>
      if negb (is_some (metadata_output cfg)) && negb (is_some (record_output cfg)) then
        emit (Print "Neither metadata nor record output file defined, crawl would write out nothing.")
      else
        match load_status_file (status_on_disk fs) with
        | UnknownParts parts => emit (Log (ErrorUnknownParts parts))
        | Loaded resumption_token =>
            write_header cfg fs ;;
            with_outputs cfg
              (try_except_HTTPError
                 (harvest fuel cfg sickle prefix resumption_token)
                 (emit (Log (LoggedException HTTPError))) ;;
               emit Truncate0)
        end
  end.

(** The files a run leaves behind when it is not interrupted. *)
Definition final_disk (run : M unit) (fs : Disk) : Disk :=
  files (replay (fst run) (start fs)).

(** The files a restart finds when the process is killed after its first
    [n] calls. *)
Definition killed_after (n : nat) (run : M unit) (fs : Disk) : Disk :=
  kill (replay (firstn n (fst run)) (start fs)).

End Program.

(** ** Notions the properties are stated with *)

(** The text of an attribute as the checkpoint holds it: nothing when absent. *)
Definition text_of (v : option string) : string :=
  match v with
  | Some s => s
  | None => EmptyString
  end.

(** The line a completed checkpoint write leaves in the status file. *)
Definition checkpoint_line (rt : ResumptionToken) : string :=
  (text_of (token rt) ++ "/" ++ text_of (cursor rt) ++ "/"
   ++ text_of (complete_list_size rt) ++ "/" ++ text_of (expiration_date rt))%string.

(** A token read back from the status file: every attribute is a string. *)
Definition as_loaded (rt : ResumptionToken) : ResumptionToken :=
  mkResumptionToken (Some (text_of (token rt))) (Some (text_of (cursor rt)))
    (Some (text_of (complete_list_size rt))) (Some (text_of (expiration_date rt))).

Definition breaks_line (c : ascii) : bool :=
  Ascii.eqb c slash || Ascii.eqb c PyStr.LF || Ascii.eqb c PyStr.CR.

(** The tokens the format of the status file can carry: no attribute holds
    a slash or a line break, and the expiration date does not end in white
    space. *)
Definition checkpoint_safe (rt : ResumptionToken) : bool :=
  PyStr.free_of breaks_line (text_of (token rt))
  && PyStr.free_of breaks_line (text_of (cursor rt))
  && PyStr.free_of breaks_line (text_of (complete_list_size rt))
  && PyStr.free_of breaks_line (text_of (expiration_date rt))
  && String.eqb (PyStr.rstrip (text_of (expiration_date rt))) (text_of (expiration_date rt)).

(** What the sinks hold, on disk and in their handles. *)
Definition sink_view (p : Process)
  : option (list (list string)) * list (list string) * option string * string * bool * bool :=
  (metadata_on_disk (files p), metadata_buffer p, records_on_disk (files p), record_buffer p,
   metadata_packed p, record_packed p).

(** Calls that change nothing of the sinks. *)
Definition leaves_sinks (e : event) : bool :=
  match e with
  | Print _ | Log _ | Discover | Request _ | Fsync _ | Truncate0 | Seek0 => true
  | Open StatusFile _ | Write StatusFile _ | Write MetadataFile _ => true
  | Flush StatusFile | Close StatusFile => true
  | _ => false
  end.

(** The file of each configured sink exists. *)
Definition opened (cfg : Config) (p : Process) : Prop :=
  (is_some (metadata_output cfg) = true -> is_some (metadata_on_disk (files p)) = true)
  /\ (is_some (record_output cfg) = true -> is_some (records_on_disk (files p)) = true).

(** Nothing is held back in the handle of a sink. *)
Definition flushed (p : Process) : Prop :=
  metadata_buffer p = [] /\ record_buffer p = "".

(** No sink writes through a compressor. *)
Definition unpacked (p : Process) : Prop :=
  metadata_packed p = false /\ record_packed p = false.

(** The sinks between two records when they are not compressed: nothing
    is held back in a handle and the file of each configured sink exists. *)
Definition ready (cfg : Config) (p : Process) : Prop :=
  flushed p /\ unpacked p /\ opened cfg p.

(** What a sink holds in all, in its file and in its handle: what the
    file holds once the handle is closed. *)
Definition table_held (p : Process) : option (list (list string)) :=
  option_map (fun rows => rows ++ metadata_buffer p) (metadata_on_disk (files p)).

Definition stream_held (p : Process) : option string :=
  option_map (fun txt => (txt ++ record_buffer p)%string) (records_on_disk (files p)).

(** What a call hands to a sink. *)
Definition rows_of (e : event) : list (list string) :=
  match e with
  | WriteRow row => [row]
  | _ => []
  end.

Definition text_of_write (e : event) : string :=
  match e with
  | Write RecordFile data => data
  | _ => EmptyString
  end.

Definition rows_written (trace : list event) : list (list string) := flat_map rows_of trace.

Fixpoint text_written (trace : list event) : string :=
  match trace with
  | [] => EmptyString
  | e :: rest => (text_of_write e ++ text_written rest)%string
  end.

(** Calls that open a sink. *)
Definition opens_sink (e : event) : bool :=
  match e with
  | Open MetadataFile _ | Open RecordFile _ => true
  | Xopen MetadataFile _ _ | Xopen RecordFile _ _ => true
  | _ => false
  end.

(** The status handle right after a truncate and a seek, or after writes
    that followed them: the file holds [content], the handle holds
    [pending] and stands at the end of the file. *)
Definition status_is (content pending : string) (p : Process) : Prop :=
  status_on_disk (files p) = Some content
  /\ sf_pos p = String.length content
  /\ sf_buffer p = pending.

(** Calls made on the handle of a sink. *)
Definition on_metadata (e : event) : bool :=
  match e with
  | Open MetadataFile _ | Xopen MetadataFile _ _ | Write MetadataFile _ | WriteRow _ => true
  | Flush MetadataFile | Fsync MetadataFile | Close MetadataFile => true
  | _ => false
  end.

Definition on_records (e : event) : bool :=
  match e with
  | Open RecordFile _ | Xopen RecordFile _ _ | Write RecordFile _ => true
  | Flush RecordFile | Fsync RecordFile | Close RecordFile => true
  | _ => false
  end.

(** The configuration names no compressed sink. *)
Definition plain_sinks (cfg : Config) : bool :=
  negb (compressed (content_or_empty "" (metadata_output cfg)))
  && negb (compressed (content_or_empty "" (record_output cfg))).

(** The calls made on the handle of the status file once it is open:
    those of the checkpoint writes and the truncate of line 162. *)
Definition is_status_call (e : event) : bool :=
  match e with
  | Truncate0 | Seek0 | Write StatusFile _ | Flush StatusFile | Fsync StatusFile => true
  | _ => false
  end.

(** Along a trace that starts with sinks that are ready, the sinks are
    ready at each call on the status file and at the end. *)
Definition settled (cfg : Config) (trace : list event) : Prop :=
  forall p, ready cfg p ->
    ready cfg (replay trace p)
    /\ forall t0 e t2, trace = t0 ++ e :: t2 -> is_status_call e = true ->
                       ready cfg (replay t0 p).

(** What follows the body of the [try], lines 160-162, by the way the body
    ended, and how the command ends then. *)
Definition ending (r : result unit) : list event :=
  match r with
  | Ret _ => [Truncate0]
  | Raise HTTPError => [Log (LoggedException HTTPError); Truncate0]
  | _ => []
  end.

Definition outcome (r : result unit) : result unit :=
  match r with
  | Raise HTTPError => Ret tt
  | other => other
  end.

Definition closing (cfg : Config) : list event :=
  option_events (record_output cfg) (Close RecordFile)
  ++ option_events (metadata_output cfg) (Close MetadataFile)
  ++ [Close StatusFile].

Definition xopen_events (f : file) (o : option string) : list event :=
  match o with
  | Some path => [Xopen f path AT]
  | None => []
  end.

Definition opening (cfg : Config) : list event :=
  Open StatusFile WT
  :: xopen_events MetadataFile (metadata_output cfg)
  ++ xopen_events RecordFile (record_output cfg).

Section Resumption.

Context {ext : Externals}.

Definition int_ok (v : option string) : bool :=
  match v with
  | Some s => int_accepts s
  | None => false
  end.

(** The response lets line 114 start the loop: a failure is raised before
    that line, a page must carry a token whose cursor and total the builtin
    [int] accepts. *)
Definition counts_present (resp : response) : bool :=
  match resp with
  | Page _ (Some t) => int_ok (cursor t) && int_ok (complete_list_size t)
  | Page _ None => false
  | Failure _ => true
  end.

(** The loop from the response to a request on. *)
Definition after_request (fuel : nat) (cfg : Config) (sickle : Server) (resp : response)
  : M unit :=
  match resp with
  | Page items rt => for_records fuel cfg sickle rt items
  | Failure e => raise e
  end.

End Resumption.

(** Calls that change neither a file nor a handle. *)
Definition is_quiet (e : event) : bool :=
  match e with
  | Request _ | Log _ => true
  | _ => false
  end.

Definition is_request (e : event) : bool :=
  match e with
  | Request _ => true
  | _ => false
  end.

Definition is_status_write (e : event) : bool :=
  match e with
  | Write StatusFile _ => true
  | _ => false
  end.

(** ** Notions for further properties *)

Definition text (el : element) : option string :=
  match el with
  | Element _ _ tx _ _ => tx
  | ContentOnly tx _ => tx
  end.
Definition tail (el : element) : option string :=
  match el with
  | Element _ _ _ _ tl => tl
  | ContentOnly _ tl => tl
  end.

(** A name that starts with a brace has a closing brace. *)
Definition closed_name (name : string) : bool :=
  if PyStr.startswith lbrace name then is_some (PyStr.split1_snd rbrace name) else true.

Definition unprefixed (name : string) : bool := negb (PyStr.startswith lbrace name).

(** The characters of a local name made of ASCII letters, digits, [_],
    [-] and [.]; it starts with a letter or [_].  Such a name passes the
    check lxml makes when a tag or an attribute is assigned. *)
Definition name_start (c : ascii) : bool :=
  let n := nat_of_ascii c in
  ((65 <=? n) && (n <=? 90) || (97 <=? n) && (n <=? 122) || (n =? 95))%nat.

Definition name_char (c : ascii) : bool :=
  let n := nat_of_ascii c in
  (name_start c || (48 <=? n) && (n <=? 57) || (n =? 45) || (n =? 46))%nat.

Definition plain_name (name : string) : bool :=
  match name with
  | EmptyString => false
  | String c rest => name_start c && PyStr.free_of (fun d => negb (name_char d)) rest
  end.

(** A name as the parser makes it for an element or an attribute: a
    plain local name, alone or after a namespace in braces that holds no
    closing brace of its own. *)
Definition clark_name (name : string) : bool :=
  if PyStr.startswith lbrace name then
    match PyStr.split1_snd rbrace name with
    | Some l => plain_name l
    | None => false
    end
  else plain_name name.

(** A tree of elements whose tags and attribute names are such names. *)
Fixpoint clark_element (doc : element) : bool :=
  match doc with
  | Element t a _ ch _ =>
      clark_name t && forallb clark_name (map fst a)
      && (fix each (l : list element) : bool :=
            match l with
            | [] => true
            | c :: l' => clark_element c && each l'
            end) ch
  | ContentOnly _ _ => false
  end.

(** No tag and no attribute name of the tree starts with a brace. *)
Fixpoint namespace_free (doc : element) : bool :=
  match doc with
  | Element t a _ ch _ =>
      unprefixed t && forallb unprefixed (map fst a)
      && (fix each (l : list element) : bool :=
            match l with
            | [] => true
            | c :: l' => namespace_free c && each l'
            end) ch
  | ContentOnly _ _ => true
  end.

(** The text and the tail of every node, in document order. *)
Fixpoint texts (doc : element) : list (option string * option string) :=
  match doc with
  | Element _ _ tx ch tl =>
      (tx, tl)
      :: (fix each (l : list element) : list (option string * option string) :=
            match l with
            | [] => []
            | c :: l' => texts c ++ each l'
            end) ch
  | ContentOnly tx tl => [(tx, tl)]
  end.

(** How often a character occurs in a string. *)
Fixpoint occurrences (c : ascii) (s : string) : nat :=
  match s with
  | EmptyString => 0
  | String d s' => (if Ascii.eqb d c then 1 else 0) + occurrences c s'
  end.

Definition bar : ascii := "|"%char.

Definition has_bar (c : ascii) : bool := Ascii.eqb c bar.

Definition line_break (c : ascii) : bool := Ascii.eqb c PyStr.LF || Ascii.eqb c PyStr.CR.

(** The records Sickle's iterator hands to the loop of line 114, in
    order: those of the current page, then those of the pages that follow
    while the token is not empty, the server answers with a page and the
    fuel lasts. *)
Fixpoint listing (fuel : nat) (sickle : Server) (rt : option ResumptionToken)
    (items : list OAIRecord) : list OAIRecord :=
  items ++
  match continuation rt with
  | None => []
  | Some tok =>
      match fuel with
      | O => []
      | S fuel' =>
          match list_records sickle (Resume (Some tok)) with
          | Page items' rt' => listing fuel' sickle rt' items'
          | Failure _ => []
          end
      end
  end.

(** Calls that change no file and no handle. *)
Definition is_inert (e : event) : bool :=
  match e with
  | Print _ | Log _ | Discover | Request _ | Fsync _ => true
  | _ => false
  end.

(** The call that empties the metadata table, and the one that would
    empty the record stream. *)
Definition truncates_metadata (e : event) : bool :=
  match e with
  | Open MetadataFile WT | Xopen MetadataFile _ WT => true
  | _ => false
  end.

Definition truncates_records (e : event) : bool :=
  match e with
  | Open RecordFile WT | Xopen RecordFile _ WT => true
  | _ => false
  end.

(** The calls the body of the [try] can make. *)
Definition in_harvest (e : event) : bool :=
  match e with
  | Request _ | Log _ | WriteRow _ | Truncate0 | Seek0 | Flush _ | Fsync _ => true
  | Write StatusFile _ | Write RecordFile _ => true
  | _ => false
  end.

(** Every call of the computation is an allowed one. *)
Definition emits {A : Type} (allowed : event -> bool) (m : M A) : Prop :=
  forallb allowed (fst m) = true.

Definition write_if_present (v : option string) : list event :=
  match v with
  | Some s => [Write StatusFile s]
  | None => []
  end.

(** The writes of lines 148-157 for a token whose text is present. *)
Definition checkpoint_writes (rt : ResumptionToken) : list event :=
  [Write StatusFile (text_of (token rt)); Write StatusFile "/"]
  ++ write_if_present (cursor rt)
  ++ [Write StatusFile "/"]
  ++ write_if_present (complete_list_size rt)
  ++ [Write StatusFile "/"]
  ++ write_if_present (expiration_date rt).

(** What a list of writes to the status file puts into its handle. *)
Fixpoint written (trace : list event) : string :=
  match trace with
  | Write StatusFile s :: rest => (s ++ written rest)%string
  | _ :: rest => written rest
  | [] => EmptyString
  end.

(** The rows a metadata table starts with: its own, or the header of a
    new file. *)
Definition table_start (fs : Disk) : list (list string) :=
  match metadata_on_disk fs with
  | Some rows => rows
  | None => [header_row]
  end.

Section Lines.

Context {ext : Externals}.

(** The lines lines 131-144 append for the records given, one per record
    whose text is computed. *)
Fixpoint record_lines (cfg : Config) (records : list OAIRecord) : string :=
  match records with
  | [] => EmptyString
  | record :: rest =>
      (match record_text cfg record with
       | Val t => t ++ newline
       | Exc _ => EmptyString
       end ++ record_lines cfg rest)%string
  end.

(** The record stream after lines for the records given were appended:
    unchanged when no record output is configured. *)
Definition stream_with (cfg : Config) (txt : option string) (records : list OAIRecord)
  : option string :=
  match record_output cfg with
  | Some _ => Some (content_or_empty "" txt ++ record_lines cfg records)%string
  | None => txt
  end.

End Lines.

(** The request whose response the loop starts with: the first request of
    a fresh run, the request for the stored token of a resumed one. *)
Definition starting_request (cfg : Config) (prefix : string)
    (resumption_token : option ResumptionToken) : request :=
  match resumption_token with
  | Some stored => Resume (token stored)
  | None => Initial prefix (set cfg)
  end.

(** ** Sample inputs *)

Module Sample.

(** Decimal digits only, at least one: strings the builtin [int] accepts. *)
Fixpoint all_digits (s : string) : bool :=
  match s with
  | EmptyString => true
  | String c s' =>
      ((48 <=? nat_of_ascii c) && (nat_of_ascii c <=? 57))%nat && all_digits s'
  end.

Definition digits (s : string) : bool :=
  match s with
  | EmptyString => false
  | _ => all_digits s
  end.

Definition externals : Externals := {|
  int_accepts := digits;
  tostring := fun el => ("<" ++ tag el ++ "/>")%string
|}.

Definition leaf (name : string) : element := Element name [] None [] None.

(** A record whose Dublin Core payload has one title and the creators
    given; the serialized payload is the [dc] element. *)
Definition record_of (id : string) (creators : list (option string)) : OAIRecord :=
  mkRecord id "2020-01-01T00:00:00Z"
    [("title", [Some id]); ("creator", creators)]
    (Element "{http://www.openarchives.org/OAI/2.0/}record" [] None
       [ leaf "{http://www.openarchives.org/OAI/2.0/}header";
         Element "{http://www.openarchives.org/OAI/2.0/}metadata" [] None
           [ Element "{http://www.openarchives.org/OAI/2.0/oai_dc/}dc"
               [("{http://www.w3.org/2001/XMLSchema-instance}schemaLocation", "x")]
               None [leaf "{http://purl.org/dc/elements/1.1/}title"] None ] None ]
       None).

Definition r1 : OAIRecord := record_of "r1" [Some "Smith, J."; None; Some "Lee, A."].
Definition r2 : OAIRecord := record_of "r2" [].
Definition r3 : OAIRecord := record_of "r3" [].
Definition r4 : OAIRecord := record_of "r4" [].

Definition token_of (t cur : string) : ResumptionToken :=
  mkResumptionToken (Some t) (Some cur) (Some "4") None.

(** Four records in three pages: [r1 r2], [r3], [r4].  The last response
    has no resumptionToken element. *)
Definition three_pages : Server :=
  mkServer (Val ["oai_dc"]) (Val [])
    (fun q =>
       match q with
       | Initial _ _ => Page [r1; r2] (Some (token_of "t1" "0"))
       | Resume (Some t) =>
           if String.eqb t "t1" then Page [r3] (Some (token_of "t2" "2"))
           else if String.eqb t "t2" then Page [r4] None
           else Failure TransportError
       | Resume None => Failure TransportError
       end).

(** One page of two records, then the transport gives up. *)
Definition failing_after_first_page : Server :=
  mkServer (Val ["oai_dc"]) (Val [])
    (fun q =>
       match q with
       | Initial _ _ => Page [r1; r2] (Some (token_of "t1" "0"))
       | Resume _ => Failure HTTPError
       end).

(** The remote corpus shrank from 500 to 480 records since the token
    [abc123] was handed out; the server still honours the token. *)
Definition drifted : Server :=
  mkServer (Val ["oai_dc"]) (Val [])
    (fun q =>
       match q with
       | Initial _ _ =>
           Page [r1; r2] (Some (mkResumptionToken (Some "fresh") (Some "0") (Some "480") None))
       | Resume (Some t) =>
           if String.eqb t "abc123" then
             Page [r3] (Some (mkResumptionToken (Some "next") (Some "50") (Some "480") None))
           else if String.eqb t "next" then Page [r4] None
           else Failure TransportError
       | Resume None => Failure TransportError
       end).

(** The same, but the token [abc123] leads to the last page of the
    listing, whose response has no resumptionToken element. *)
Definition drifted_last : Server :=
  mkServer (Val ["oai_dc"]) (Val [])
    (fun q =>
       match q with
       | Initial _ _ =>
           Page [r1; r2] (Some (mkResumptionToken (Some "fresh") (Some "0") (Some "480") None))
       | Resume (Some t) =>
           if String.eqb t "abc123" then Page [r4] None else Failure TransportError
       | Resume None => Failure TransportError
       end).

(** One page of two records, then the connection is lost: an exception
    of the transport that is not an HTTPError. *)
Definition connection_lost : Server :=
  mkServer (Val ["oai_dc"]) (Val [])
    (fun q =>
       match q with
       | Initial _ _ => Page [r1; r2] (Some (token_of "t1" "0"))
       | Resume _ => Failure TransportError
       end).

(** The last page as the protocol sends it: a resumptionToken element
    without text. *)
Definition textless : ResumptionToken :=
  mkResumptionToken None (Some "2") (Some "4") None.

(** A listing that fits one response: the server sends the records and
    no resumptionToken element. *)
Definition single_page : Server :=
  mkServer (Val ["oai_dc"]) (Val [])
    (fun q =>
       match q with
       | Initial _ _ => Page [r1; r2] None
       | Resume _ => Failure TransportError
       end).

Definition both_sinks : Config :=
  mkConfig (Some "oai_dc") "status" (Some "metadata.tsv") (Some "records.xml") None true false.

(** Both sinks compressed, as the help of the options offers. *)
Definition packed_sinks : Config :=
  mkConfig (Some "oai_dc") "status" (Some "metadata.tsv.bz2") (Some "records.xml.bz2")
    None true false.

Definition records_only : Config :=
  mkConfig (Some "oai_dc") "status" None (Some "records.xml") None true false.

Definition empty_disk : Disk := mkDisk None None None.

(** The files an earlier run left: a checkpoint and a table with its header. *)
Definition interrupted_disk : Disk :=
  mkDisk (Some "abc123/50/500/") (Some [header_row]) (Some "").

(** A status file that holds one space. *)
Definition blank_status_disk : Disk := mkDisk (Some " ") None None.

(** A status file that holds three parts. *)
Definition short_status_disk : Disk := mkDisk (Some "abc123/50/500") None None.

(** The token of the scenario of the specification, and one whose text
    holds a slash. *)
Definition abc123 : ResumptionToken :=
  mkResumptionToken (Some "abc123") (Some "50") (Some "500") None.

(** An element whose namespace name holds braces of its own. *)
Definition braces_in_namespace : element := Element "{a}{b}c" [] None [] None.

Definition slashed : ResumptionToken :=
  mkResumptionToken (Some "a/b") (Some "50") (Some "500") None.

Definition row_of (id creators : string) : list string :=
  [id; "2020-01-01T00:00:00Z"; ""; creators; id; ""].

Fixpoint copies (n : nat) (c : ascii) : string :=
  match n with
  | O => EmptyString
  | S n' => String c (copies n' c)
  end.

(** A token of 8192 characters. *)
Definition long_token : ResumptionToken :=
  mkResumptionToken (Some (copies (N.to_nat 8192) "a"%char)) (Some "0") (Some "4") None.

End Sample.

(** * Strings *)

Lemma append_nil_r (s : string) : (s ++ "")%string = s.
Proof. induction s; simpl; congruence. Qed.

Lemma append_assoc (a b c : string) : ((a ++ b) ++ c)%string = (a ++ (b ++ c))%string.
Proof. induction a; simpl; congruence. Qed.

Lemma substring_whole (s : string) : substring 0 (String.length s) s = s.
Proof. induction s as [|c s IH]; [reflexivity|]. cbn. now rewrite IH. Qed.

Lemma substring_beyond (s : string) (n m : nat) :
  String.length s <= n -> substring n m s = "".
Proof.
  revert n m. induction s as [|c s IH]; intros n m far.
  - destruct n, m; reflexivity.
  - destruct n as [|n]; [cbn in far; lia|]. cbn. apply IH. cbn in far. lia.
Qed.

Lemma length_append (a b : string) :
  String.length (a ++ b) = String.length a + String.length b.
Proof. induction a as [|c a IH]; [reflexivity|]. cbn. now rewrite IH. Qed.

(** Writing at the end of a file appends. *)
Lemma write_at_end (content data : string) :
  write_at (String.length content) content data = (content ++ data)%string.
Proof.
  unfold write_at. rewrite substring_whole, Nat.sub_diag.
  rewrite substring_beyond by lia. cbn [zeros append]. now rewrite append_nil_r.
Qed.

Lemma encoded_size_append (a b : string) :
  encoded_size (a ++ b) = (encoded_size a + encoded_size b)%N.
Proof.
  induction a as [|c a IH]; [reflexivity|]. cbn [append encoded_size]. rewrite IH. lia.
Qed.

Lemma rstrip_cons_visible c s :
  PyStr.is_space c = false -> PyStr.rstrip (String c s) = String c (PyStr.rstrip s).
Proof. simpl. intros ->. now destruct (PyStr.rstrip s). Qed.

Lemma rstrip_before_slash a b :
  PyStr.rstrip (a ++ String slash b) = (a ++ String slash (PyStr.rstrip b))%string.
Proof.
  induction a as [|x a IH].
  - now apply rstrip_cons_visible.
  - cbn [append PyStr.rstrip]. rewrite IH. now destruct a.
Qed.

Lemma free_line_no_slash c s :
  PyStr.free_of breaks_line (String c s) = true ->
  Ascii.eqb c slash = false /\ (Ascii.eqb c PyStr.LF || Ascii.eqb c PyStr.CR) = false
  /\ PyStr.free_of breaks_line s = true.
Proof.
  simpl. unfold breaks_line. intros h. apply andb_true_iff in h as [h1 h2].
  apply negb_true_iff in h1.
  destruct (Ascii.eqb c slash), (Ascii.eqb c PyStr.LF), (Ascii.eqb c PyStr.CR);
    simpl in *; try discriminate; auto.
Qed.

Lemma split_nonempty sep s : PyStr.split sep s <> [].
Proof.
  destruct s as [|c s]; simpl; [discriminate|].
  destruct (Ascii.eqb c sep); [discriminate|]. now destruct (PyStr.split sep s).
Qed.

Lemma split_free a :
  PyStr.free_of breaks_line a = true -> PyStr.split slash a = [a].
Proof.
  induction a as [|c a IH]; [reflexivity|]. intros h.
  apply free_line_no_slash in h as (ns & _ & h). simpl. rewrite ns, (IH h). reflexivity.
Qed.

Lemma split_before_slash a b :
  PyStr.free_of breaks_line a = true ->
  PyStr.split slash (a ++ String slash b) = a :: PyStr.split slash b.
Proof.
  induction a as [|c a IH]; [reflexivity|]. intros h.
  apply free_line_no_slash in h as (ns & _ & h).
  cbn [append PyStr.split]. rewrite ns, (IH h). reflexivity.
Qed.

Lemma readline_free_app a b :
  PyStr.free_of breaks_line a = true ->
  PyStr.readline (a ++ b) = (a ++ PyStr.readline b)%string.
Proof.
  induction a as [|c a IH]; [reflexivity|]. intros h.
  apply free_line_no_slash in h as (_ & nl & h).
  cbn [append PyStr.readline]. rewrite nl, (IH h). reflexivity.
Qed.

Lemma readline_free a :
  PyStr.free_of breaks_line a = true -> PyStr.readline a = a.
Proof.
  intros h. rewrite <- (append_nil_r a) at 1. rewrite readline_free_app by exact h.
  simpl. apply append_nil_r.
Qed.

Lemma split_blank sep s :
  ((length (PyStr.split sep s) =? 1)%nat && (nth 0 (PyStr.split sep s) "" =? ""))%bool = true ->
  s = "".
Proof.
  destruct s as [|c s]; [reflexivity|]. simpl.
  destruct (Ascii.eqb c sep).
  - pose proof (split_nonempty sep s). destruct (PyStr.split sep s); [contradiction|discriminate].
  - destruct (PyStr.split sep s); simpl; rewrite ?andb_false_r; discriminate.
Qed.

(** * The checkpoint file *)

Lemma checkpoint_safe_fields rt :
  checkpoint_safe rt = true ->
  PyStr.free_of breaks_line (text_of (token rt)) = true
  /\ PyStr.free_of breaks_line (text_of (cursor rt)) = true
  /\ PyStr.free_of breaks_line (text_of (complete_list_size rt)) = true
  /\ PyStr.free_of breaks_line (text_of (expiration_date rt)) = true
  /\ PyStr.rstrip (text_of (expiration_date rt)) = text_of (expiration_date rt).
Proof.
  unfold checkpoint_safe. intros h.
  repeat (apply andb_true_iff in h as [h ?]).
  repeat split; try assumption. now apply String.eqb_eq.
Qed.

(** A safe line reads back as the attributes that were written. *)
Lemma load_checkpoint_line rt :
  checkpoint_safe rt = true ->
  load_status_file (Some (checkpoint_line rt)) = Loaded (Some (as_loaded rt)).
Proof.
  intros safe. destruct (checkpoint_safe_fields rt safe) as (ft & fc & fs & fe & re).
  unfold load_status_file, checkpoint_line.
  set (t := text_of (token rt)) in *. set (c := text_of (cursor rt)) in *.
  set (s := text_of (complete_list_size rt)) in *. set (e := text_of (expiration_date rt)) in *.
  change ("/" ++ c ++ "/" ++ s ++ "/" ++ e)%string
    with (String slash (c ++ String slash (s ++ String slash e))).
  assert (rl : PyStr.readline (t ++ String slash (c ++ String slash (s ++ String slash e)))
               = (t ++ String slash (c ++ String slash (s ++ String slash e)))%string).
  { rewrite (readline_free_app t _ ft). f_equal. cbn [PyStr.readline].
    change (Ascii.eqb slash PyStr.LF || Ascii.eqb slash PyStr.CR) with false. cbv iota.
    f_equal. rewrite (readline_free_app c _ fc). f_equal. cbn [PyStr.readline].
    change (Ascii.eqb slash PyStr.LF || Ascii.eqb slash PyStr.CR) with false. cbv iota.
    f_equal. rewrite (readline_free_app s _ fs). f_equal. cbn [PyStr.readline].
    change (Ascii.eqb slash PyStr.LF || Ascii.eqb slash PyStr.CR) with false. cbv iota.
    f_equal. now apply readline_free. }
  rewrite rl. rewrite !rstrip_before_slash, re.
  rewrite (split_before_slash t _ ft), (split_before_slash c _ fc),
    (split_before_slash s _ fs), (split_free e fe).
  reflexivity.
Qed.

(** * Laws of the event monad *)

Lemma bind_ret_l {A B : Type} (a : A) (k : A -> M B) : bind (ret a) k = k a.
Proof. unfold bind, ret. simpl. now destruct (k a). Qed.

Lemma bind_assoc {A B C : Type} (m : M A) (f : A -> M B) (g : B -> M C) :
  bind (bind m f) g = bind m (fun x => bind (f x) g).
Proof.
  destruct m as [tr [a| |]]; unfold bind; simpl; try reflexivity.
  destruct (f a) as [tr' [b| |]]; simpl; try reflexivity.
  now rewrite app_assoc.
Qed.

Lemma bind_emit {B : Type} (e : event) (k : unit -> M B) :
  bind (emit e) k = (e :: fst (k tt), snd (k tt)).
Proof. reflexivity. Qed.

Lemma bind_returns {A B : Type} (m : M A) (k : A -> M B) (a : A) :
  snd m = Ret a -> bind m k = (fst m ++ fst (k a), snd (k a)).
Proof. unfold bind. now intros ->. Qed.

Lemma bind_raises {A B : Type} (m : M A) (k : A -> M B) (e : exn) :
  snd m = Raise e -> bind m k = (fst m, Raise e).
Proof. unfold bind. now intros ->. Qed.

Lemma replay_app (a b : list event) (p : Process) :
  replay (a ++ b) p = replay b (replay a p).
Proof. apply fold_left_app. Qed.

Lemma replay_cons (e : event) (tr : list event) (p : Process) :
  replay (e :: tr) p = replay tr (step e p).
Proof. reflexivity. Qed.

(** * The status handle *)

Lemma flush_status_sinks p :
  sink_view (flush_status p) = sink_view p.
Proof. unfold flush_status. now destruct (sf_buffer p). Qed.

Lemma write_status_sinks data p :
  sink_view (write_status data p) = sink_view p.
Proof.
  unfold write_status. destruct (held_back _); [reflexivity|].
  now rewrite flush_status_sinks.
Qed.

Lemma sink_view_parts p p' :
  sink_view p = sink_view p' ->
  metadata_on_disk (files p) = metadata_on_disk (files p')
  /\ records_on_disk (files p) = records_on_disk (files p')
  /\ metadata_buffer p = metadata_buffer p'
  /\ record_buffer p = record_buffer p'
  /\ metadata_packed p = metadata_packed p'
  /\ record_packed p = record_packed p'.
Proof. unfold sink_view. intros h. injection h. auto 7. Qed.

Lemma flush_status_is content pending p :
  status_is content pending p ->
  status_is (content ++ pending) "" (flush_status p).
Proof.
  intros (st & pos & buf). unfold flush_status, status_is. rewrite buf.
  destruct pending as [|c pending].
  - rewrite append_nil_r. auto.
  - cbn [files status_on_disk sf_pos sf_buffer]. rewrite st, pos. cbn [content_or_empty].
    rewrite write_at_end, length_append. auto.
Qed.

Lemma write_status_is content pending data p :
  status_is content pending p ->
  exists content' pending',
    status_is content' pending' (write_status data p)
    /\ (content' ++ pending' = content ++ pending ++ data)%string
    /\ (held_back (pending ++ data) = true -> content' = content).
Proof.
  intros (st & pos & buf). unfold write_status. rewrite buf.
  destruct (held_back (pending ++ data)).
  - exists content, (pending ++ data)%string. repeat split; auto.
  - exists (content ++ pending ++ data)%string, "". split; [|split].
    + apply flush_status_is. repeat split; auto.
    + now rewrite append_nil_r.
    + discriminate.
Qed.

Lemma replay_status_writes ws :
  forall content pending p,
  forallb is_status_write ws = true ->
  status_is content pending p ->
  exists content' pending',
    status_is content' pending' (replay ws p)
    /\ (content' ++ pending' = content ++ pending ++ written ws)%string
    /\ sink_view (replay ws p) = sink_view p
    /\ (held_back (pending ++ written ws) = true -> content' = content).
Proof.
  induction ws as [|e ws IH]; intros content pending p only here.
  - exists content, pending. cbn. rewrite append_nil_r. auto.
  - cbn [forallb] in only. apply andb_true_iff in only as [he hws].
    destruct e as [| | | | | |[] d| | | | | |]; try discriminate.
    rewrite replay_cons. cbn [step written].
    destruct (write_status_is content pending d p here) as (c1 & p1 & h1 & e1 & k1).
    destruct (IH c1 p1 _ hws h1) as (c2 & p2 & h2 & e2 & v2 & k2).
    exists c2, p2. split; [exact h2|]. split; [|split].
    + rewrite e2, <- append_assoc, e1. now rewrite !append_assoc.
    + now rewrite v2, write_status_sinks.
    + intros small.
      assert (first : held_back (pending ++ d) = true).
      { unfold held_back in *. apply N.ltb_lt in small. apply N.ltb_lt.
        rewrite <- append_assoc, encoded_size_append in small. lia. }
      specialize (k1 first). subst c1.
      assert (p1 = (pending ++ d)%string).
      { clear - e1. induction content as [|c content IH]; [exact e1|].
        cbn in e1. injection e1 as e1. auto. }
      subst p1. apply k2. now rewrite append_assoc.
Qed.

Lemma replay_truncate_seek p :
  replay [Truncate0; Seek0] p
  = mkProcess (mkDisk (Some "") (metadata_on_disk (files p)) (records_on_disk (files p)))
      "" 0 (metadata_buffer p) (record_buffer p) (metadata_packed p) (record_packed p).
Proof.
  cbn. unfold flush_status. destruct (sf_buffer p); reflexivity.
Qed.

Lemma checkpoint_writes_only rt :
  forallb is_status_write (checkpoint_writes rt) = true.
Proof. destruct rt as [t [c|] [n|] [e|]]; reflexivity. Qed.

Lemma written_checkpoint rt :
  written (checkpoint_writes rt) = checkpoint_line rt.
Proof.
  destruct rt as [t [c|] [n|] [e|]]; unfold checkpoint_line; cbn;
    rewrite ?append_nil_r; reflexivity.
Qed.

Section CheckpointStore.

Context {ext : Externals}.

Lemma save_checkpoint_calls rt t :
  token rt = Some t ->
  save_checkpoint (Some rt)
  = (Truncate0 :: Seek0 :: checkpoint_writes rt ++ [Flush StatusFile; Fsync StatusFile],
     Ret tt).
Proof.
  destruct rt as [tk [c|] [n|] [e|]]; cbn; intros ->; reflexivity.
Qed.

Lemma replay_save_checkpoint rt t p :
  token rt = Some t ->
  snd (save_checkpoint (Some rt)) = Ret tt
  /\ replay (fst (save_checkpoint (Some rt))) p
     = mkProcess
         (mkDisk (Some (checkpoint_line rt)) (metadata_on_disk (files p))
                 (records_on_disk (files p)))
         "" (String.length (checkpoint_line rt)) (metadata_buffer p) (record_buffer p)
         (metadata_packed p) (record_packed p).
Proof.
  intros tk. rewrite (save_checkpoint_calls rt t tk). split; [reflexivity|]. cbn [fst].
  change (Truncate0 :: Seek0 :: checkpoint_writes rt ++ [Flush StatusFile; Fsync StatusFile])
    with ([Truncate0; Seek0] ++ checkpoint_writes rt ++ [Flush StatusFile; Fsync StatusFile]).
  rewrite !replay_app, replay_truncate_seek.
  set (q := mkProcess _ _ _ _ _ _ _).
  destruct (replay_status_writes (checkpoint_writes rt) "" "" q (checkpoint_writes_only rt))
    as (c & b & here & sum & view & _); [now subst q|].
  rewrite written_checkpoint in sum. cbn [append] in sum.
  pose proof (flush_status_is c b _ here) as (st & pos & buf). rewrite sum in st, pos.
  pose proof (flush_status_sinks (replay (checkpoint_writes rt) q)) as v.
  rewrite view in v. apply sink_view_parts in v as (m & r & mb & rb & fm & fr).
  change (replay [Flush StatusFile; Fsync StatusFile] ?x) with (flush_status x).
  destruct (flush_status (replay (checkpoint_writes rt) q)) as [[s0 m0 r0] sb sp mb0 rb0 fm0 fr0].
  cbn in *. subst. reflexivity.
Qed.

(** C4, amended. A continuation state whose token is present and whose
    attributes hold no slash and no line break, the expiration date not
    ending in white space, is saved without error, and loading the file
    gives back the same token, cursor, total and expiration date, an absent
    one of the last three as the empty string. *)
Theorem checkpoint_roundtrip (rt : ResumptionToken) (t : string) (p : Process) :
  token rt = Some t ->
  checkpoint_safe rt = true ->
  snd (save_checkpoint (Some rt)) = Ret tt
  /\ load_status_file (status_on_disk (kill (replay (fst (save_checkpoint (Some rt))) p)))
     = Loaded (Some (mkResumptionToken (Some t)
                       (Some (text_of (cursor rt)))
                       (Some (text_of (complete_list_size rt)))
                       (Some (text_of (expiration_date rt))))).
Proof.
  intros tok safe. destruct (replay_save_checkpoint rt t p tok) as (ok & after).
  split; [exact ok|]. rewrite after. unfold kill. cbn [files status_on_disk].
  rewrite (load_checkpoint_line rt safe). unfold as_loaded. now rewrite tok.
Qed.

End CheckpointStore.

(** * Calls on a sink leave the status file alone *)

Lemma flush_metadata_status p :
  status_on_disk (files (flush_metadata p)) = status_on_disk (files p)
  /\ sf_buffer (flush_metadata p) = sf_buffer p
  /\ sf_pos (flush_metadata p) = sf_pos p.
Proof. unfold flush_metadata. now destruct (metadata_buffer p). Qed.

Lemma flush_records_status p :
  status_on_disk (files (flush_records p)) = status_on_disk (files p)
  /\ sf_buffer (flush_records p) = sf_buffer p
  /\ sf_pos (flush_records p) = sf_pos p.
Proof. unfold flush_records. now destruct (record_buffer p). Qed.

Lemma write_records_status data p :
  status_on_disk (files (write_records data p)) = status_on_disk (files p)
  /\ sf_buffer (write_records data p) = sf_buffer p
  /\ sf_pos (write_records data p) = sf_pos p.
Proof.
  unfold write_records. destruct (_ || _); [auto|].
  match goal with
  | |- context [flush_records ?q] => destruct (flush_records_status q) as (-> & -> & ->)
  end. auto.
Qed.

Lemma sink_call_status e p :
  match e with
  | Write RecordFile _ | Write MetadataFile _ | WriteRow _ => true
  | Flush MetadataFile | Flush RecordFile | Close MetadataFile | Close RecordFile => true
  | Print _ | Log _ | Discover | Request _ | Fsync _ => true
  | _ => false
  end = true ->
  status_on_disk (files (step e p)) = status_on_disk (files p)
  /\ sf_buffer (step e p) = sf_buffer p
  /\ sf_pos (step e p) = sf_pos p.
Proof.
  destruct e as [l|r| |q|f m|f path m|f d|row| | |f|f|f]; try discriminate; cbn; auto.
  - destruct f; try discriminate; cbn; auto. intros _. apply write_records_status.
  - destruct f; try discriminate; intros _; cbn.
    + destruct (metadata_packed p); [auto|apply flush_metadata_status].
    + destruct (record_packed p); [auto|apply flush_records_status].
  - destruct f; try discriminate; intros _; cbn.
    + apply flush_metadata_status.
    + apply flush_records_status.
Qed.

(** * Events that leave an emptied status file empty *)

Lemma step_keeps_empty_status e p :
  is_status_write e = false ->
  sf_buffer p = "" -> status_on_disk (files p) = Some "" ->
  sf_buffer (step e p) = "" /\ status_on_disk (files (step e p)) = Some "".
Proof.
  intros quiet buf st.
  assert (flush : flush_status p = p) by (unfold flush_status; now rewrite buf).
  destruct e as [l|r| |q|f m|f path m|f d|row| | |f|f|f];
    try (match goal with |- context [step ?ev p] => destruct (sink_call_status ev p eq_refl) as (-> & -> & _) end; now auto).
  - destruct f, m; cbn; rewrite ?st; auto.
  - destruct f, m; cbn; rewrite ?st; auto.
  - destruct f; try discriminate;
      match goal with |- context [step ?ev p] => destruct (sink_call_status ev p eq_refl) as (-> & -> & _) end; auto.
  - cbn [step]. rewrite flush. cbn. auto.
  - cbn [step]. rewrite flush. cbn. auto.
  - destruct f; try (match goal with |- context [step ?ev p] => destruct (sink_call_status ev p eq_refl) as (-> & -> & _) end; now auto).
    cbn [step flush_handle flush_file]. rewrite flush. auto.
  - destruct f; try (match goal with |- context [step ?ev p] => destruct (sink_call_status ev p eq_refl) as (-> & -> & _) end; now auto).
    cbn [step flush_handle flush_file]. rewrite flush. auto.
Qed.

Lemma step_keeps_empty_buffer e p :
  is_status_write e = false -> sf_buffer p = "" -> sf_buffer (step e p) = "".
Proof.
  intros quiet buf.
  assert (flush : flush_status p = p) by (unfold flush_status; now rewrite buf).
  destruct e as [l|r| |q|f m|f path m|f d|row| | |f|f|f];
    try (match goal with |- context [step ?ev p] => destruct (sink_call_status ev p eq_refl) as (_ & -> & _) end; now auto).
  - destruct f; cbn; auto.
  - destruct f; cbn; auto.
  - destruct f; try discriminate;
      match goal with |- context [step ?ev p] => destruct (sink_call_status ev p eq_refl) as (_ & -> & _) end; auto.
  - cbn [step]. now rewrite flush.
  - cbn [step]. now rewrite flush.
  - destruct f; try (match goal with |- context [step ?ev p] => destruct (sink_call_status ev p eq_refl) as (_ & -> & _) end; now auto).
    cbn [step flush_handle flush_file]. now rewrite flush.
  - destruct f; try (match goal with |- context [step ?ev p] => destruct (sink_call_status ev p eq_refl) as (_ & -> & _) end; now auto).
    cbn [step flush_handle flush_file]. now rewrite flush.
Qed.

Lemma replay_keeps_empty_status tr :
  forall p, existsb is_status_write tr = false ->
  sf_buffer p = "" -> status_on_disk (files p) = Some "" ->
  sf_buffer (replay tr p) = "" /\ status_on_disk (files (replay tr p)) = Some "".
Proof.
  induction tr as [|e tr IH]; simpl; intros p quiet buf st; [auto|].
  apply orb_false_iff in quiet as [qe qtr].
  destruct (step_keeps_empty_status e p qe buf st). now apply IH.
Qed.

Lemma replay_after_opening tr :
  forall p, In (Open StatusFile WT) tr -> existsb is_status_write tr = false ->
  sf_buffer p = "" ->
  status_on_disk (files (replay tr p)) = Some "".
Proof.
  induction tr as [|e tr IH]; simpl; intros p opened quiet buf; [contradiction|].
  apply orb_false_iff in quiet as [qe qtr].
  destruct opened as [->|opened].
  - now apply replay_keeps_empty_status.
  - apply IH; auto. now apply step_keeps_empty_buffer.
Qed.

Lemma firstn_In_subset {A : Type} (n : nat) (l : list A) (x : A) :
  In x (firstn n l) -> In x l.
Proof.
  revert n. induction l as [|a l IH]; intros [|n]; simpl; try tauto.
  intros [->|mem]; eauto.
Qed.

Lemma prefix_reaches {A : Type} (pre : list A) (x : A) (rest : list A) (n : nat) (e : A) :
  In e (firstn n (pre ++ x :: rest)) -> ~ In e pre -> In x (firstn n (pre ++ x :: rest)).
Proof.
  rewrite firstn_app. intros mem fresh.
  apply in_app_iff in mem as [mem|mem].
  - exfalso. apply fresh. eapply firstn_In_subset; eauto.
  - apply in_app_iff. right.
    destruct (n - length pre) as [|k]; simpl in *; [contradiction | now left].
Qed.

Section Driver.

Context {ext : Externals}.

Lemma with_outputs_trace cfg body :
  with_outputs cfg body = (opening cfg ++ fst body ++ closing cfg, snd body).
Proof.
  unfold with_outputs, finally, xopen_or_nullcontext, opening, closing.
  destruct (metadata_output cfg), (record_output cfg); reflexivity.
Qed.

Lemma write_header_trace cfg fs e :
  In e (fst (write_header cfg fs)) ->
  (exists path, e = Xopen MetadataFile path WT)
  \/ e = WriteRow header_row \/ e = Close MetadataFile.
Proof.
  unfold write_header. destruct (metadata_output cfg); [|contradiction].
  destruct (metadata_on_disk fs); simpl; intuition eauto.
Qed.

Lemma write_header_returns cfg fs mo :
  metadata_output cfg = Some mo -> snd (write_header cfg fs) = Ret tt.
Proof.
  unfold write_header. intros ->. now destruct (metadata_on_disk fs).
Qed.

(** The run once the options and the status file let it start. *)
Lemma crawl_finna_started fuel cfg sickle fs prefix rt :
  metadata_prefix cfg = Some prefix ->
  (is_some (metadata_output cfg) || is_some (record_output cfg))%bool = true ->
  load_status_file (status_on_disk fs) = Loaded rt ->
  crawl_finna fuel cfg sickle fs
  = (write_header cfg fs ;;
     with_outputs cfg
       (try_except_HTTPError (harvest fuel cfg sickle prefix rt)
          (emit (Log (LoggedException HTTPError))) ;;
        emit Truncate0)).
Proof.
  intros hp ho hl. unfold crawl_finna. rewrite hp, hl.
  destruct (is_some (metadata_output cfg)), (is_some (record_output cfg));
    try discriminate; reflexivity.
Qed.

Lemma crawl_finna_trace fuel cfg sickle fs prefix target rt :
  metadata_prefix cfg = Some prefix ->
  metadata_output cfg = Some target ->
  load_status_file (status_on_disk fs) = Loaded rt ->
  crawl_finna fuel cfg sickle fs
  = (fst (write_header cfg fs) ++ opening cfg
       ++ fst (harvest fuel cfg sickle prefix rt)
       ++ ending (snd (harvest fuel cfg sickle prefix rt)) ++ closing cfg,
     outcome (snd (harvest fuel cfg sickle prefix rt))).
Proof.
  intros hp hm hl.
  assert (run := crawl_finna_started fuel cfg sickle fs prefix rt hp).
  rewrite hm in run. specialize (run eq_refl hl). rewrite run.
  rewrite (bind_returns _ _ tt (write_header_returns cfg fs target hm)).
  rewrite with_outputs_trace.
  destruct (harvest fuel cfg sickle prefix rt) as [tr [[]|[]|]];
    unfold try_except_HTTPError, bind; cbn [fst snd emit ending outcome];
    repeat (rewrite <- app_assoc || cbn [app]); rewrite ?app_nil_r; reflexivity.
Qed.

(** C5, amended. When the status file exists and its first line, without
    its trailing white space, is not empty and does not split at the
    slashes into four parts, the command logs the error and returns: it
    requests nothing and opens no file. *)
Theorem corrupt_checkpoint_reported
    (fuel : nat) (cfg : Config) (sickle : Server) (fs : Disk)
    (prefix content : string) :
  metadata_prefix cfg = Some prefix ->
  (is_some (metadata_output cfg) || is_some (record_output cfg))%bool = true ->
  status_on_disk fs = Some content ->
  PyStr.rstrip (PyStr.readline content) <> "" ->
  length (PyStr.split slash (PyStr.rstrip (PyStr.readline content))) <> 4 ->
  crawl_finna fuel cfg sickle fs
  = ([Log (ErrorUnknownParts (PyStr.split slash (PyStr.rstrip (PyStr.readline content))))],
     Ret tt).
Proof.
  intros hp ho hs nonblank parts.
  assert (load : load_status_file (status_on_disk fs)
                 = UnknownParts (PyStr.split slash (PyStr.rstrip (PyStr.readline content)))).
  { rewrite hs. unfold load_status_file.
    destruct (Nat.eqb_spec (length (PyStr.split slash (PyStr.rstrip (PyStr.readline content)))) 4);
      [contradiction|].
    match goal with |- (if ?c then _ else _) = _ => destruct c eqn:blank end; [|reflexivity].
    apply split_blank in blank. contradiction. }
  unfold crawl_finna. rewrite hp, load.
  destruct (is_some (metadata_output cfg)), (is_some (record_output cfg));
    try discriminate; reflexivity.
Qed.

(** C6. A missing status file and an empty one are loaded alike, as no
    token to resume from, and the whole run (every call it makes and the
    way it ends) is the same in both cases. *)
Theorem empty_checkpoint_is_no_checkpoint
    (fuel : nat) (cfg : Config) (sickle : Server)
    (table : option (list (list string))) (stream_file : option string) :
  load_status_file None = Loaded None
  /\ load_status_file (Some "") = Loaded None
  /\ crawl_finna fuel cfg sickle (mkDisk None table stream_file)
     = crawl_finna fuel cfg sickle (mkDisk (Some "") table stream_file).
Proof. repeat split. Qed.

(** C7, at the inputs where it fails. With a record output and no
    metadata output the command raises TypeError at line 95, before it
    opens a file or requests a page. *)
Theorem record_sink_alone_fails
    (fuel : nat) (cfg : Config) (sickle : Server) (fs : Disk)
    (prefix target : string) (rt : option ResumptionToken) :
  metadata_prefix cfg = Some prefix ->
  metadata_output cfg = None ->
  record_output cfg = Some target ->
  load_status_file (status_on_disk fs) = Loaded rt ->
  crawl_finna fuel cfg sickle fs = ([], Raise TypeError).
Proof.
  intros hp hm hr hl.
  rewrite (crawl_finna_started fuel cfg sickle fs prefix rt hp); [|now rewrite hm, hr|exact hl].
  unfold write_header. now rewrite hm.
Qed.

(** C9. Whenever a listing request has been made, the status file has
    been opened for writing before it; and at any point from that opening
    up to the first write of a checkpoint, a process that stops leaves the
    status file empty, whatever it held when the run began. *)
Theorem opening_erases_checkpoint
    (fuel : nat) (cfg : Config) (sickle : Server) (fs : Disk) (n : nat) :
  let seen := firstn n (fst (crawl_finna fuel cfg sickle fs)) in
  ((exists q, In (Request q) seen) -> In (Open StatusFile WT) seen)
  /\ (In (Open StatusFile WT) seen ->
      existsb is_status_write seen = false ->
      status_on_disk (killed_after n (crawl_finna fuel cfg sickle fs) fs) = Some "").
Proof.
  intros seen. split.
  - intros (q & mem). subst seen.
    revert mem. unfold crawl_finna.
    destruct (metadata_prefix cfg) as [prefix|].
    + destruct (negb (is_some (metadata_output cfg)) && negb (is_some (record_output cfg)))%bool.
      { intros mem. apply firstn_In_subset in mem. simpl in mem.
        destruct mem as [?|[]]; discriminate. }
      destruct (load_status_file (status_on_disk fs)) as [rt|parts].
      2: { intros mem. apply firstn_In_subset in mem. simpl in mem.
           destruct mem as [?|[]]; discriminate. }
      destruct (metadata_output cfg) as [mo|] eqn:hm.
      2: { unfold write_header. rewrite hm. intros mem. apply firstn_In_subset in mem.
           simpl in mem. contradiction. }
      rewrite (bind_returns _ _ tt (write_header_returns cfg fs mo hm)).
      rewrite with_outputs_trace. cbn [fst]. unfold opening. cbn [app].
      intros mem. eapply prefix_reaches; [exact mem|].
      intros bad. apply write_header_trace in bad as [(path & ?)|[?|?]]; discriminate.
    + intros mem. apply firstn_In_subset in mem. exfalso. revert mem.
      destruct (metadata_formats sickle), (set_names sickle); simpl;
        intuition discriminate.
  - intros opened quiet. unfold killed_after, kill.
    now apply replay_after_opening.
Qed.

Lemma replay_closing cfg p :
  sf_buffer p = "" -> status_on_disk (files p) = Some "" ->
  status_on_disk (files (replay (closing cfg) p)) = Some "".
Proof.
  intros buf st. apply replay_keeps_empty_status; auto.
  unfold closing. destruct (record_output cfg), (metadata_output cfg); reflexivity.
Qed.

(** C2, at the inputs where it fails. When the transport raises HTTPError
    inside the harvest, the exception is logged and the command returns,
    but line 162 then truncates the status file: the run leaves it empty. *)
Theorem abort_empties_checkpoint
    (fuel : nat) (cfg : Config) (sickle : Server) (fs : Disk)
    (prefix target : string) (rt : option ResumptionToken) :
  metadata_prefix cfg = Some prefix ->
  metadata_output cfg = Some target ->
  load_status_file (status_on_disk fs) = Loaded rt ->
  snd (harvest fuel cfg sickle prefix rt) = Raise HTTPError ->
  snd (crawl_finna fuel cfg sickle fs) = Ret tt
  /\ In (Log (LoggedException HTTPError)) (fst (crawl_finna fuel cfg sickle fs))
  /\ status_on_disk (final_disk (crawl_finna fuel cfg sickle fs) fs) = Some "".
Proof.
  intros hp hm hl failed.
  unfold final_disk.
  rewrite (crawl_finna_trace fuel cfg sickle fs prefix target rt hp hm hl), failed.
  cbn [fst snd ending outcome]. split; [reflexivity|]. split.
  - repeat (rewrite in_app_iff || cbn [In]). intuition auto.
  - rewrite !app_assoc, replay_app. rewrite <- !app_assoc.
    change ([Log (LoggedException HTTPError); Truncate0])
      with ([Log (LoggedException HTTPError)] ++ [Truncate0]).
    rewrite !app_assoc, replay_app. cbn [replay fold_left].
    apply (replay_closing cfg); reflexivity.
Qed.

End Driver.

(** * What the sinks hold *)

Lemma flush_metadata_held p :
  table_held (flush_metadata p) = table_held p
  \/ (metadata_on_disk (files p) = None /\ metadata_buffer p <> []).
Proof.
  unfold flush_metadata, table_held. destruct (metadata_buffer p) as [|row rows] eqn:buf.
  - left. now rewrite buf.
  - destruct (metadata_on_disk (files p)) as [table|]; cbn.
    + left. now rewrite app_nil_r.
    + right. split; [reflexivity|discriminate].
Qed.

Lemma flush_metadata_others p :
  stream_held (flush_metadata p) = stream_held p
  /\ records_on_disk (files (flush_metadata p)) = records_on_disk (files p)
  /\ record_buffer (flush_metadata p) = record_buffer p
  /\ metadata_packed (flush_metadata p) = metadata_packed p
  /\ record_packed (flush_metadata p) = record_packed p
  /\ metadata_buffer (flush_metadata p) = [].
Proof.
  unfold flush_metadata, stream_held. destruct (metadata_buffer p) eqn:buf; cbn; auto 7.
Qed.

Lemma flush_records_others p :
  table_held (flush_records p) = table_held p
  /\ metadata_on_disk (files (flush_records p)) = metadata_on_disk (files p)
  /\ metadata_buffer (flush_records p) = metadata_buffer p
  /\ metadata_packed (flush_records p) = metadata_packed p
  /\ record_packed (flush_records p) = record_packed p
  /\ record_buffer (flush_records p) = "".
Proof.
  unfold flush_records, table_held. destruct (record_buffer p) eqn:buf; cbn; auto 7.
Qed.

Lemma flush_records_held p txt :
  stream_held p = Some txt -> stream_held (flush_records p) = Some txt.
Proof.
  unfold flush_records, stream_held. destruct (record_buffer p) as [|c b] eqn:buf.
  - now rewrite buf.
  - destruct (records_on_disk (files p)) as [t|]; cbn; [|discriminate].
    now rewrite append_nil_r.
Qed.

Lemma flush_metadata_table p rows :
  table_held p = Some rows -> table_held (flush_metadata p) = Some rows.
Proof.
  intros here. destruct (flush_metadata_held p) as [->|(none & _)]; [exact here|].
  unfold table_held in here. rewrite none in here. discriminate.
Qed.

Lemma flush_status_held p :
  table_held (flush_status p) = table_held p /\ stream_held (flush_status p) = stream_held p.
Proof. unfold flush_status, table_held, stream_held. now destruct (sf_buffer p). Qed.

Lemma write_status_held data p :
  table_held (write_status data p) = table_held p
  /\ stream_held (write_status data p) = stream_held p.
Proof.
  unfold write_status. destruct (held_back _); [auto|].
  match goal with
  | |- context [flush_status ?q] => destruct (flush_status_held q) as (-> & ->)
  end. auto.
Qed.

Lemma write_records_held data p txt :
  stream_held p = Some txt ->
  stream_held (write_records data p) = Some (txt ++ data)%string.
Proof.
  intros here. unfold write_records.
  set (q := mkProcess _ _ _ _ _ _ _).
  assert (hq : stream_held q = Some (txt ++ data)%string).
  { revert here. unfold stream_held. subst q. cbn.
    destruct (records_on_disk (files p)); cbn; [|discriminate].
    intros h. injection h as <-. now rewrite append_assoc. }
  destruct (_ || _); [exact hq|]. now apply flush_records_held.
Qed.

Lemma write_records_others data p :
  table_held (write_records data p) = table_held p
  /\ metadata_on_disk (files (write_records data p)) = metadata_on_disk (files p)
  /\ metadata_buffer (write_records data p) = metadata_buffer p
  /\ metadata_packed (write_records data p) = metadata_packed p
  /\ record_packed (write_records data p) = record_packed p.
Proof.
  unfold write_records. destruct (_ || _); [cbn; auto|].
  match goal with
  | |- context [flush_records ?q] =>
      destruct (flush_records_others q) as (-> & -> & -> & -> & -> & _)
  end. auto.
Qed.

(** A call that opens no sink adds to a sink what it hands to it, and
    nothing else. *)
Lemma step_table e p rows :
  opens_sink e = false -> table_held p = Some rows ->
  table_held (step e p) = Some (rows ++ rows_of e).
Proof.
  intros keep here.
  destruct e as [l|r| |q|f m|f path m|f d|row| | |f|f|f]; cbn [step rows_of];
    rewrite ?app_nil_r; try exact here.
  - destruct f; try discriminate. exact here.
  - destruct f; try discriminate. exact here.
  - destruct f; try exact here.
    + now destruct (write_status_held d p) as (-> & _).
    + now destruct (write_records_others d p) as (-> & _).
  - revert here. unfold table_held. cbn.
    destruct (metadata_on_disk (files p)); cbn; [|discriminate].
    intros h. injection h as <-. now rewrite app_assoc.
  - destruct (flush_status_held p) as (h & _). rewrite <- h in here. exact here.
  - destruct (flush_status_held p) as (h & _). rewrite <- h in here. exact here.
  - destruct f; cbn.
    + now destruct (flush_status_held p) as (-> & _).
    + destruct (metadata_packed p); [exact here|now apply flush_metadata_table].
    + destruct (record_packed p); [exact here|].
      now destruct (flush_records_others p) as (-> & _).
  - destruct f; cbn.
    + now destruct (flush_status_held p) as (-> & _).
    + now apply flush_metadata_table.
    + now destruct (flush_records_others p) as (-> & _).
Qed.

Lemma step_stream e p txt :
  opens_sink e = false -> stream_held p = Some txt ->
  stream_held (step e p) = Some (txt ++ text_of_write e)%string.
Proof.
  intros keep here.
  destruct e as [l|r| |q|f m|f path m|f d|row| | |f|f|f]; cbn [step text_of_write];
    rewrite ?append_nil_r; try exact here.
  - destruct f; try discriminate. exact here.
  - destruct f; try discriminate. exact here.
  - destruct f; rewrite ?append_nil_r; try exact here.
    + now destruct (write_status_held d p) as (_ & ->).
    + now apply write_records_held.
  - destruct (flush_status_held p) as (_ & h). rewrite <- h in here. exact here.
  - destruct (flush_status_held p) as (_ & h). rewrite <- h in here. exact here.
  - destruct f; cbn.
    + now destruct (flush_status_held p) as (_ & ->).
    + destruct (metadata_packed p); [exact here|].
      now destruct (flush_metadata_others p) as (-> & _).
    + destruct (record_packed p); [exact here|now apply flush_records_held].
  - destruct f; cbn.
    + now destruct (flush_status_held p) as (_ & ->).
    + now destruct (flush_metadata_others p) as (-> & _).
    + now apply flush_records_held.
Qed.

Lemma rows_written_app a b : rows_written (a ++ b) = rows_written a ++ rows_written b.
Proof. apply flat_map_app. Qed.

Lemma text_written_app a b :
  text_written (a ++ b) = (text_written a ++ text_written b)%string.
Proof.
  induction a as [|e a IH]; [reflexivity|]. cbn [app text_written].
  now rewrite IH, append_assoc.
Qed.

Lemma replay_table tr :
  forall p rows, existsb opens_sink tr = false -> table_held p = Some rows ->
  table_held (replay tr p) = Some (rows ++ rows_written tr).
Proof.
  induction tr as [|e tr IH]; intros p rows keep here.
  - cbn. now rewrite app_nil_r.
  - cbn [existsb] in keep. apply orb_false_iff in keep as [ke ktr].
    rewrite replay_cons, (IH _ _ ktr (step_table e p rows ke here)).
    change (rows_written (e :: tr)) with (rows_of e ++ rows_written tr).
    now rewrite app_assoc.
Qed.

Lemma replay_stream tr :
  forall p txt, existsb opens_sink tr = false -> stream_held p = Some txt ->
  stream_held (replay tr p) = Some (txt ++ text_written tr)%string.
Proof.
  induction tr as [|e tr IH]; intros p txt keep here.
  - cbn. now rewrite append_nil_r.
  - cbn [existsb] in keep. apply orb_false_iff in keep as [ke ktr].
    rewrite replay_cons, (IH _ _ ktr (step_stream e p txt ke here)).
    cbn [text_written]. now rewrite append_assoc.
Qed.

(** A call made on another handle leaves a sink as it is. *)
Lemma step_off_metadata e p :
  on_metadata e = false ->
  metadata_on_disk (files (step e p)) = metadata_on_disk (files p)
  /\ metadata_buffer (step e p) = metadata_buffer p
  /\ metadata_packed (step e p) = metadata_packed p.
Proof.
  intros off.
  destruct e as [l|r| |q|f m|f path m|f d|row| | |f|f|f]; try discriminate; cbn [step]; auto.
  - destruct f; try discriminate; cbn; auto.
  - destruct f; try discriminate; cbn; auto.
  - destruct f; try discriminate.
    + pose proof (write_status_sinks d p) as v.
      apply sink_view_parts in v as (-> & _ & -> & _ & -> & _). auto.
    + destruct (write_records_others d p) as (_ & -> & -> & -> & _). auto.
  - pose proof (flush_status_sinks p) as v.
    apply sink_view_parts in v as (m & _ & mb & _ & fm & _). cbn. auto.
  - pose proof (flush_status_sinks p) as v.
    apply sink_view_parts in v as (m & _ & mb & _ & fm & _). cbn.
    destruct (flush_status p); cbn in *; auto.
  - destruct f; try discriminate; cbn.
    + pose proof (flush_status_sinks p) as v.
      apply sink_view_parts in v as (-> & _ & -> & _ & -> & _). auto.
    + destruct (record_packed p); [auto|].
      destruct (flush_records_others p) as (_ & -> & -> & -> & _). auto.
  - destruct f; try discriminate; cbn.
    + pose proof (flush_status_sinks p) as v.
      apply sink_view_parts in v as (-> & _ & -> & _ & -> & _). auto.
    + destruct (flush_records_others p) as (_ & -> & -> & -> & _). auto.
Qed.

Lemma step_off_records e p :
  on_records e = false ->
  records_on_disk (files (step e p)) = records_on_disk (files p)
  /\ record_buffer (step e p) = record_buffer p
  /\ record_packed (step e p) = record_packed p.
Proof.
  intros off.
  destruct e as [l|r| |q|f m|f path m|f d|row| | |f|f|f]; try discriminate; cbn [step]; auto.
  - destruct f; try discriminate; cbn; auto.
  - destruct f; try discriminate; cbn; auto.
  - destruct f; try discriminate; auto.
    pose proof (write_status_sinks d p) as v.
    apply sink_view_parts in v as (_ & -> & _ & -> & _ & ->). auto.
  - pose proof (flush_status_sinks p) as v.
    apply sink_view_parts in v as (_ & r & _ & rb & _ & fr). cbn. auto.
  - pose proof (flush_status_sinks p) as v.
    apply sink_view_parts in v as (_ & r & _ & rb & _ & fr). cbn.
    destruct (flush_status p); cbn in *; auto.
  - destruct f; try discriminate; cbn.
    + pose proof (flush_status_sinks p) as v.
      apply sink_view_parts in v as (_ & -> & _ & -> & _ & ->). auto.
    + destruct (metadata_packed p); [auto|].
      destruct (flush_metadata_others p) as (_ & -> & -> & _ & -> & _). auto.
  - destruct f; try discriminate; cbn.
    + pose proof (flush_status_sinks p) as v.
      apply sink_view_parts in v as (_ & -> & _ & -> & _ & ->). auto.
    + destruct (flush_metadata_others p) as (_ & -> & -> & _ & -> & _). auto.
Qed.

Lemma replay_off_metadata tr :
  forall p, existsb on_metadata tr = false ->
  metadata_on_disk (files (replay tr p)) = metadata_on_disk (files p)
  /\ metadata_buffer (replay tr p) = metadata_buffer p
  /\ metadata_packed (replay tr p) = metadata_packed p.
Proof.
  induction tr as [|e tr IH]; intros p off; [auto|].
  cbn [existsb] in off. apply orb_false_iff in off as [oe otr].
  rewrite replay_cons. destruct (IH (step e p) otr) as (-> & -> & ->).
  now apply step_off_metadata.
Qed.

Lemma replay_off_records tr :
  forall p, existsb on_records tr = false ->
  records_on_disk (files (replay tr p)) = records_on_disk (files p)
  /\ record_buffer (replay tr p) = record_buffer p
  /\ record_packed (replay tr p) = record_packed p.
Proof.
  induction tr as [|e tr IH]; intros p off; [auto|].
  cbn [existsb] in off. apply orb_false_iff in off as [oe otr].
  rewrite replay_cons. destruct (IH (step e p) otr) as (-> & -> & ->).
  now apply step_off_records.
Qed.

Lemma step_flags e p :
  opens_sink e = false ->
  metadata_packed (step e p) = metadata_packed p
  /\ record_packed (step e p) = record_packed p.
Proof.
  intros keep.
  destruct (on_metadata e) eqn:om, (on_records e) eqn:or.
  - destruct e as [| | | |[]|[]|[]| | | |[]|[]|[]]; discriminate.
  - destruct (step_off_records e p or) as (_ & _ & ->). split; [|reflexivity].
    destruct e as [l|r| |q|f m|f path m|f d|row| | |f|f|f]; try discriminate;
      try reflexivity; destruct f; try discriminate; try reflexivity;
      cbn [step flush_handle flush_file].
    + destruct (metadata_packed p) eqn:fm; [auto|].
      destruct (flush_metadata_others p) as (_ & _ & _ & h & _). now rewrite h.
    + now destruct (flush_metadata_others p) as (_ & _ & _ & -> & _).
  - destruct (step_off_metadata e p om) as (_ & _ & ->). split; [reflexivity|].
    destruct e as [l|r| |q|f m|f path m|f d|row| | |f|f|f]; try discriminate;
      try reflexivity; destruct f; try discriminate; try reflexivity;
      cbn [step flush_handle flush_file].
    + now destruct (write_records_others d p) as (_ & _ & _ & _ & ->).
    + destruct (record_packed p) eqn:fr; [auto|].
      destruct (flush_records_others p) as (_ & _ & _ & _ & h & _). now rewrite h.
    + now destruct (flush_records_others p) as (_ & _ & _ & _ & -> & _).
  - destruct (step_off_metadata e p om) as (_ & _ & ->).
    destruct (step_off_records e p or) as (_ & _ & ->). auto.
Qed.

Lemma replay_flags tr :
  forall p, existsb opens_sink tr = false ->
  metadata_packed (replay tr p) = metadata_packed p
  /\ record_packed (replay tr p) = record_packed p.
Proof.
  induction tr as [|e tr IH]; intros p keep; [auto|].
  cbn [existsb] in keep. apply orb_false_iff in keep as [ke ktr].
  rewrite replay_cons. destruct (IH (step e p) ktr) as (-> & ->).
  now apply step_flags.
Qed.

Lemma held_exists_table p : is_some (table_held p) = is_some (metadata_on_disk (files p)).
Proof. unfold table_held. now destruct (metadata_on_disk (files p)). Qed.

Lemma held_exists_stream p : is_some (stream_held p) = is_some (records_on_disk (files p)).
Proof. unfold stream_held. now destruct (records_on_disk (files p)). Qed.

Lemma replay_opened cfg tr p :
  existsb opens_sink tr = false -> opened cfg p -> opened cfg (replay tr p).
Proof.
  intros keep (hm & hr). split; intros conf.
  - specialize (hm conf). rewrite <- held_exists_table in *.
    destruct (table_held p) as [rows|] eqn:here; [|discriminate].
    now rewrite (replay_table tr p rows keep here).
  - specialize (hr conf). rewrite <- held_exists_stream in *.
    destruct (stream_held p) as [txt|] eqn:here; [|discriminate].
    now rewrite (replay_stream tr p txt keep here).
Qed.

Lemma rows_written_off tr : existsb on_metadata tr = false -> rows_written tr = [].
Proof.
  induction tr as [|e tr IH]; [reflexivity|]. cbn [existsb]. intros off.
  apply orb_false_iff in off as [oe otr].
  change (rows_written (e :: tr)) with (rows_of e ++ rows_written tr).
  rewrite (IH otr). destruct e; try discriminate; reflexivity.
Qed.

Lemma text_written_off tr : existsb on_records tr = false -> text_written tr = "".
Proof.
  induction tr as [|e tr IH]; [reflexivity|]. cbn [existsb text_written]. intros off.
  apply orb_false_iff in off as [oe otr]. rewrite (IH otr).
  destruct e as [| | | | | |[]| | | | | |]; try discriminate; reflexivity.
Qed.

(** * The calls a computation can make *)

Lemma emits_ret {A : Type} (allowed : event -> bool) (a : A) : emits allowed (ret a).
Proof. reflexivity. Qed.

Lemma emits_raise {A : Type} (allowed : event -> bool) (e : exn) : emits allowed (@raise A e).
Proof. reflexivity. Qed.

Lemma emits_emit (allowed : event -> bool) (e : event) :
  allowed e = true -> emits allowed (emit e).
Proof. unfold emits. simpl. now intros ->. Qed.

Lemma emits_bind {A B : Type} (allowed : event -> bool) (m : M A) (k : A -> M B) :
  emits allowed m -> (forall a, emits allowed (k a)) -> emits allowed (bind m k).
Proof.
  unfold emits, bind. intros hm hk.
  destruct (snd m); cbn [fst]; auto. rewrite forallb_app, hm. apply hk.
Qed.

Lemma forallb_firstn {A : Type} (p : A -> bool) (n : nat) (l : list A) :
  forallb p l = true -> forallb p (firstn n l) = true.
Proof.
  revert n. induction l as [|a l IH]; intros [|n]; simpl; auto.
  intros h. apply andb_true_iff in h as [-> h]. now apply IH.
Qed.

Lemma forallb_weaken {A : Type} (p q : A -> bool) (l : list A) :
  (forall a, p a = true -> q a = true) -> forallb p l = true -> forallb q l = true.
Proof.
  intros pq. induction l as [|a l IH]; simpl; auto.
  intros h. apply andb_true_iff in h as [ha h]. now rewrite (pq a ha), IH.
Qed.

Lemma existsb_firstn {A : Type} (p : A -> bool) (n : nat) (l : list A) :
  existsb p l = false -> existsb p (firstn n l) = false.
Proof.
  revert n. induction l as [|a l IH]; intros [|n]; simpl; auto.
  intros h. apply orb_false_iff in h as [-> h]. now apply IH.
Qed.

Lemma allowed_never {A : Type} (allowed bad : A -> bool) (l : list A) :
  (forall a, allowed a = true -> bad a = false) ->
  forallb allowed l = true -> existsb bad l = false.
Proof.
  intros ab. induction l as [|a l IH]; simpl; auto.
  intros h. apply andb_true_iff in h as [ha h]. now rewrite (ab a ha), IH.
Qed.

Lemma inert_replay tr :
  forall p, forallb is_inert tr = true -> replay tr p = p.
Proof.
  induction tr as [|e tr IH]; intros p q; [reflexivity|].
  cbn [forallb] in q. apply andb_true_iff in q as [qe qtr].
  rewrite replay_cons.
  replace (step e p) with p by (destruct e; try discriminate; reflexivity).
  now apply IH.
Qed.

Lemma quiet_replay tr :
  forall p, forallb is_quiet tr = true -> replay tr p = p.
Proof.
  intros p q. apply inert_replay. revert q. apply forallb_weaken. now intros [].
Qed.

Lemma quiet_no_commit tr :
  forallb is_quiet tr = true -> ~ In (Fsync StatusFile) tr.
Proof.
  intros q mem. rewrite forallb_forall in q. now apply q in mem.
Qed.

Section Loop.

Context {ext : Externals}.

Lemma write_metadata_calls cfg record target :
  metadata_output cfg = Some target ->
  write_metadata cfg record
  = ([WriteRow (metadata_row record); Flush MetadataFile; Fsync MetadataFile], Ret tt).
Proof. unfold write_metadata. now intros ->. Qed.

Lemma write_record_calls cfg record :
  write_record cfg record
  = match record_output cfg with
    | None => ([], Ret tt)
    | Some _ =>
        match record_text cfg record with
        | Val t => ([Write RecordFile t; Write RecordFile newline;
                     Flush RecordFile; Fsync RecordFile], Ret tt)
        | Exc e => ([], Raise e)
        end
    end.
Proof.
  unfold write_record. destruct (record_output cfg); [|reflexivity].
  cbn [is_some when]. now destruct (record_text cfg record).
Qed.

Lemma save_checkpoint_emits allowed rt :
  allowed Truncate0 = true -> allowed Seek0 = true ->
  (forall s, allowed (Write StatusFile s) = true) ->
  allowed (Flush StatusFile) = true -> allowed (Fsync StatusFile) = true ->
  emits allowed (save_checkpoint rt).
Proof.
  intros h1 h2 h3 h4 h5. unfold save_checkpoint, sf_write, sf_write_if_present, emits.
  destruct rt as [[[t0|] [c0|] [n0|] [e0|]]|]; cbn;
    rewrite ?h1, ?h2, ?h3, ?h4, ?h5; reflexivity.
Qed.

Lemma process_record_emits cfg rt record :
  emits in_harvest (process_record cfg rt record).
Proof.
  unfold process_record. apply emits_bind; [|intros _; apply emits_bind; [|intros _]].
  - unfold write_metadata, when. now destruct (is_some (metadata_output cfg)).
  - rewrite write_record_calls.
    destruct (record_output cfg); [destruct (record_text cfg record)|]; reflexivity.
  - now apply save_checkpoint_emits.
Qed.

Lemma for_page_emits cfg rt items : emits in_harvest (for_page cfg rt items).
Proof.
  induction items as [|record rest IH]; [apply emits_ret|].
  cbn [for_page]. apply emits_bind; [apply process_record_emits|auto].
Qed.

Lemma next_response_emits sickle q : emits in_harvest (next_response sickle q).
Proof.
  unfold next_response. apply emits_bind; [now apply emits_emit|intros _].
  destruct (list_records sickle q); [apply emits_ret|apply emits_raise].
Qed.

Lemma for_records_emits fuel cfg sickle :
  forall rt items, emits in_harvest (for_records fuel cfg sickle rt items).
Proof.
  induction fuel as [|f IH]; intros r items; cbn [for_records];
    (apply emits_bind; [apply for_page_emits|intros _]);
    destruct (continuation r); try apply emits_ret; [reflexivity|].
  apply emits_bind; [apply next_response_emits|intros pg; apply IH].
Qed.

Lemma harvest_emits fuel cfg sickle prefix rt :
  emits in_harvest (harvest fuel cfg sickle prefix rt).
Proof.
  unfold harvest. apply emits_bind; [apply next_response_emits|intros pg].
  apply emits_bind; [|intros pg'].
  - unfold reposition. destruct rt as [stored|]; [|apply emits_ret].
    apply emits_bind; [|intros _; apply next_response_emits].
    destruct (snd pg); [|apply emits_raise].
    unfold when. destruct (negb _); [now apply emits_emit|apply emits_ret].
  - unfold stream. apply emits_bind; [|intros _; apply for_records_emits].
    unfold tqdm_arguments, py_int.
    destruct (snd pg') as [t|]; [|apply emits_raise].
    destruct (cursor t) as [c|]; [destruct (int_accepts c)|];
      destruct (complete_list_size t) as [n|]; try destruct (int_accepts n); reflexivity.
Qed.

Lemma in_harvest_keeps_sinks tr :
  forallb in_harvest tr = true -> existsb opens_sink tr = false.
Proof. apply allowed_never. now intros [| | | |[]|[]| | | | | | |]. Qed.

(** The calls of the loop when no record output is configured. *)
Lemma for_records_off_records fuel cfg sickle :
  record_output cfg = None ->
  forall rt items, emits (fun e => negb (on_records e)) (for_records fuel cfg sickle rt items).
Proof.
  intros none.
  assert (one : forall rt record,
             emits (fun e => negb (on_records e)) (process_record cfg rt record)).
  { intros rt record. unfold process_record.
    apply emits_bind; [|intros _; apply emits_bind; [|intros _]].
    - unfold write_metadata, when. now destruct (is_some (metadata_output cfg)).
    - rewrite write_record_calls, none. reflexivity.
    - now apply save_checkpoint_emits. }
  assert (page : forall rt items,
             emits (fun e => negb (on_records e)) (for_page cfg rt items)).
  { intros rt items. induction items as [|record rest IH]; [apply emits_ret|].
    cbn [for_page]. apply emits_bind; auto. }
  induction fuel as [|f IH]; intros r items; cbn [for_records];
    (apply emits_bind; [apply page|intros _]);
    destruct (continuation r); try apply emits_ret; [reflexivity|].
  apply emits_bind; [|intros pg; apply IH].
  unfold next_response. apply emits_bind; [now apply emits_emit|intros _].
  destruct (list_records sickle _); [apply emits_ret|apply emits_raise].
Qed.

Lemma off_records_trace tr :
  forallb (fun e => negb (on_records e)) tr = true -> existsb on_records tr = false.
Proof. apply allowed_never. intros a h. now apply negb_true_iff. Qed.

(** What one record hands to the sinks, however its processing ends. *)
Lemma rows_of_record cfg rt record target :
  metadata_output cfg = Some target ->
  rows_written (fst (process_record cfg rt record)) = [metadata_row record].
Proof.
  intros hm. unfold process_record.
  rewrite (bind_returns _ _ tt) by now rewrite (write_metadata_calls cfg record target hm).
  rewrite (write_metadata_calls cfg record target hm). cbn [fst].
  rewrite rows_written_app. cbn [rows_written flat_map rows_of app].
  rewrite rows_written_off; [reflexivity|].
  apply (allowed_never (fun e => negb (on_metadata e))).
  { intros a h. now apply negb_true_iff. }
  apply emits_bind; [|intros _; now apply save_checkpoint_emits].
  rewrite write_record_calls.
  destruct (record_output cfg); [destruct (record_text cfg record)|]; reflexivity.
Qed.

Lemma text_of_record cfg rt record :
  text_written (fst (process_record cfg rt record))
  = if is_some (record_output cfg) then record_lines cfg [record] else "".
Proof.
  unfold process_record.
  assert (wm : exists l, write_metadata cfg record = (l, Ret tt) /\ existsb on_records l = false).
  { unfold write_metadata, when. destruct (is_some (metadata_output cfg)); eexists; split; reflexivity. }
  destruct wm as (l & -> & off).
  rewrite (bind_returns (l, Ret tt) _ tt eq_refl). cbn [fst].
  rewrite text_written_app, (text_written_off l off). cbn [append].
  assert (sc : text_written (fst (save_checkpoint rt)) = "").
  { apply text_written_off, off_records_trace.
    now apply (save_checkpoint_emits (fun e => negb (on_records e))). }
  rewrite write_record_calls. cbn [record_lines].
  destruct (record_output cfg); cbn [is_some].
  - destruct (record_text cfg record) as [t|e].
    + rewrite (bind_returns (_, Ret tt) _ tt eq_refl). cbn [fst].
      rewrite text_written_app, sc. cbn. now rewrite !append_nil_r.
    + reflexivity.
  - unfold bind. cbn [fst snd app]. exact sc.
Qed.

Lemma process_record_returns cfg rt record :
  snd (process_record cfg rt record) = Ret tt ->
  fst (process_record cfg rt record)
  = fst (write_metadata cfg record) ++ fst (write_record cfg record)
    ++ fst (save_checkpoint rt)
  /\ snd (write_record cfg record) = Ret tt
  /\ snd (save_checkpoint rt) = Ret tt.
Proof.
  unfold process_record, bind.
  destruct (snd (write_metadata cfg record)) as [[]| |]; cbn [fst snd]; try discriminate.
  destruct (snd (write_record cfg record)) as [[]| |]; cbn [fst snd]; try discriminate.
  intros ok. split; [reflexivity|]. split; [reflexivity|].
  now destruct (snd (save_checkpoint rt)) as [[]| |].
Qed.

Lemma rows_of_page cfg rt items target :
  metadata_output cfg = Some target ->
  snd (for_page cfg rt items) = Ret tt ->
  rows_written (fst (for_page cfg rt items)) = map metadata_row items.
Proof.
  intros hm. induction items as [|record rest IH]; [reflexivity|].
  cbn [for_page]. unfold bind.
  destruct (snd (process_record cfg rt record)) as [[]| |] eqn:one; try discriminate.
  cbn [fst snd]. intros ok. rewrite rows_written_app, (IH ok).
  now rewrite (rows_of_record cfg rt record target hm).
Qed.

Lemma record_lines_app cfg a b :
  record_lines cfg (a ++ b) = (record_lines cfg a ++ record_lines cfg b)%string.
Proof.
  induction a as [|r a IH]; [reflexivity|].
  cbn [app record_lines]. now rewrite IH, append_assoc.
Qed.

Lemma text_of_page cfg rt items :
  snd (for_page cfg rt items) = Ret tt ->
  text_written (fst (for_page cfg rt items))
  = if is_some (record_output cfg) then record_lines cfg items else "".
Proof.
  induction items as [|record rest IH].
  - now destruct (is_some (record_output cfg)).
  - cbn [for_page]. unfold bind.
    destruct (snd (process_record cfg rt record)) as [[]| |] eqn:one; try discriminate.
    cbn [fst snd]. intros ok. rewrite text_written_app, (IH ok), text_of_record.
    destruct (is_some (record_output cfg)); [|reflexivity].
    change (record :: rest) with ([record] ++ rest). now rewrite record_lines_app.
Qed.

End Loop.

(** * Records, pages and the loop *)

Lemma flush_plain_metadata p :
  metadata_packed p = false -> metadata_buffer (step (Flush MetadataFile) p) = [].
Proof.
  intros plain. cbn [step flush_handle]. rewrite plain.
  now destruct (flush_metadata_others p) as (_ & _ & _ & _ & _ & ->).
Qed.

Lemma flush_plain_records p :
  record_packed p = false -> record_buffer (step (Flush RecordFile) p) = "".
Proof.
  intros plain. cbn [step flush_handle]. rewrite plain.
  now destruct (flush_records_others p) as (_ & _ & _ & _ & _ & ->).
Qed.

Lemma held_flushed p :
  flushed p ->
  table_held p = metadata_on_disk (files p) /\ stream_held p = records_on_disk (files p).
Proof.
  intros (mb & rb). unfold table_held, stream_held. rewrite mb, rb. split.
  - destruct (metadata_on_disk (files p)); cbn; [now rewrite app_nil_r|reflexivity].
  - destruct (records_on_disk (files p)); cbn; [now rewrite append_nil_r|reflexivity].
Qed.

Lemma app_pattern {A : Type} (l1 l2 t0 t2 : list A) (a b : A) :
  l1 ++ l2 = t0 ++ a :: b :: t2 ->
  (exists x, l1 = t0 ++ a :: b :: x /\ t2 = x ++ l2)
  \/ (l1 = t0 ++ [a] /\ l2 = b :: t2)
  \/ (exists y, t0 = l1 ++ y /\ l2 = y ++ a :: b :: t2).
Proof.
  intros eq. apply app_eq_app in eq as (l & [[h1 h2]|[h1 h2]]).
  - destruct l as [|x [|y l]].
    + right. right. exists []. rewrite app_nil_r in h1. cbn in h2. subst.
      now rewrite app_nil_r.
    + right. left. cbn in h2. injection h2 as ? ?. subst. auto.
    + left. cbn in h2. injection h2 as ? ? ?. subst. eauto.
  - right. right. eauto.
Qed.

Lemma no_request_no_pattern (l t0 t2 : list event) (a : event) (q : request) :
  existsb is_request l = false -> l <> t0 ++ a :: Request q :: t2.
Proof.
  intros none ->. rewrite existsb_app in none. cbn in none.
  now rewrite !orb_true_r in none.
Qed.

Lemma locate {A : Type} (pre s post t0 t2 : list A) (a b : A) :
  pre ++ s ++ post = t0 ++ a :: b :: t2 ->
  ~ In a pre -> ~ In b post ->
  exists x y, t0 = pre ++ x /\ t2 = y ++ post /\ s = x ++ a :: b :: y.
Proof.
  intros eq na nb.
  apply app_pattern in eq as [(x & inside & _)|[(here & _)|(y & before & later)]].
  - exfalso. apply na. rewrite inside. apply in_elt.
  - exfalso. apply na. rewrite here. apply in_elt.
  - apply app_pattern in later as [(x & inside & rest)|[(_ & next)|(z & _ & inside)]].
    + eauto.
    + exfalso. apply nb. rewrite next. now left.
    + exfalso. apply nb. rewrite inside. apply in_app_iff. right. right. now left.
Qed.

Lemma firstn_through {A : Type} (t0 rest : list A) (a : A) :
  firstn (S (length t0)) (t0 ++ a :: rest) = t0 ++ [a].
Proof. induction t0 as [|x t0 IH]; cbn; [reflexivity|]. now rewrite <- IH. Qed.

Lemma firstn_prefix {A : Type} (a b : list A) : firstn (length a) (a ++ b) = a.
Proof. induction a as [|x a IH]; cbn; [now destruct b|]. now rewrite IH. Qed.

Section Pages.

Context {ext : Externals}.

Lemma process_record_keeps_sinks cfg rt record :
  existsb opens_sink (fst (process_record cfg rt record)) = false.
Proof. apply in_harvest_keeps_sinks, process_record_emits. Qed.

Lemma for_page_keeps_sinks cfg rt items :
  existsb opens_sink (fst (for_page cfg rt items)) = false.
Proof. apply in_harvest_keeps_sinks, for_page_emits. Qed.

Lemma save_checkpoint_off_sinks rt :
  existsb on_metadata (fst (save_checkpoint rt)) = false
  /\ existsb on_records (fst (save_checkpoint rt)) = false.
Proof.
  split.
  - apply (allowed_never (fun e => negb (on_metadata e)));
      [intros a h; now apply negb_true_iff|].
    now apply save_checkpoint_emits.
  - apply off_records_trace. now apply save_checkpoint_emits.
Qed.

Lemma write_record_off_metadata cfg record :
  existsb on_metadata (fst (write_record cfg record)) = false.
Proof.
  rewrite write_record_calls.
  destruct (record_output cfg); [destruct (record_text cfg record)|]; reflexivity.
Qed.

(** The sink writes of one record on sinks that are not compressed: what
    they hand over is in the files when they are done. *)
Lemma replay_sink_writes cfg record target p :
  metadata_output cfg = Some target ->
  ready cfg p ->
  ready cfg (replay (fst (write_metadata cfg record) ++ fst (write_record cfg record)) p).
Proof.
  intros hm ((mb & rb) & (fm & fr) & opn).
  assert (keep : existsb opens_sink
                   (fst (write_metadata cfg record) ++ fst (write_record cfg record)) = false).
  { rewrite (write_metadata_calls cfg record target hm), write_record_calls.
    destruct (record_output cfg); [destruct (record_text cfg record)|]; reflexivity. }
  split; [|split].
  - rewrite replay_app. split.
    + destruct (replay_off_metadata _ (replay (fst (write_metadata cfg record)) p)
                  (write_record_off_metadata cfg record)) as (_ & -> & _).
      rewrite (write_metadata_calls cfg record target hm). cbn [fst].
      change (replay [?a; ?b; ?c] p) with (step c (step b (step a p))).
      cbn [step]. apply flush_plain_metadata. exact fm.
    + set (q := replay (fst (write_metadata cfg record)) p).
      assert (hq : record_buffer q = "" /\ record_packed q = false).
      { subst q. rewrite (write_metadata_calls cfg record target hm). cbn [fst].
        destruct (replay_off_records
                    [WriteRow (metadata_row record); Flush MetadataFile; Fsync MetadataFile]
                    p eq_refl) as (_ & -> & ->). auto. }
      clearbody q. destruct hq as (rbq & frq).
      rewrite write_record_calls.
      destruct (record_output cfg); [|exact rbq].
      destruct (record_text cfg record) as [t|e]; [|exact rbq]. cbn [fst].
      change (replay [?a; ?b; ?c; ?d] q) with (step d (step c (step b (step a q)))).
      cbn [step]. apply flush_plain_records.
      destruct (write_records_others newline (write_records t q)) as (_ & _ & _ & _ & ->).
      now destruct (write_records_others t q) as (_ & _ & _ & _ & ->).
  - unfold unpacked. destruct (replay_flags _ p keep) as (-> & ->). now split.
  - now apply replay_opened.
Qed.

Lemma save_checkpoint_view rt p :
  sink_view (replay (fst (save_checkpoint rt)) p) = sink_view p.
Proof.
  destruct (save_checkpoint_off_sinks rt) as (om & or).
  destruct (replay_off_metadata _ p om) as (m & mb & fm).
  destruct (replay_off_records _ p or) as (r & rb & fr).
  unfold sink_view. now rewrite m, mb, fm, r, rb, fr.
Qed.

Lemma ready_by_view cfg p p' : sink_view p = sink_view p' -> ready cfg p -> ready cfg p'.
Proof.
  intros same. apply sink_view_parts in same as (hm & hr & hmb & hrb & hfm & hfr).
  unfold ready, flushed, unpacked, opened. now rewrite hm, hmb, hr, hrb, hfm, hfr.
Qed.

Lemma replay_record_ready cfg rt record target p :
  metadata_output cfg = Some target ->
  snd (process_record cfg rt record) = Ret tt -> ready cfg p ->
  ready cfg (replay (fst (process_record cfg rt record)) p).
Proof.
  intros hm ok rdy. destruct (process_record_returns cfg rt record ok) as (-> & wrote & _).
  rewrite app_assoc, replay_app.
  eapply ready_by_view; [symmetry; apply save_checkpoint_view|].
  now apply (replay_sink_writes cfg record target).
Qed.

Lemma replay_page_ready cfg rt items target :
  metadata_output cfg = Some target ->
  forall p, snd (for_page cfg rt items) = Ret tt -> ready cfg p ->
  ready cfg (replay (fst (for_page cfg rt items)) p).
Proof.
  intros hm. induction items as [|record rest IH]; intros p ok rdy; [exact rdy|].
  cbn [for_page] in *. unfold bind in *.
  destruct (snd (process_record cfg rt record)) as [[]| |] eqn:one; try discriminate.
  cbn [fst snd] in *. rewrite replay_app. apply IH; [exact ok|].
  now apply (replay_record_ready cfg rt record target).
Qed.

(** The status file after the checkpoint of a record. *)
Lemma replay_record_status cfg r t record p :
  snd (process_record cfg (Some r) record) = Ret tt -> token r = Some t ->
  status_on_disk (files (replay (fst (process_record cfg (Some r) record)) p))
  = Some (checkpoint_line r)
  /\ sf_buffer (replay (fst (process_record cfg (Some r) record)) p) = "".
Proof.
  intros ok tk. destruct (process_record_returns cfg (Some r) record ok) as (-> & _ & _).
  rewrite !replay_app.
  destruct (replay_save_checkpoint r t
              (replay (fst (write_record cfg record))
                 (replay (fst (write_metadata cfg record)) p)) tk) as (_ & ->).
  auto.
Qed.

Lemma replay_page_status cfg r t items :
  forall p, snd (for_page cfg (Some r) items) = Ret tt -> items <> [] ->
  token r = Some t ->
  status_on_disk (files (replay (fst (for_page cfg (Some r) items)) p))
  = Some (checkpoint_line r)
  /\ sf_buffer (replay (fst (for_page cfg (Some r) items)) p) = "".
Proof.
  induction items as [|record rest IH]; intros p ok ne tk; [contradiction|].
  cbn [for_page] in *. unfold bind in *.
  destruct (snd (process_record cfg (Some r) record)) as [[]| |] eqn:one; try discriminate.
  cbn [fst snd] in *. rewrite replay_app.
  destruct rest as [|record' rest'].
  - cbn [for_page ret fst replay fold_left].
    now apply (replay_record_status cfg r t).
  - apply IH; auto. discriminate.
Qed.

Lemma for_page_app cfg rt a b :
  snd (for_page cfg rt a) = Ret tt ->
  for_page cfg rt (a ++ b)
  = (fst (for_page cfg rt a) ++ fst (for_page cfg rt b), snd (for_page cfg rt b)).
Proof.
  induction a as [|record rest IH]; intros ok.
  - cbn. now destruct (for_page cfg rt b).
  - cbn [app for_page] in *. unfold bind in *.
    destruct (snd (process_record cfg rt record)) as [[]| |] eqn:one; try discriminate.
    cbn [fst snd] in *. rewrite (IH ok). cbn [fst snd]. now rewrite app_assoc.
Qed.

Lemma for_page_app_returns cfg rt a b :
  snd (for_page cfg rt (a ++ b)) = Ret tt ->
  snd (for_page cfg rt a) = Ret tt /\ snd (for_page cfg rt b) = Ret tt.
Proof.
  induction a as [|record rest IH]; intros ok.
  - auto.
  - cbn [app for_page] in *. unfold bind in *.
    destruct (snd (process_record cfg rt record)) as [[]| |] eqn:one; try discriminate.
    cbn [fst snd] in *. auto.
Qed.

Lemma process_record_no_request cfg rt record :
  existsb is_request (fst (process_record cfg rt record)) = false.
Proof.
  unfold process_record, write_metadata, write_record, save_checkpoint.
  destruct (metadata_output cfg), (record_output cfg); cbn [is_some when];
    try destruct (record_text cfg record);
    destruct rt as [[[t0|] [c0|] [n0|] [e0|]]|]; reflexivity.
Qed.

Lemma for_page_no_request cfg rt items :
  existsb is_request (fst (for_page cfg rt items)) = false.
Proof.
  induction items as [|record rest IH]; [reflexivity|].
  cbn [for_page]. unfold bind.
  pose proof (process_record_no_request cfg rt record) as q.
  destruct (snd (process_record cfg rt record)); cbn [fst]; try exact q.
  now rewrite existsb_app, q, IH.
Qed.

Lemma continuation_token rt tok :
  continuation rt = Some tok -> exists r, rt = Some r /\ token r = Some tok.
Proof.
  unfold continuation. destruct rt as [r|]; [|discriminate].
  destruct (token r) as [[|c s]|] eqn:t; try discriminate.
  intros h. injection h as <-. eauto.
Qed.

Lemma bind_next_response {B : Type} sickle q (k : list OAIRecord * option ResumptionToken -> M B) :
  bind (next_response sickle q) k
  = (Request q
       :: fst (match list_records sickle q with
               | Page items rt => k (items, rt)
               | Failure e => raise e
               end),
     snd (match list_records sickle q with
          | Page items rt => k (items, rt)
          | Failure e => raise e
          end)).
Proof.
  unfold next_response. rewrite bind_assoc, bind_emit.
  destruct (list_records sickle q); [now rewrite bind_ret_l|reflexivity].
Qed.

Lemma for_records_step fuel cfg sickle rt items tok :
  snd (for_page cfg rt items) = Ret tt ->
  continuation rt = Some tok ->
  for_records (S fuel) cfg sickle rt items
  = (fst (for_page cfg rt items)
       ++ Request (Resume (Some tok))
       :: fst (after_request fuel cfg sickle (list_records sickle (Resume (Some tok)))),
     snd (after_request fuel cfg sickle (list_records sickle (Resume (Some tok))))).
Proof.
  intros pg cont. cbn [for_records]. rewrite (bind_returns _ _ tt pg), cont.
  rewrite bind_next_response. unfold after_request.
  destruct (list_records sickle (Resume (Some tok))); reflexivity.
Qed.

Lemma for_records_last fuel cfg sickle rt items :
  continuation rt = None ->
  for_records fuel cfg sickle rt items = for_page cfg rt items.
Proof.
  intros stop. destruct fuel; cbn [for_records]; rewrite stop;
    destruct (for_page cfg rt items) as [tr [[]| |]]; unfold bind; cbn;
    rewrite ?app_nil_r; reflexivity.
Qed.

Lemma for_records_stops fuel cfg sickle rt items :
  snd (for_page cfg rt items) <> Ret tt \/ continuation rt = None \/ fuel = 0 ->
  existsb is_request (fst (for_records fuel cfg sickle rt items)) = false.
Proof.
  pose proof (for_page_no_request cfg rt items) as none.
  intros stop. destruct fuel; cbn [for_records]; unfold bind;
    destruct (snd (for_page cfg rt items)) as [[]| |]; cbn [fst]; try exact none;
    destruct (continuation rt); cbn [fst ret]; rewrite ?app_nil_r; try exact none;
    destruct stop as [?|[?|?]]; congruence.
Qed.

Lemma for_records_returns fuel cfg sickle rt items :
  snd (for_records fuel cfg sickle rt items) = Ret tt ->
  snd (for_page cfg rt items) = Ret tt.
Proof.
  destruct fuel; cbn [for_records]; unfold bind;
    now destruct (snd (for_page cfg rt items)) as [[]| |].
Qed.

(** What a loop that runs to its end hands to the sinks. *)
Lemma rows_of_listing fuel cfg sickle target :
  metadata_output cfg = Some target ->
  forall rt items,
  snd (for_records fuel cfg sickle rt items) = Ret tt ->
  rows_written (fst (for_records fuel cfg sickle rt items))
  = map metadata_row (listing fuel sickle rt items).
Proof.
  intros hm. induction fuel as [|fuel IH]; intros rt items ok;
    pose proof (for_records_returns _ _ _ _ _ ok) as pg.
  - cbn [for_records listing] in *. rewrite (bind_returns _ _ tt pg) in *.
    destruct (continuation rt); [discriminate|]. cbn [fst ret].
    rewrite !app_nil_r. now apply (rows_of_page cfg rt items target).
  - destruct (continuation rt) as [tok|] eqn:cont.
    + rewrite (for_records_step fuel cfg sickle rt items tok pg cont) in *.
      cbn [fst snd listing] in *. rewrite cont.
      destruct (list_records sickle (Resume (Some tok))) as [items' rt'|e];
        cbn [after_request] in *; [|discriminate].
      rewrite rows_written_app, map_app, (rows_of_page cfg rt items target hm pg).
      change (rows_written (Request ?q :: ?l)) with (rows_written l).
      now rewrite (IH rt' items' ok).
    + rewrite (for_records_last _ _ _ _ _ cont) in *. cbn [listing]. rewrite cont, app_nil_r.
      now apply (rows_of_page cfg rt items target).
Qed.

Lemma text_of_listing fuel cfg sickle :
  forall rt items,
  snd (for_records fuel cfg sickle rt items) = Ret tt ->
  text_written (fst (for_records fuel cfg sickle rt items))
  = if is_some (record_output cfg) then record_lines cfg (listing fuel sickle rt items) else "".
Proof.
  induction fuel as [|fuel IH]; intros rt items ok;
    pose proof (for_records_returns _ _ _ _ _ ok) as pg.
  - cbn [for_records listing] in *. rewrite (bind_returns _ _ tt pg) in *.
    destruct (continuation rt); [discriminate|]. cbn [fst ret].
    rewrite !app_nil_r. now apply text_of_page.
  - destruct (continuation rt) as [tok|] eqn:cont.
    + rewrite (for_records_step fuel cfg sickle rt items tok pg cont) in *.
      cbn [fst snd listing] in *. rewrite cont.
      destruct (list_records sickle (Resume (Some tok))) as [items' rt'|e];
        cbn [after_request] in *; [|discriminate].
      rewrite text_written_app, (text_of_page cfg rt items pg).
      change (text_written (Request ?q :: ?l)) with (text_written l).
      rewrite (IH rt' items' ok).
      destruct (is_some (record_output cfg)); [|reflexivity].
      now rewrite record_lines_app.
    + rewrite (for_records_last _ _ _ _ _ cont) in *. cbn [listing]. rewrite cont, app_nil_r.
      now apply text_of_page.
Qed.

(** The state at the checkpoint that the request for the next page
    follows, for any property of the process that complete pages keep. *)
Lemma for_records_commit cfg sickle (keeps : Process -> Prop) :
  (forall rt items q, snd (for_page cfg rt items) = Ret tt -> keeps q ->
                      keeps (replay (fst (for_page cfg rt items)) q)) ->
  forall fuel rt items t0 tok t2 p,
  keeps p ->
  fst (for_records fuel cfg sickle rt items)
  = t0 ++ Fsync StatusFile :: Request (Resume (Some tok)) :: t2 ->
  exists r fuel',
    token r = Some tok
    /\ (rt = Some r \/ exists q its, list_records sickle q = Page its (Some r))
    /\ keeps (replay (t0 ++ [Fsync StatusFile]) p)
    /\ status_on_disk (files (replay (t0 ++ [Fsync StatusFile]) p)) = Some (checkpoint_line r)
    /\ sf_buffer (replay (t0 ++ [Fsync StatusFile]) p) = ""
    /\ t2 = fst (after_request fuel' cfg sickle (list_records sickle (Resume (Some tok))))
    /\ snd (for_records fuel cfg sickle rt items)
       = snd (after_request fuel' cfg sickle (list_records sickle (Resume (Some tok)))).
Proof.
  intros kept.
  induction fuel as [|fuel IH]; intros rt items t0 tok t2 p here shape.
  - exfalso. eapply no_request_no_pattern; [|exact shape].
    apply for_records_stops. auto.
  - destruct (snd (for_page cfg rt items)) as [[]| |] eqn:pg.
    2, 3: exfalso; eapply no_request_no_pattern; [|exact shape];
          apply for_records_stops; left; congruence.
    destruct (continuation rt) as [tok1|] eqn:cont.
    2: { exfalso. eapply no_request_no_pattern; [|exact shape].
         apply for_records_stops. auto. }
    rewrite (for_records_step fuel cfg sickle rt items tok1 pg cont) in *.
    cbn [fst snd] in *.
    destruct (continuation_token rt tok1 cont) as (r & -> & tk).
    pose proof (kept (Some r) items p pg here) as here1.
    apply app_pattern in shape as [(x & inside & _)|[(same & next)|(y & before & later)]].
    + exfalso. eapply no_request_no_pattern; [|exact inside]. apply for_page_no_request.
    + injection next as etok et2. subst tok1.
      assert (ne : items <> []) by (intros ->; cbn in same; now destruct t0).
      destruct (replay_page_status cfg r tok items p pg ne tk) as (st & buf).
      exists r, fuel. rewrite <- same.
      split; [exact tk|]. split; [now left|]. split; [exact here1|].
      split; [exact st|]. split; [exact buf|]. split; [now symmetry | reflexivity].
    + destruct y as [|e y]; [discriminate|]. cbn [app] in later. injection later as <- later.
      destruct (list_records sickle (Resume (Some tok1))) as [items' rt'|e] eqn:resp;
        cbn [after_request] in *.
      2: { now destruct y. }
      destruct (IH rt' items' y tok t2 (replay (fst (for_page cfg (Some r) items)
                                                ++ [Request (Resume (Some tok1))]) p))
        as (r' & fuel' & tk' & origin & ok); auto.
      * rewrite replay_app. exact here1.
      * exists r', fuel'. subst t0.
        replace ((fst (for_page cfg (Some r) items) ++ Request (Resume (Some tok1)) :: y)
                 ++ [Fsync StatusFile])
          with ((fst (for_page cfg (Some r) items) ++ [Request (Resume (Some tok1))])
                ++ y ++ [Fsync StatusFile])
          by (now rewrite <- !app_assoc).
        rewrite replay_app. split; [exact tk'|]. split; [|exact ok].
        right. destruct origin as [->|found]; eauto.
Qed.

End Pages.

(** * The body of the [try] *)

Section Harvest.

Context {ext : Externals}.

Lemma tqdm_arguments_cases rt :
  (tqdm_arguments rt = ret tt /\ counts_present (Page [] rt) = true)
  \/ (exists e, tqdm_arguments rt = raise e).
Proof.
  unfold tqdm_arguments, py_int, counts_present, int_ok.
  destruct rt as [t|]; [|right; eauto].
  destruct (cursor t) as [c|]; [destruct (int_accepts c)|];
    destruct (complete_list_size t) as [n|]; try destruct (int_accepts n);
    (left; split; reflexivity) || (right; eexists; reflexivity).
Qed.

Lemma tqdm_arguments_accepts items rt :
  counts_present (Page items rt) = true -> tqdm_arguments rt = ret tt.
Proof.
  unfold tqdm_arguments, py_int, counts_present, int_ok.
  destruct rt as [t|]; [|discriminate].
  destruct (cursor t) as [c|]; [destruct (int_accepts c)|]; try discriminate.
  destruct (complete_list_size t) as [n|]; [destruct (int_accepts n)|]; try discriminate.
  reflexivity.
Qed.

Lemma tqdm_arguments_rejects items rt :
  counts_present (Page items rt) = false ->
  exists e,
    tqdm_arguments rt = raise e
    /\ (e = AttributeError \/ e = TypeError \/ e = ValueError)
    /\ (rt = None -> e = AttributeError).
Proof.
  unfold tqdm_arguments, py_int, counts_present, int_ok.
  destruct rt as [t|]; [|intros _; exists AttributeError; auto].
  destruct (cursor t) as [c|]; [destruct (int_accepts c)|];
    destruct (complete_list_size t) as [n|]; try destruct (int_accepts n);
    try discriminate; intros _;
    (exists TypeError; repeat split; auto; discriminate)
    || (exists ValueError; repeat split; auto; discriminate).
Qed.

Lemma counts_with_token items rt :
  counts_present (Page items rt) = true -> exists t, rt = Some t.
Proof. destruct rt; [eauto|discriminate]. Qed.

Lemma option_eqb_differs a b : a <> b -> option_eqb a b = false.
Proof.
  destruct a as [x|], b as [y|]; simpl; intros ne; try reflexivity; try congruence.
  destruct (String.eqb_spec x y); congruence.
Qed.

(** The warning of line 106, or nothing. *)
Lemma compare_totals stored fresh :
  exists l,
    when (negb (option_eqb (complete_list_size fresh) (complete_list_size stored)))
      (emit (Log (WarningTotalChanged (complete_list_size stored)
                                      (complete_list_size fresh))))
    = (l, Ret tt)
    /\ forallb is_quiet l = true
    /\ (complete_list_size fresh <> complete_list_size stored ->
        l = [Log (WarningTotalChanged (complete_list_size stored)
                                      (complete_list_size fresh))]).
Proof.
  unfold when. destruct (negb _) eqn:differ.
  - eexists. repeat split.
  - exists []. repeat split. intros ne. now rewrite option_eqb_differs in differ.
Qed.

(** A fresh run whose first response lets the loop start. *)
Lemma harvest_fresh fuel cfg sickle prefix items rt :
  list_records sickle (Initial prefix (set cfg)) = Page items rt ->
  harvest fuel cfg sickle prefix None
  = (Request (Initial prefix (set cfg))
       :: fst (tqdm_arguments rt ;; for_records fuel cfg sickle rt items),
     snd (tqdm_arguments rt ;; for_records fuel cfg sickle rt items)).
Proof.
  intros first. unfold harvest. rewrite bind_next_response, first. cbn [reposition].
  now rewrite bind_ret_l.
Qed.

(** A resumed run whose first response carries a token: the warning if
    the totals differ, then the request with the stored token. *)
Lemma harvest_stored fuel cfg sickle prefix stored items0 fresh :
  list_records sickle (Initial prefix (set cfg)) = Page items0 (Some fresh) ->
  exists l,
    forallb is_quiet l = true
    /\ (complete_list_size fresh <> complete_list_size stored ->
        l = [Log (WarningTotalChanged (complete_list_size stored)
                                      (complete_list_size fresh))])
    /\ harvest fuel cfg sickle prefix (Some stored)
       = (Request (Initial prefix (set cfg)) :: l ++ Request (Resume (token stored))
            :: fst (match list_records sickle (Resume (token stored)) with
                    | Page items rt => stream fuel cfg sickle (items, rt)
                    | Failure e => raise e
                    end),
          snd (match list_records sickle (Resume (token stored)) with
               | Page items rt => stream fuel cfg sickle (items, rt)
               | Failure e => raise e
               end)).
Proof.
  intros first. unfold harvest. rewrite bind_next_response, first.
  unfold reposition. cbn [snd]. rewrite bind_assoc.
  destruct (compare_totals stored fresh) as (l & -> & ql & warn).
  exists l. split; [exact ql|]. split; [exact warn|].
  rewrite (bind_returns (l, Ret tt) _ tt eq_refl). cbn [fst snd].
  rewrite bind_next_response. cbn [fst snd]. reflexivity.
Qed.

(** The body of the [try] either never commits a record or reaches the
    loop over the records with a page that the server returned. *)
Lemma harvest_cases fuel cfg sickle prefix rt0 :
  ~ In (Fsync StatusFile) (fst (harvest fuel cfg sickle prefix rt0))
  \/ exists pre rt items items0 fresh q,
       harvest fuel cfg sickle prefix rt0
       = (pre ++ fst (for_records fuel cfg sickle rt items),
          snd (for_records fuel cfg sickle rt items))
       /\ forallb is_quiet pre = true
       /\ list_records sickle (Initial prefix (set cfg)) = Page items0 (Some fresh)
       /\ list_records sickle q = Page items rt.
Proof.
  destruct (list_records sickle (Initial prefix (set cfg))) as [items0 rt1|e] eqn:first.
  2: { left. unfold harvest. rewrite bind_next_response, first. cbn. intuition discriminate. }
  destruct rt0 as [stored|].
  - destruct rt1 as [fresh|].
    2: { left. unfold harvest. rewrite bind_next_response, first. cbn. intuition discriminate. }
    destruct (harvest_stored fuel cfg sickle prefix stored items0 fresh first)
      as (l & ql & _ & ->).
    destruct (list_records sickle (Resume (token stored))) as [items1 rt2|e] eqn:second.
    2: { left. cbn. rewrite in_app_iff. intros [m|[m|[m|[]]]]; try discriminate.
         now apply quiet_no_commit in m. }
    unfold stream. cbn [fst snd].
    destruct (tqdm_arguments_cases rt2) as [[-> _]|(e & ->)].
    + right. rewrite bind_ret_l.
      exists (Request (Initial prefix (set cfg)) :: l ++ [Request (Resume (token stored))]),
        rt2, items1, items0, fresh, (Resume (token stored)).
      split; [cbn [app]; now rewrite <- app_assoc|].
      split; [cbn; now rewrite forallb_app, ql|]. auto.
    + left. cbn. rewrite in_app_iff. intros [m|[m|[m|[]]]]; try discriminate.
      now apply quiet_no_commit in m.
  - rewrite (harvest_fresh fuel cfg sickle prefix items0 rt1 first).
    destruct (tqdm_arguments_cases rt1) as [[-> cnt]|(e & ->)].
    + right. rewrite bind_ret_l. destruct (counts_with_token _ _ cnt) as (t & ->).
      exists [Request (Initial prefix (set cfg))], (Some t), items0, items0, t,
        (Initial prefix (set cfg)).
      repeat split; auto.
    + left. cbn. intuition discriminate.
Qed.

(** The body of the [try] when a token read from the status file is
    resumed and the page of that token lets the loop start. *)
Lemma harvest_resumed fuel cfg sickle prefix stored tok items0 fresh :
  list_records sickle (Initial prefix (set cfg)) = Page items0 (Some fresh) ->
  token stored = Some tok ->
  counts_present (list_records sickle (Resume (Some tok))) = true ->
  exists w,
    forallb is_quiet w = true
    /\ harvest fuel cfg sickle prefix (Some stored)
       = (w ++ fst (after_request fuel cfg sickle (list_records sickle (Resume (Some tok)))),
          snd (after_request fuel cfg sickle (list_records sickle (Resume (Some tok))))).
Proof.
  intros first tk counts.
  destruct (harvest_stored fuel cfg sickle prefix stored items0 fresh first)
    as (l & ql & _ & ->). rewrite tk.
  exists (Request (Initial prefix (set cfg)) :: l ++ [Request (Resume (Some tok))]).
  split; [cbn; now rewrite forallb_app, ql|].
  destruct (list_records sickle (Resume (Some tok))) as [items1 rt2|e];
    cbn [after_request fst snd raise].
  - unfold stream. cbn [fst snd]. rewrite (tqdm_arguments_accepts items1 rt2 counts).
    rewrite bind_ret_l. cbn [app]. now rewrite <- app_assoc.
  - cbn [app]. now rewrite <- app_assoc.
Qed.

Lemma harvest_returns fuel cfg sickle prefix rt0 :
  snd (harvest fuel cfg sickle prefix rt0) = Ret tt ->
  exists pre items rt,
    forallb is_quiet pre = true
    /\ list_records sickle (starting_request cfg prefix rt0) = Page items rt
    /\ harvest fuel cfg sickle prefix rt0
       = (pre ++ fst (for_records fuel cfg sickle rt items),
          snd (for_records fuel cfg sickle rt items)).
Proof.
  unfold starting_request.
  destruct (list_records sickle (Initial prefix (set cfg))) as [items0 rt1|e] eqn:first.
  2: { unfold harvest. rewrite bind_next_response, first. discriminate. }
  destruct rt0 as [stored|].
  - destruct rt1 as [fresh|].
    2: { unfold harvest. rewrite bind_next_response, first. discriminate. }
    destruct (harvest_stored fuel cfg sickle prefix stored items0 fresh first)
      as (l & ql & _ & ->).
    destruct (list_records sickle (Resume (token stored))) as [items1 rt2|e];
      [|discriminate].
    unfold stream. cbn [fst snd].
    destruct (tqdm_arguments_cases rt2) as [[-> _]|(e & ->)]; [|discriminate].
    rewrite bind_ret_l. intros _.
    exists (Request (Initial prefix (set cfg)) :: l ++ [Request (Resume (token stored))]),
      items1, rt2.
    split; [cbn; now rewrite forallb_app, ql|]. split; [reflexivity|].
    cbn [app]. now rewrite <- app_assoc.
  - rewrite (harvest_fresh fuel cfg sickle prefix items0 rt1 first).
    destruct (tqdm_arguments_cases rt1) as [[-> _]|(e & ->)]; [|discriminate].
    rewrite bind_ret_l. intros _.
    exists [Request (Initial prefix (set cfg))], items0, rt1. auto.
Qed.

Lemma harvest_off_records fuel cfg sickle prefix rt :
  record_output cfg = None ->
  existsb on_records (fst (harvest fuel cfg sickle prefix rt)) = false.
Proof.
  intros none. apply off_records_trace.
  unfold harvest. apply emits_bind; [|intros pg; apply emits_bind; [|intros pg']].
  - unfold next_response. apply emits_bind; [now apply emits_emit|intros _].
    destruct (list_records sickle _); [apply emits_ret|apply emits_raise].
  - unfold reposition. destruct rt as [stored|]; [|apply emits_ret].
    apply emits_bind.
    + destruct (snd pg); [|apply emits_raise].
      unfold when. destruct (negb _); [now apply emits_emit|apply emits_ret].
    + intros _. unfold next_response. apply emits_bind; [now apply emits_emit|intros _].
      destruct (list_records sickle _); [apply emits_ret|apply emits_raise].
  - unfold stream. apply emits_bind; [|intros _; now apply for_records_off_records].
    unfold tqdm_arguments, py_int.
    destruct (snd pg') as [t|]; [|apply emits_raise].
    destruct (cursor t) as [c|]; [destruct (int_accepts c)|];
      destruct (complete_list_size t) as [n|]; try destruct (int_accepts n); reflexivity.
Qed.

(** * From the opening to the closing of the outputs *)

(** The process once the header is written and the outputs are open. *)
Lemma opened_state cfg fs target :
  metadata_output cfg = Some target ->
  let p0 := replay (fst (write_header cfg fs) ++ opening cfg) (start fs) in
  status_on_disk (files p0) = Some "" /\ sf_buffer p0 = ""
  /\ metadata_on_disk (files p0) = Some (table_start fs)
  /\ flushed p0
  /\ opened cfg p0
  /\ metadata_packed p0 = compressed target
  /\ record_packed p0 = compressed (content_or_empty "" (record_output cfg))
  /\ records_on_disk (files p0)
     = match record_output cfg with
       | Some _ => Some (content_or_empty "" (records_on_disk fs))
       | None => records_on_disk fs
       end.
Proof.
  intros hm. unfold write_header, opening, table_start, flushed, opened. rewrite hm.
  destruct fs as [st [m|] r], (record_output cfg); cbn;
    unfold flush_metadata; cbn; repeat split; auto; discriminate.
Qed.

Lemma ready_after_opening cfg fs target :
  metadata_output cfg = Some target ->
  plain_sinks cfg = true ->
  ready cfg (replay (fst (write_header cfg fs) ++ opening cfg) (start fs)).
Proof.
  intros hm plain.
  destruct (opened_state cfg fs target hm) as (_ & _ & _ & fl & opn & fm & fr & _).
  split; [exact fl|]. split; [|exact opn].
  unfold plain_sinks in plain. rewrite hm in plain. cbn [content_or_empty] in plain.
  apply andb_true_iff in plain as [pm pr].
  apply negb_true_iff in pm, pr. unfold unpacked. now rewrite fm, fr.
Qed.

Lemma ending_closing_calls cfg r :
  existsb opens_sink (ending r ++ closing cfg) = false
  /\ rows_written (ending r ++ closing cfg) = []
  /\ text_written (ending r ++ closing cfg) = "".
Proof.
  unfold closing.
  destruct r as [[]|[]|], (record_output cfg), (metadata_output cfg); repeat split.
Qed.

Lemma closing_flushes cfg target q :
  metadata_output cfg = Some target ->
  metadata_buffer (replay (closing cfg) q) = []
  /\ (is_some (record_output cfg) = true -> record_buffer (replay (closing cfg) q) = "").
Proof.
  intros hm. unfold closing. rewrite hm. cbn [option_events app].
  destruct (record_output cfg); cbn [option_events app].
  - change (replay [?a; ?b; ?c] q) with (step c (step b (step a q))). split.
    + destruct (step_off_metadata (Close StatusFile)
                  (step (Close MetadataFile) (step (Close RecordFile) q)) eq_refl)
        as (_ & -> & _).
      cbn [step flush_file].
      now destruct (flush_metadata_others (flush_records q)) as (_ & _ & _ & _ & _ & ->).
    + intros _.
      destruct (replay_off_records [Close MetadataFile; Close StatusFile]
                  (step (Close RecordFile) q) eq_refl) as (_ & h & _).
      cbn [replay fold_left] in h. rewrite h. cbn [step flush_file].
      now destruct (flush_records_others q) as (_ & _ & _ & _ & _ & ->).
  - change (replay [?a; ?b] q) with (step b (step a q)). split; [|discriminate].
    destruct (step_off_metadata (Close StatusFile) (step (Close MetadataFile) q) eq_refl)
      as (_ & -> & _).
    cbn [step flush_file].
    now destruct (flush_metadata_others q) as (_ & _ & _ & _ & _ & ->).
Qed.

Lemma header_opening_off_records cfg fs :
  record_output cfg = None ->
  existsb on_records (fst (write_header cfg fs) ++ opening cfg) = false.
Proof.
  intros none. unfold write_header, opening. rewrite none.
  destruct (metadata_output cfg); [destruct (metadata_on_disk fs)|]; reflexivity.
Qed.

(** However the body of the [try] ends, the files of the sinks hold in
    the end what they held, then what the body handed to them. *)
Lemma final_sinks fuel cfg sickle fs prefix target rt :
  metadata_prefix cfg = Some prefix ->
  metadata_output cfg = Some target ->
  load_status_file (status_on_disk fs) = Loaded rt ->
  metadata_on_disk (final_disk (crawl_finna fuel cfg sickle fs) fs)
  = Some (table_start fs ++ rows_written (fst (harvest fuel cfg sickle prefix rt)))
  /\ records_on_disk (final_disk (crawl_finna fuel cfg sickle fs) fs)
     = match record_output cfg with
       | Some _ => Some (content_or_empty "" (records_on_disk fs)
                         ++ text_written (fst (harvest fuel cfg sickle prefix rt)))%string
       | None => records_on_disk fs
       end.
Proof.
  intros hp hm hl. unfold final_disk.
  rewrite (crawl_finna_trace fuel cfg sickle fs prefix target rt hp hm hl). cbn [fst].
  set (h := harvest fuel cfg sickle prefix rt).
  pose proof (harvest_emits fuel cfg sickle prefix rt) as he. fold h in he.
  apply in_harvest_keeps_sinks in he.
  destruct (ending_closing_calls cfg (snd h)) as (ke & re & te).
  assert (keep : existsb opens_sink (fst h ++ ending (snd h) ++ closing cfg) = false)
    by (now rewrite existsb_app, he, ke).
  rewrite app_assoc, replay_app.
  destruct (opened_state cfg fs target hm) as (_ & _ & table & fl & opn & _ & _ & rec).
  set (p0 := replay (fst (write_header cfg fs) ++ opening cfg) (start fs)) in *.
  destruct (held_flushed p0 fl) as (th & sh). rewrite table in th. rewrite rec in sh.
  pose proof (replay_table _ p0 _ keep th) as tz.
  rewrite rows_written_app, re, app_nil_r in tz.
  assert (sz : forall path, record_output cfg = Some path ->
             stream_held (replay (fst h ++ ending (snd h) ++ closing cfg) p0)
             = Some (content_or_empty "" (records_on_disk fs) ++ text_written (fst h))%string).
  { intros path hr. rewrite hr in sh. rewrite (replay_stream _ p0 _ keep sh).
    now rewrite text_written_app, te, append_nil_r. }
  rewrite (app_assoc (fst h)), replay_app in tz, sz |- *.
  set (q := replay (fst h ++ ending (snd h)) p0) in *.
  destruct (closing_flushes cfg target q hm) as (mb & rb).
  split.
  - unfold table_held in tz. rewrite mb in tz.
    destruct (metadata_on_disk (files (replay (closing cfg) q))); [|discriminate].
    cbn in tz. now rewrite app_nil_r in tz.
  - destruct (record_output cfg) as [path|] eqn:hr.
    + specialize (sz path eq_refl).
      unfold stream_held in sz. rewrite (rb eq_refl) in sz.
      destruct (records_on_disk (files (replay (closing cfg) q))); [|discriminate].
      cbn in sz. now rewrite append_nil_r in sz.
    + subst q p0. rewrite <- !replay_app.
      assert (off : existsb on_records
                      ((fst (write_header cfg fs) ++ opening cfg)
                       ++ (fst h ++ ending (snd h)) ++ closing cfg) = false).
      { rewrite (existsb_app _ (fst (write_header cfg fs) ++ opening cfg)).
        rewrite (header_opening_off_records cfg fs hr). cbn [orb].
        rewrite !existsb_app.
        subst h. rewrite (harvest_off_records fuel cfg sickle prefix rt hr).
        unfold closing. rewrite hr.
        destruct (snd (harvest fuel cfg sickle prefix rt)) as [[]|[]|],
          (metadata_output cfg); reflexivity. }
      now destruct (replay_off_records _ (start fs) off) as (-> & _).
Qed.

(** The trace of a run, whatever the options: nothing, a message, or the
    header, the opening, the harvest, its ending and the closing. *)
Lemma crawl_finna_shapes fuel cfg sickle fs :
  (forallb is_inert (fst (crawl_finna fuel cfg sickle fs)) = true
   /\ existsb is_request (fst (crawl_finna fuel cfg sickle fs)) = false)
  \/ exists prefix target rt,
       metadata_prefix cfg = Some prefix
       /\ metadata_output cfg = Some target
       /\ load_status_file (status_on_disk fs) = Loaded rt.
Proof.
  unfold crawl_finna.
  destruct (metadata_prefix cfg) as [prefix|].
  2: { left. destruct (metadata_formats sickle), (set_names sickle); split; reflexivity. }
  destruct (metadata_output cfg) as [target|] eqn:hm.
  2: { left. cbn [is_some negb andb]. unfold write_header. rewrite hm.
       destruct (record_output cfg); cbn [is_some negb];
         destruct (load_status_file (status_on_disk fs)); split; reflexivity. }
  destruct (load_status_file (status_on_disk fs)) as [rt|parts].
  2: { left. split; reflexivity. }
  right. exists prefix, target, rt. auto.
Qed.

End Harvest.

(** * Files only grow *)

Lemma flush_metadata_rows p rows :
  metadata_on_disk (files p) = Some rows ->
  exists more, metadata_on_disk (files (flush_metadata p)) = Some (rows ++ more).
Proof.
  intros here. unfold flush_metadata. destruct (metadata_buffer p) as [|row buf].
  - exists []. now rewrite app_nil_r.
  - cbn. rewrite here. cbn. eauto.
Qed.

Lemma flush_records_text p txt :
  records_on_disk (files p) = Some txt ->
  exists more, records_on_disk (files (flush_records p)) = Some (txt ++ more)%string.
Proof.
  intros here. unfold flush_records. destruct (record_buffer p) as [|c buf].
  - exists "". now rewrite append_nil_r.
  - cbn. rewrite here. cbn. eauto.
Qed.

Lemma step_keeps_rows e p rows :
  truncates_metadata e = false ->
  metadata_on_disk (files p) = Some rows ->
  exists more, metadata_on_disk (files (step e p)) = Some (rows ++ more).
Proof.
  intros keep here.
  destruct (on_metadata e) eqn:om.
  2: { destruct (step_off_metadata e p om) as (-> & _). exists []. now rewrite app_nil_r. }
  destruct e as [l|r| |q|f m|f path m|f d|row| | |f|f|f]; try discriminate;
    try (destruct f; try discriminate); try (destruct m; try discriminate);
    cbn [step open_file flush_handle flush_file files metadata_on_disk content_or_empty];
    try (rewrite here; cbn [content_or_empty]);
    try (exists []; now rewrite app_nil_r).
  - destruct (metadata_packed p); [exists []; now rewrite app_nil_r|].
    now apply flush_metadata_rows.
  - now apply flush_metadata_rows.
Qed.

Lemma step_keeps_text e p txt :
  truncates_records e = false ->
  records_on_disk (files p) = Some txt ->
  exists more, records_on_disk (files (step e p)) = Some (txt ++ more)%string.
Proof.
  intros keep here.
  destruct (on_records e) eqn:or.
  2: { destruct (step_off_records e p or) as (-> & _). exists "". now rewrite append_nil_r. }
  destruct e as [l|r| |q|f m|f path m|f d|row| | |f|f|f]; try discriminate;
    try (destruct f; try discriminate); try (destruct m; try discriminate);
    cbn [step open_file flush_handle flush_file files records_on_disk content_or_empty];
    try (rewrite here; cbn [content_or_empty]);
    try (exists ""; now rewrite append_nil_r).
  - unfold write_records. destruct (_ || _).
    + cbn. exists "". now rewrite append_nil_r.
    + now apply flush_records_text.
  - destruct (record_packed p); [exists ""; now rewrite append_nil_r|].
    now apply flush_records_text.
  - now apply flush_records_text.
Qed.

Lemma replay_keeps_rows tr :
  forall p rows, existsb truncates_metadata tr = false ->
  metadata_on_disk (files p) = Some rows ->
  exists more, metadata_on_disk (files (replay tr p)) = Some (rows ++ more).
Proof.
  induction tr as [|e tr IH]; intros p rows keep here.
  - exists []. now rewrite app_nil_r.
  - cbn [existsb] in keep. apply orb_false_iff in keep as [ke ktr].
    destruct (step_keeps_rows e p rows ke here) as (m1 & h1).
    destruct (IH (step e p) _ ktr h1) as (m2 & h2).
    exists (m1 ++ m2). rewrite replay_cons.
    now rewrite h2, app_assoc.
Qed.

Lemma replay_keeps_text tr :
  forall p txt, existsb truncates_records tr = false ->
  records_on_disk (files p) = Some txt ->
  exists more, records_on_disk (files (replay tr p)) = Some (txt ++ more)%string.
Proof.
  induction tr as [|e tr IH]; intros p txt keep here.
  - exists "". now rewrite append_nil_r.
  - cbn [existsb] in keep. apply orb_false_iff in keep as [ke ktr].
    destruct (step_keeps_text e p txt ke here) as (m1 & h1).
    destruct (IH (step e p) _ ktr h1) as (m2 & h2).
    exists (m1 ++ m2)%string. rewrite replay_cons.
    now rewrite h2, append_assoc.
Qed.

Section DriverMore.

Context {ext : Externals}.

(** X-early-exit. A run that does not get to open its outputs (no
    metadata prefix, no metadata output, or a status file whose parts are
    not understood) only prints, logs or queries the discovery listing: it
    requests no page of records and, at whatever point it stops, every
    file is as it was. *)
Theorem early_exit_touches_nothing
    (fuel : nat) (cfg : Config) (sickle : Server) (fs : Disk) (n : nat) :
  metadata_prefix cfg = None
  \/ metadata_output cfg = None
  \/ (exists parts, load_status_file (status_on_disk fs) = UnknownParts parts) ->
  forallb is_inert (fst (crawl_finna fuel cfg sickle fs)) = true
  /\ existsb is_request (fst (crawl_finna fuel cfg sickle fs)) = false
  /\ killed_after n (crawl_finna fuel cfg sickle fs) fs = fs
  /\ final_disk (crawl_finna fuel cfg sickle fs) fs = fs.
Proof.
  intros early.
  assert (inert : forallb is_inert (fst (crawl_finna fuel cfg sickle fs)) = true
                  /\ existsb is_request (fst (crawl_finna fuel cfg sickle fs)) = false).
  { unfold crawl_finna.
    destruct (metadata_prefix cfg) as [prefix|].
    2: { destruct (metadata_formats sickle), (set_names sickle); split; reflexivity. }
    destruct early as [?|[hm|(parts & hl)]]; [discriminate| |].
    - rewrite hm. cbn [is_some negb andb]. unfold write_header. rewrite hm.
      destruct (record_output cfg); cbn [is_some negb];
        destruct (load_status_file (status_on_disk fs)); split; reflexivity.
    - rewrite hl.
      destruct (negb (is_some (metadata_output cfg)) && negb (is_some (record_output cfg)))%bool;
        split; reflexivity. }
  destruct inert as (inert & quiet). repeat split; auto.
  - unfold killed_after, kill. now rewrite inert_replay by (now apply forallb_firstn).
  - unfold final_disk. now rewrite inert_replay.
Qed.

Lemma crawl_never_truncates fuel cfg sickle fs :
  existsb truncates_records (fst (crawl_finna fuel cfg sickle fs)) = false
  /\ (is_some (metadata_on_disk fs) = true ->
      existsb truncates_metadata (fst (crawl_finna fuel cfg sickle fs)) = false).
Proof.
  destruct (crawl_finna_shapes fuel cfg sickle fs)
    as [(inert & _)|(prefix & target & rt & hp & hm & hl)].
  - split; [|intros _]; eapply allowed_never; try exact inert; now intros [].
  - rewrite (crawl_finna_trace fuel cfg sickle fs prefix target rt hp hm hl). cbn [fst].
    pose proof (harvest_emits fuel cfg sickle prefix rt) as he. unfold emits in he.
    assert (hr : existsb truncates_records (fst (harvest fuel cfg sickle prefix rt)) = false).
    { eapply allowed_never; [|exact he]. now intros [| | | |[] []|[] ? []| | | | | | |]. }
    assert (hmd : existsb truncates_metadata (fst (harvest fuel cfg sickle prefix rt)) = false).
    { eapply allowed_never; [|exact he]. now intros [| | | |[] []|[] ? []| | | | | | |]. }
    unfold write_header, opening, closing. rewrite hm. split; [|intros there].
    + rewrite !existsb_app, hr.
      destruct (metadata_on_disk fs), (record_output cfg),
        (snd (harvest fuel cfg sickle prefix rt)) as [[]|[]|]; reflexivity.
    + rewrite !existsb_app, hmd. destruct (metadata_on_disk fs); [|discriminate].
      destruct (record_output cfg),
        (snd (harvest fuel cfg sickle prefix rt)) as [[]|[]|]; reflexivity.
Qed.

(** X-append-only. A run never removes or rewrites what its sinks hold:
    at whatever point the process stops, the metadata table that existed
    before starts with the rows it had, and the record stream that existed
    before starts with the text it had. *)
Theorem sinks_append_only
    (fuel : nat) (cfg : Config) (sickle : Server) (fs : Disk) (n : nat) :
  (forall rows, metadata_on_disk fs = Some rows ->
     exists more,
       metadata_on_disk (killed_after n (crawl_finna fuel cfg sickle fs) fs)
       = Some (rows ++ more))
  /\ (forall txt, records_on_disk fs = Some txt ->
        exists more,
          records_on_disk (killed_after n (crawl_finna fuel cfg sickle fs) fs)
          = Some (txt ++ more)%string).
Proof.
  destruct (crawl_never_truncates fuel cfg sickle fs) as (nr & nm).
  unfold killed_after, kill. split.
  - intros rows here. apply replay_keeps_rows; [|exact here].
    apply existsb_firstn, nm. now rewrite here.
  - intros txt here. apply replay_keeps_text; [|exact here].
    now apply existsb_firstn.
Qed.

(** X-done. Whenever the command has opened its outputs and returns
    without an exception, after a completed harvest as after a logged
    HTTPError, line 162 has emptied the status file. *)
Theorem return_leaves_empty_checkpoint
    (fuel : nat) (cfg : Config) (sickle : Server) (fs : Disk)
    (prefix target : string) (rt : option ResumptionToken) :
  metadata_prefix cfg = Some prefix ->
  metadata_output cfg = Some target ->
  load_status_file (status_on_disk fs) = Loaded rt ->
  snd (crawl_finna fuel cfg sickle fs) = Ret tt ->
  status_on_disk (final_disk (crawl_finna fuel cfg sickle fs) fs) = Some "".
Proof.
  intros hp hm hl returned. unfold final_disk.
  rewrite (crawl_finna_trace fuel cfg sickle fs prefix target rt hp hm hl) in *.
  cbn [fst snd] in *.
  assert (ends : exists before, ending (snd (harvest fuel cfg sickle prefix rt))
                                = before ++ [Truncate0]).
  { destruct (snd (harvest fuel cfg sickle prefix rt)) as [[]|[]|]; try discriminate.
    - now exists [].
    - now exists [Log (LoggedException HTTPError)]. }
  destruct ends as (before & ->).
  rewrite !app_assoc, replay_app. rewrite <- !app_assoc.
  rewrite (app_assoc _ _ [Truncate0]), (app_assoc _ _ [Truncate0]), (app_assoc _ _ [Truncate0]).
  rewrite replay_app. cbn [replay fold_left].
  apply (replay_closing cfg); reflexivity.
Qed.

(** X-completed-output. When the body of the [try] runs to its end, the
    run has appended one row and one line per record of the listing, in
    the order of the listing: the metadata table is what it was (the
    header alone for a new file) followed by the rows of the records, and
    a configured record stream is what it was followed by the text and a
    newline for each record.  No record is written twice and none is left
    out. *)
Theorem completed_harvest_output
    (fuel : nat) (cfg : Config) (sickle : Server) (fs : Disk)
    (prefix target : string) (rt0 : option ResumptionToken) :
  metadata_prefix cfg = Some prefix ->
  metadata_output cfg = Some target ->
  load_status_file (status_on_disk fs) = Loaded rt0 ->
  snd (harvest fuel cfg sickle prefix rt0) = Ret tt ->
  exists items rt,
    list_records sickle (starting_request cfg prefix rt0) = Page items rt
    /\ metadata_on_disk (final_disk (crawl_finna fuel cfg sickle fs) fs)
       = Some (table_start fs ++ map metadata_row (listing fuel sickle rt items))
    /\ records_on_disk (final_disk (crawl_finna fuel cfg sickle fs) fs)
       = stream_with cfg (records_on_disk fs) (listing fuel sickle rt items).
Proof.
  intros hp hm hl done.
  destruct (harvest_returns fuel cfg sickle prefix rt0 done)
    as (pre & items & rt & quiet & first & hh).
  exists items, rt. split; [exact first|].
  destruct (final_sinks fuel cfg sickle fs prefix target rt0 hp hm hl) as (-> & ->).
  rewrite hh in *. cbn [fst snd] in *.
  assert (silent : rows_written pre = [] /\ text_written pre = "").
  { split; [apply rows_written_off|apply text_written_off];
      (eapply allowed_never; [|exact quiet]); now intros []. }
  destruct silent as (nr & nt).
  rewrite rows_written_app, text_written_app, nr, nt. cbn [app append].
  rewrite (rows_of_listing fuel cfg sickle target hm rt items done).
  rewrite (text_of_listing fuel cfg sickle rt items done).
  split; [reflexivity|]. unfold stream_with. now destruct (record_output cfg).
Qed.


(** X-first-response. A fresh run needs a resumptionToken with an integer
    cursor and an integer total on its first response, for the progress
    bar of line 114.  Without them (as when the whole listing fits one
    response and carries no resumptionToken element) the command ends with
    AttributeError, TypeError or ValueError before the first record: the
    metadata table holds what it held (the header alone for a new file) and
    the status file is empty. *)
Theorem first_response_without_counts
    (fuel : nat) (cfg : Config) (sickle : Server) (fs : Disk)
    (prefix target : string) (items : list OAIRecord) (rt : option ResumptionToken) :
  metadata_prefix cfg = Some prefix ->
  metadata_output cfg = Some target ->
  load_status_file (status_on_disk fs) = Loaded None ->
  list_records sickle (Initial prefix (set cfg)) = Page items rt ->
  counts_present (Page items rt) = false ->
  exists e,
    snd (crawl_finna fuel cfg sickle fs) = Raise e
    /\ (e = AttributeError \/ e = TypeError \/ e = ValueError)
    /\ (rt = None -> e = AttributeError)
    /\ metadata_on_disk (final_disk (crawl_finna fuel cfg sickle fs) fs)
       = Some (table_start fs)
    /\ status_on_disk (final_disk (crawl_finna fuel cfg sickle fs) fs) = Some "".
Proof.
  intros hp hm hl first unusable.
  destruct (tqdm_arguments_rejects items rt unusable) as (e & rejected & kind & absent).
  assert (hh : harvest fuel cfg sickle prefix None
               = ([Request (Initial prefix (set cfg))], Raise e)).
  { rewrite (harvest_fresh fuel cfg sickle prefix items rt first), rejected. reflexivity. }
  exists e.
  destruct (final_sinks fuel cfg sickle fs prefix target None hp hm hl) as (ft & _).
  rewrite hh in ft. cbn in ft. rewrite app_nil_r in ft.
  unfold final_disk in *.
  rewrite (crawl_finna_trace fuel cfg sickle fs prefix target None hp hm hl), hh in *.
  cbn [fst snd] in *.
  assert (caught : outcome (Raise e) = Raise e /\ ending (Raise e) = []).
  { destruct kind as [->|[->| ->]]; split; reflexivity. }
  destruct caught as (-> & noend). rewrite noend in *.
  split; [reflexivity|]. split; [exact kind|]. split; [exact absent|].
  split; [exact ft|].
  replace (fst (write_header cfg fs) ++ opening cfg
           ++ [Request (Initial prefix (set cfg))] ++ [] ++ closing cfg)
    with ((fst (write_header cfg fs) ++ opening cfg)
          ++ [Request (Initial prefix (set cfg))] ++ closing cfg)
    by (now rewrite <- !app_assoc).
  rewrite replay_app, replay_app, (quiet_replay [_]) by reflexivity.
  destruct (opened_state cfg fs target hm) as (st & buf & _).
  now apply (replay_closing cfg).
Qed.

(** X-resumed-response. The same holds for a resumed run and the response
    to the stored token: when that response carries no token with a cursor
    and a total that the progress bar accepts (as the last page of a
    listing does when the server ends it without a resumptionToken
    element), the command ends with AttributeError, TypeError or ValueError
    before it writes a record, and the status file, which held the stored
    token, is left empty. *)
Theorem resumed_response_without_counts
    (fuel : nat) (cfg : Config) (sickle : Server) (fs : Disk)
    (prefix target : string) (stored fresh : ResumptionToken)
    (items0 items : list OAIRecord) (rt : option ResumptionToken) :
  metadata_prefix cfg = Some prefix ->
  metadata_output cfg = Some target ->
  load_status_file (status_on_disk fs) = Loaded (Some stored) ->
  list_records sickle (Initial prefix (set cfg)) = Page items0 (Some fresh) ->
  list_records sickle (Resume (token stored)) = Page items rt ->
  counts_present (Page items rt) = false ->
  exists e,
    snd (crawl_finna fuel cfg sickle fs) = Raise e
    /\ (e = AttributeError \/ e = TypeError \/ e = ValueError)
    /\ (rt = None -> e = AttributeError)
    /\ rows_written (fst (crawl_finna fuel cfg sickle fs)) = rows_written (fst (write_header cfg fs))
    /\ metadata_on_disk (final_disk (crawl_finna fuel cfg sickle fs) fs)
       = Some (table_start fs)
    /\ status_on_disk (final_disk (crawl_finna fuel cfg sickle fs) fs) = Some "".
Proof.
  intros hp hm hl first second unusable.
  destruct (tqdm_arguments_rejects items rt unusable) as (e & rejected & kind & absent).
  destruct (harvest_stored fuel cfg sickle prefix stored items0 fresh first)
    as (l & ql & _ & hh).
  rewrite second in hh. unfold stream in hh. cbn [fst snd] in hh.
  rewrite rejected in hh. cbn [raise bind fst snd] in hh.
  assert (quiet : forallb is_quiet (fst (harvest fuel cfg sickle prefix (Some stored))) = true).
  { rewrite hh. cbn. now rewrite forallb_app, ql. }
  assert (silent : rows_written (fst (harvest fuel cfg sickle prefix (Some stored))) = []).
  { apply rows_written_off. eapply allowed_never; [|exact quiet]. now intros []. }
  assert (raised : snd (harvest fuel cfg sickle prefix (Some stored)) = Raise e)
    by (now rewrite hh).
  exists e.
  destruct (final_sinks fuel cfg sickle fs prefix target (Some stored) hp hm hl) as (ft & _).
  rewrite silent, app_nil_r in ft.
  unfold final_disk in *.
  rewrite (crawl_finna_trace fuel cfg sickle fs prefix target (Some stored) hp hm hl) in *.
  cbn [fst snd] in *. rewrite raised in *.
  assert (caught : outcome (Raise e) = Raise e /\ ending (Raise e) = []).
  { destruct kind as [->|[->| ->]]; split; reflexivity. }
  destruct caught as (-> & noend). rewrite noend in *.
  split; [reflexivity|]. split; [exact kind|]. split; [exact absent|].
  split; [|split; [exact ft|]].
  - rewrite !rows_written_app, silent. cbn [app].
    unfold opening, closing. rewrite hm.
    destruct (record_output cfg); cbn; now rewrite app_nil_r.
  - cbn [app]. rewrite app_assoc, replay_app, replay_app.
    rewrite (quiet_replay _ _ quiet).
    destruct (opened_state cfg fs target hm) as (st & buf & _).
    now apply (replay_closing cfg).
Qed.

End DriverMore.

(** * Stopping at a checkpoint *)

Section Commit.

Context {ext : Externals}.

(** A run whose trace shows the checkpoint of the last record of a page
    followed by the request for the next page: the state at that point and
    what follows it, with any property of the process that holds once the
    outputs are open and that complete pages keep. *)
Lemma commit_point fuel cfg sickle fs t0 tok t2 (keeps : Process -> Prop) :
  (forall rt items q, snd (for_page cfg rt items) = Ret tt -> keeps q ->
                      keeps (replay (fst (for_page cfg rt items)) q)) ->
  (forall target, metadata_output cfg = Some target ->
                  keeps (replay (fst (write_header cfg fs) ++ opening cfg) (start fs))) ->
  fst (crawl_finna fuel cfg sickle fs)
  = t0 ++ Fsync StatusFile :: Request (Resume (Some tok)) :: t2 ->
  exists prefix target rt0 items0 fresh r fuel' mid,
    metadata_prefix cfg = Some prefix
    /\ metadata_output cfg = Some target
    /\ load_status_file (status_on_disk fs) = Loaded rt0
    /\ list_records sickle (Initial prefix (set cfg)) = Page items0 (Some fresh)
    /\ t0 ++ [Fsync StatusFile] = fst (write_header cfg fs) ++ opening cfg ++ mid
    /\ fst (harvest fuel cfg sickle prefix rt0)
       = mid ++ Request (Resume (Some tok))
         :: fst (after_request fuel' cfg sickle (list_records sickle (Resume (Some tok))))
    /\ token r = Some tok
    /\ (exists q its, list_records sickle q = Page its (Some r))
    /\ keeps (replay (t0 ++ [Fsync StatusFile]) (start fs))
    /\ status_on_disk (files (replay (t0 ++ [Fsync StatusFile]) (start fs)))
       = Some (checkpoint_line r)
    /\ sf_buffer (replay (t0 ++ [Fsync StatusFile]) (start fs)) = ""
    /\ t2 = fst (after_request fuel' cfg sickle (list_records sickle (Resume (Some tok))))
            ++ ending (snd (after_request fuel' cfg sickle
                              (list_records sickle (Resume (Some tok)))))
            ++ closing cfg
    /\ snd (crawl_finna fuel cfg sickle fs)
       = outcome (snd (after_request fuel' cfg sickle
                         (list_records sickle (Resume (Some tok))))).
Proof.
  intros kept opened shape.
  assert (mem : In (Fsync StatusFile) (fst (crawl_finna fuel cfg sickle fs)))
    by (rewrite shape; apply in_elt).
  destruct (crawl_finna_shapes fuel cfg sickle fs)
    as [(_ & quiet)|(prefix & target & rt0 & hp & hm & hl)].
  { exfalso. rewrite shape, existsb_app in quiet. cbn in quiet.
    now rewrite !orb_true_r in quiet. }
  pose proof (crawl_finna_trace fuel cfg sickle fs prefix target rt0 hp hm hl) as trace.
  assert (no_header : ~ In (Fsync StatusFile) (fst (write_header cfg fs) ++ opening cfg)).
  { rewrite in_app_iff. intros [m|m].
    - apply write_header_trace in m as [(path & ?)|[?|?]]; discriminate.
    - revert m. unfold opening. rewrite hm. destruct (record_output cfg); cbn;
        intuition discriminate. }
  assert (no_request : forall r, ~ In (Request (Resume (Some tok))) (ending r ++ closing cfg)).
  { intros r. unfold closing. rewrite hm.
    destruct r as [[]|[]|], (record_output cfg); cbn; intuition discriminate. }
  destruct (harvest_cases fuel cfg sickle prefix rt0)
    as [none|(pre & rt & items & items0 & fresh & q & hh & quiet & first & from)].
  { exfalso. rewrite trace in mem. cbn [fst] in mem.
    rewrite app_assoc in mem. apply in_app_iff in mem as [m|m]; [now apply no_header|].
    apply in_app_iff in m as [m|m]; [now apply none|].
    revert m. unfold closing. rewrite hm.
    destruct (snd (harvest fuel cfg sickle prefix rt0)) as [[]|[]|], (record_output cfg);
      cbn; intuition discriminate. }
  rewrite hh in trace. cbn [fst snd] in trace.
  set (FR := for_records fuel cfg sickle rt items) in *.
  assert (shape' : (fst (write_header cfg fs) ++ opening cfg ++ pre)
                   ++ fst FR ++ (ending (snd FR) ++ closing cfg)
                   = t0 ++ Fsync StatusFile :: Request (Resume (Some tok)) :: t2).
  { rewrite <- shape, trace. cbn [fst]. now rewrite <- !app_assoc. }
  apply locate in shape' as (x & y & -> & -> & inside).
  2: { rewrite app_assoc, in_app_iff. intros [m|m]; [now apply no_header|].
       now apply quiet_no_commit in m. }
  2: { apply no_request. }
  set (p0 := replay (fst (write_header cfg fs) ++ opening cfg ++ pre) (start fs)).
  assert (here0 : keeps p0).
  { subst p0. rewrite app_assoc, replay_app, (quiet_replay pre) by exact quiet.
    eapply opened; eauto. }
  destruct (for_records_commit cfg sickle keeps kept fuel rt items x tok y p0 here0 inside)
    as (r & fuel' & tk & origin & here1 & st1 & buf & ey & eres).
  exists prefix, target, rt0, items0, fresh, r, fuel', (pre ++ x ++ [Fsync StatusFile]).
  rewrite <- app_assoc, replay_app. fold p0.
  repeat (split; [assumption|]).
  split; [now rewrite <- !app_assoc|].
  split; [rewrite hh, inside, ey; cbn [fst]; now rewrite <- !app_assoc|].
  split; [assumption|].
  split; [destruct origin as [->|found]; eauto|].
  repeat (split; [assumption|]).
  rewrite <- ey, <- eres. split; [reflexivity|].
  rewrite trace. reflexivity.
Qed.

Lemma closing_keeps_status cfg p :
  sf_buffer p = "" ->
  status_on_disk (files (replay (closing cfg) p)) = status_on_disk (files p).
Proof.
  intros buf. unfold closing.
  rewrite app_assoc, replay_app.
  change (replay [Close StatusFile] ?q) with (flush_status q).
  set (sinks := option_events (record_output cfg) (Close RecordFile)
                ++ option_events (metadata_output cfg) (Close MetadataFile)).
  assert (same : status_on_disk (files (replay sinks p)) = status_on_disk (files p)
                 /\ sf_buffer (replay sinks p) = "").
  { subst sinks. destruct (record_output cfg), (metadata_output cfg);
      cbn [option_events app replay fold_left]; auto.
    - destruct (sink_call_status (Close MetadataFile) (step (Close RecordFile) p) eq_refl)
        as (-> & -> & _).
      destruct (sink_call_status (Close RecordFile) p eq_refl) as (-> & -> & _). auto.
    - destruct (sink_call_status (Close RecordFile) p eq_refl) as (-> & -> & _). auto.
    - destruct (sink_call_status (Close MetadataFile) p eq_refl) as (-> & -> & _). auto. }
  destruct same as (st & b). unfold flush_status. now rewrite b.
Qed.

(** X-uncaught. Only HTTPError is caught.  When the request for the next
    page fails with any other exception, the exception leaves the command,
    line 162 is not reached, and the status file still holds the
    checkpoint written for the last record of the page before: the token
    of the very request that failed. *)
Theorem other_failure_keeps_checkpoint
    (fuel : nat) (cfg : Config) (sickle : Server) (fs : Disk)
    (t0 t2 : list event) (tok : string) (e : exn) :
  fst (crawl_finna fuel cfg sickle fs)
  = t0 ++ Fsync StatusFile :: Request (Resume (Some tok)) :: t2 ->
  list_records sickle (Resume (Some tok)) = Failure e ->
  e <> HTTPError ->
  snd (crawl_finna fuel cfg sickle fs) = Raise e
  /\ t2 = closing cfg
  /\ exists r,
       token r = Some tok
       /\ status_on_disk (final_disk (crawl_finna fuel cfg sickle fs) fs)
          = Some (checkpoint_line r).
Proof.
  intros shape failed other.
  destruct (commit_point fuel cfg sickle fs t0 tok t2 (fun _ => True)
              (fun _ _ _ _ _ => I) (fun _ _ => I) shape)
    as (prefix & target & rt0 & items0 & fresh & r & fuel' & mid
        & _ & _ & _ & _ & _ & _ & tk & _ & _ & st & buf & rest & out).
  rewrite failed in rest, out. cbn [after_request raise fst snd app] in rest, out.
  assert (nothing : ending (Raise e) = []) by (destruct e; try reflexivity; contradiction).
  assert (same : outcome (Raise e) = Raise e) by (destruct e; try reflexivity; contradiction).
  rewrite nothing in rest. cbn [app] in rest. rewrite same in out.
  split; [exact out|]. split; [exact rest|].
  exists r. split; [exact tk|].
  unfold final_disk. rewrite shape, rest.
  replace (t0 ++ Fsync StatusFile :: Request (Resume (Some tok)) :: closing cfg)
    with ((t0 ++ [Fsync StatusFile]) ++ [Request (Resume (Some tok))] ++ closing cfg)
    by (now rewrite <- app_assoc).
  rewrite replay_app, replay_app, (quiet_replay [Request (Resume (Some tok))]) by reflexivity.
  now rewrite closing_keeps_status.
Qed.

(** X-page-end. The token written after a record names the page after
    the one that holds the record.  With sinks that are not compressed,
    a process that is killed right after the checkpoint of the last record
    of a page leaves the token of the page requested next in the status
    file; a restart then ends the way the uninterrupted run ends and
    leaves the same metadata table and the same record stream, provided
    the tokens of the server fit the format of the status file and the
    page requested next carries a cursor and a total that the progress bar
    accepts. *)
Theorem resume_at_page_end
    (fuel : nat) (cfg : Config) (sickle : Server) (fs : Disk)
    (t0 t2 : list event) (tok : string) :
  plain_sinks cfg = true ->
  (forall q items r, list_records sickle q = Page items (Some r) -> checkpoint_safe r = true) ->
  fst (crawl_finna fuel cfg sickle fs)
  = t0 ++ Fsync StatusFile :: Request (Resume (Some tok)) :: t2 ->
  counts_present (list_records sickle (Resume (Some tok))) = true ->
  let run := crawl_finna fuel cfg sickle fs in
  let fs' := killed_after (S (length t0)) run fs in
  (exists r, status_on_disk fs' = Some (checkpoint_line r) /\ token r = Some tok)
  /\ exists fuel',
       let rerun := crawl_finna fuel' cfg sickle fs' in
       snd rerun = snd run
       /\ metadata_on_disk (final_disk rerun fs') = metadata_on_disk (final_disk run fs)
       /\ records_on_disk (final_disk rerun fs') = records_on_disk (final_disk run fs).
Proof.
  intros plain safe shape counts run fs'.
  assert (kept : forall rt items q, snd (for_page cfg rt items) = Ret tt -> ready cfg q ->
                   ready cfg (replay (fst (for_page cfg rt items)) q)).
  { intros rt items q ok rdy.
    destruct (metadata_output cfg) as [target|] eqn:hm.
    - now apply (replay_page_ready cfg rt items target).
    - destruct (crawl_finna_shapes fuel cfg sickle fs)
        as [(_ & quiet)|(prefix & target & rt0 & _ & hm' & _)]; [|congruence].
      exfalso. rewrite shape, existsb_app in quiet. cbn in quiet.
      now rewrite !orb_true_r in quiet. }
  destruct (commit_point fuel cfg sickle fs t0 tok t2 (ready cfg) kept
              (fun target hm => ready_after_opening cfg fs target hm plain) shape)
    as (prefix & target & rt0 & items0 & fresh & r & fuel' & mid
        & hp & hm & hl & first & upto & hh & tk & (q & its & origin)
        & rdy1 & st1 & _ & rest & out).
  set (p1 := replay (t0 ++ [Fsync StatusFile]) (start fs)) in *.
  set (AR := after_request fuel' cfg sickle (list_records sickle (Resume (Some tok)))) in *.
  assert (killed : fs' = files p1).
  { subst fs' run p1. unfold killed_after, kill. now rewrite shape, firstn_through. }
  split.
  { exists r. now rewrite killed. }
  exists fuel'. cbv zeta.
  assert (hl' : load_status_file (status_on_disk fs') = Loaded (Some (as_loaded r))).
  { rewrite killed, st1. apply load_checkpoint_line. eapply safe; eauto. }
  assert (tk' : token (as_loaded r) = Some tok) by (cbn; now rewrite tk).
  destruct (harvest_resumed fuel' cfg sickle prefix (as_loaded r) tok items0 fresh first tk' counts)
    as (w & qw & hh').
  fold AR in hh'.
  split.
  { rewrite (crawl_finna_trace fuel' cfg sickle fs' prefix target _ hp hm hl'), hh'.
    subst run. now rewrite out. }
  (* what the files of the sinks hold at the kill *)
  pose proof (harvest_emits fuel cfg sickle prefix rt0) as he.
  apply in_harvest_keeps_sinks in he. rewrite hh, existsb_app in he.
  apply orb_false_iff in he as [kmid _].
  destruct (opened_state cfg fs target hm) as (_ & _ & table & fl & _ & _ & _ & rec).
  destruct (held_flushed _ fl) as (th & sh). rewrite table in th. rewrite rec in sh.
  assert (at_kill : p1 = replay mid (replay (fst (write_header cfg fs) ++ opening cfg) (start fs))).
  { subst p1. now rewrite upto, app_assoc, replay_app. }
  destruct rdy1 as (fl1 & _ & _).
  destruct (held_flushed _ fl1) as (th1 & sh1).
  rewrite at_kill in th1 at 1. rewrite (replay_table mid _ _ kmid th) in th1.
  assert (silent : rows_written w = [] /\ text_written w = "").
  { split; [apply rows_written_off|apply text_written_off];
      (eapply allowed_never; [|exact qw]); now intros []. }
  destruct silent as (nr & nt).
  destruct (final_sinks fuel cfg sickle fs prefix target rt0 hp hm hl) as (ft & fr).
  destruct (final_sinks fuel' cfg sickle fs' prefix target _ hp hm hl') as (ft' & fr').
  fold run in ft, fr. rewrite hh in ft, fr. rewrite hh' in ft', fr'. cbn [fst] in ft', fr'.
  rewrite rows_written_app in ft, ft'. rewrite text_written_app in fr, fr'.
  change (rows_written (Request ?a :: ?k)) with (rows_written k) in ft.
  change (text_written (Request ?a :: ?k)) with (text_written k) in fr.
  rewrite nr in ft'. rewrite nt in fr'. cbn [app append] in ft', fr'.
  split.
  - rewrite ft, ft'. unfold table_start. rewrite killed, <- th1. now rewrite app_assoc.
  - rewrite fr, fr'. destruct (record_output cfg) as [path|] eqn:hr.
    + rewrite at_kill in sh1 at 1. rewrite (replay_stream mid _ _ kmid sh) in sh1.
      rewrite killed, <- sh1. cbn [content_or_empty]. now rewrite append_assoc.
    + rewrite killed. subst p1.
      assert (off : existsb on_records (t0 ++ [Fsync StatusFile]) = false).
      { rewrite upto, app_assoc, existsb_app, (header_opening_off_records cfg fs hr).
        pose proof (harvest_off_records fuel cfg sickle prefix rt0 hr) as ho.
        rewrite hh, existsb_app in ho. now apply orb_false_iff in ho as [-> _]. }
      now destruct (replay_off_records _ (start fs) off) as (-> & _).
Qed.

End Commit.

(** * Stopping inside a page *)

Section Inside.

Context {ext : Externals}.

Lemma for_page_ends_in_commit cfg r t items record :
  token r = Some t ->
  snd (for_page cfg (Some r) (items ++ [record])) = Ret tt ->
  exists t0, fst (for_page cfg (Some r) (items ++ [record])) = t0 ++ [Fsync StatusFile].
Proof.
  intros tk ok.
  destruct (for_page_app_returns _ _ _ _ ok) as (oka & okb).
  rewrite (for_page_app _ _ _ _ oka). cbn [fst].
  cbn [for_page] in okb |- *.
  assert (okr : snd (process_record cfg (Some r) record) = Ret tt).
  { destruct (snd (process_record cfg (Some r) record)) as [[]|e|] eqn:res; [reflexivity| |].
    - rewrite (bind_raises _ _ e res) in okb. discriminate.
    - unfold bind in okb. destruct (process_record cfg (Some r) record) as [l o].
      cbn in res. subst o. discriminate. }
  rewrite (bind_returns _ _ tt okr). cbn [fst ret]. rewrite app_nil_r.
  destruct (process_record_returns _ _ _ okr) as (-> & _ & _).
  rewrite (save_checkpoint_calls r t tk). cbn [fst].
  exists (fst (for_page cfg (Some r) items) ++ fst (write_metadata cfg record)
          ++ fst (write_record cfg record)
          ++ Truncate0 :: Seek0 :: checkpoint_writes r ++ [Flush StatusFile]).
  rewrite <- !app_assoc. cbn [app]. rewrite <- !app_assoc. reflexivity.
Qed.

(** C1, at the inputs where it fails. The checkpoint written after a
    record is the token of the page that holds the record.  A fresh run
    with sinks that are not compressed is killed right after the checkpoint
    write for [record], which the records [after] follow on the first
    page: the status file holds the token of that page, the restart
    requests the page after it, ends normally and leaves a metadata table
    and a record stream without the records [after], which the
    uninterrupted run writes. *)
Theorem kill_within_page_loses_records
    (fuel : nat) (cfg : Config) (sickle : Server) (fs : Disk)
    (prefix target tok : string) (before after next_items : list OAIRecord)
    (record : OAIRecord) (r r' : ResumptionToken) :
  plain_sinks cfg = true ->
  metadata_prefix cfg = Some prefix ->
  metadata_output cfg = Some target ->
  load_status_file (status_on_disk fs) = Loaded None ->
  list_records sickle (Initial prefix (set cfg)) = Page (before ++ record :: after) (Some r) ->
  int_ok (cursor r) = true ->
  int_ok (complete_list_size r) = true ->
  continuation (Some r) = Some tok ->
  checkpoint_safe r = true ->
  list_records sickle (Resume (Some tok)) = Page next_items (Some r') ->
  int_ok (cursor r') = true ->
  int_ok (complete_list_size r') = true ->
  snd (harvest (S fuel) cfg sickle prefix None) = Ret tt ->
  let run := crawl_finna (S fuel) cfg sickle fs in
  let committed := fst (write_header cfg fs) ++ opening cfg
                   ++ Request (Initial prefix (set cfg))
                   :: fst (for_page cfg (Some r) (before ++ [record])) in
  let fs' := killed_after (length committed) run fs in
  let rerun := crawl_finna fuel cfg sickle fs' in
  let rest := listing fuel sickle (Some r') next_items in
  firstn (length committed) (fst run) = committed
  /\ (exists t0, committed = t0 ++ [Fsync StatusFile])
  /\ status_on_disk fs' = Some (checkpoint_line r)
  /\ metadata_on_disk fs' = Some (table_start fs ++ map metadata_row (before ++ [record]))
  /\ records_on_disk fs' = stream_with cfg (records_on_disk fs) (before ++ [record])
  /\ snd run = Ret tt
  /\ metadata_on_disk (final_disk run fs)
     = Some (table_start fs ++ map metadata_row (before ++ record :: after ++ rest))
  /\ records_on_disk (final_disk run fs)
     = stream_with cfg (records_on_disk fs) (before ++ record :: after ++ rest)
  /\ snd rerun = Ret tt
  /\ metadata_on_disk (final_disk rerun fs')
     = Some (table_start fs ++ map metadata_row (before ++ record :: rest))
  /\ records_on_disk (final_disk rerun fs')
     = stream_with cfg (records_on_disk fs) (before ++ record :: rest)
  /\ (after <> [] ->
      metadata_on_disk (final_disk rerun fs') <> metadata_on_disk (final_disk run fs)).
Proof.
  intros plain hp hm hl first ic it cont safe second ic' it' done run committed fs' rerun rest.
  destruct (continuation_token _ _ cont) as (r0 & er & tk). injection er as <-.
  set (items := before ++ record :: after) in *.
  set (seen := before ++ [record]) in *.
  assert (split_items : items = seen ++ after).
  { subst items seen. now rewrite <- app_assoc. }
  assert (counts : counts_present (Page items (Some r)) = true).
  { cbn. now rewrite ic, it. }
  assert (counts' : counts_present (list_records sickle (Resume (Some tok))) = true).
  { rewrite second. cbn. now rewrite ic', it'. }
  pose proof (harvest_fresh (S fuel) cfg sickle prefix items (Some r) first) as hh.
  rewrite (tqdm_arguments_accepts items _ counts), bind_ret_l in hh.
  set (FR := for_records (S fuel) cfg sickle (Some r) items) in *.
  assert (okFR : snd FR = Ret tt) by (rewrite hh in done; exact done).
  pose proof (for_records_returns _ _ _ _ _ okFR) as okpage.
  pose proof okpage as okparts. rewrite split_items in okparts.
  apply for_page_app_returns in okparts as (okseen & okafter).
  pose proof (for_records_step fuel cfg sickle (Some r) items tok okpage cont) as step.
  fold FR in step. rewrite second in step. cbn [after_request] in step.
  set (AR := for_records fuel cfg sickle (Some r') next_items) in *.
  assert (okAR : snd AR = Ret tt) by (rewrite step in okFR; exact okFR).
  pose proof (crawl_finna_trace (S fuel) cfg sickle fs prefix target None hp hm hl) as trace.
  fold run in trace.
  assert (shape : fst run = committed ++ fst (for_page cfg (Some r) after)
                            ++ Request (Resume (Some tok)) :: fst AR
                            ++ ending (Ret tt) ++ closing cfg).
  { rewrite trace, hh, step. cbn [fst snd]. subst committed.
    rewrite split_items, (for_page_app _ _ _ _ okseen). cbn [fst].
    rewrite okAR. rewrite <- !app_assoc. cbn [app]. rewrite <- !app_assoc. reflexivity. }
  (* the process at the kill *)
  set (p0 := replay (fst (write_header cfg fs) ++ opening cfg) (start fs)).
  set (p1 := replay (fst (for_page cfg (Some r) seen)) p0).
  assert (killed : fs' = files p1).
  { subst fs' p1 p0. unfold killed_after, kill. rewrite shape, firstn_prefix.
    subst committed. rewrite app_assoc, replay_app, replay_cons. reflexivity. }
  pose proof (ready_after_opening cfg fs target hm plain) as rdy0. fold p0 in rdy0.
  pose proof (replay_page_ready cfg (Some r) seen target hm p0 okseen rdy0) as rdy1.
  fold p1 in rdy1.
  assert (some : seen <> []) by (subst seen; now destruct before).
  destruct (replay_page_status cfg r tok seen p0 okseen some tk) as (st1 & _). fold p1 in st1.
  destruct (opened_state cfg fs target hm) as (_ & _ & table & fl & _ & _ & _ & rec).
  fold p0 in table, fl, rec.
  destruct (held_flushed _ fl) as (th & sh). rewrite table in th. rewrite rec in sh.
  destruct rdy1 as (fl1 & _ & _).
  destruct (held_flushed _ fl1) as (th1 & sh1).
  pose proof (for_page_keeps_sinks cfg (Some r) seen) as kseen.
  unfold p1 in th1 at 1. rewrite (replay_table _ _ _ kseen th) in th1.
  rewrite (rows_of_page cfg (Some r) seen target hm okseen) in th1.
  assert (rec1 : records_on_disk (files p1) = stream_with cfg (records_on_disk fs) seen).
  { unfold stream_with. destruct (record_output cfg) as [path|] eqn:hr.
    - unfold p1 in sh1 at 1. rewrite (replay_stream _ _ _ kseen sh) in sh1.
      rewrite (text_of_page cfg (Some r) seen okseen), hr in sh1. now rewrite <- sh1.
    - rewrite <- rec. subst p1.
      assert (off : existsb on_records (fst (for_page cfg (Some r) seen)) = false).
      { pose proof (harvest_off_records (S fuel) cfg sickle prefix None hr) as ho.
        rewrite hh, step in ho. cbn [fst existsb on_records orb] in ho.
        rewrite split_items, (for_page_app _ _ _ _ okseen) in ho. cbn [fst] in ho.
        rewrite <- app_assoc, existsb_app in ho. now apply orb_false_iff in ho as [-> _]. }
      now destruct (replay_off_records _ p0 off) as (-> & _). }
  (* the uninterrupted run *)
  destruct (final_sinks (S fuel) cfg sickle fs prefix target None hp hm hl) as (ft & fr).
  fold run in ft, fr. rewrite hh in ft, fr. cbn [fst] in ft, fr.
  change (rows_written (Request ?a :: ?k)) with (rows_written k) in ft.
  change (text_written (Request ?a :: ?k)) with (text_written k) in fr.
  unfold FR in ft, fr.
  rewrite (rows_of_listing (S fuel) cfg sickle target hm _ _ okFR) in ft.
  rewrite (text_of_listing (S fuel) cfg sickle _ _ okFR) in fr.
  assert (all : listing (S fuel) sickle (Some r) items = before ++ record :: after ++ rest).
  { cbn [listing]. rewrite cont, second. subst items rest.
    rewrite <- app_assoc. reflexivity. }
  rewrite all in ft, fr.
  (* the restart *)
  assert (hl' : load_status_file (status_on_disk fs') = Loaded (Some (as_loaded r))).
  { rewrite killed, st1. now apply load_checkpoint_line. }
  assert (tk' : token (as_loaded r) = Some tok) by (cbn; now rewrite tk).
  destruct (harvest_resumed fuel cfg sickle prefix (as_loaded r) tok items r first tk' counts')
    as (w & qw & hh').
  rewrite second in hh'. cbn [after_request] in hh'. fold AR in hh'.
  assert (silent : rows_written w = [] /\ text_written w = "").
  { split; [apply rows_written_off|apply text_written_off];
      (eapply allowed_never; [|exact qw]); now intros []. }
  destruct silent as (nr & nt).
  destruct (final_sinks fuel cfg sickle fs' prefix target _ hp hm hl') as (ft' & fr').
  fold rerun in ft', fr'. rewrite hh' in ft', fr'. cbn [fst] in ft', fr'.
  rewrite rows_written_app, nr in ft'. rewrite text_written_app, nt in fr'.
  cbn [app append] in ft', fr'. unfold AR in ft', fr'.
  rewrite (rows_of_listing fuel cfg sickle target hm _ _ okAR) in ft'.
  rewrite (text_of_listing fuel cfg sickle _ _ okAR) in fr'.
  fold rest in ft', fr'.
  assert (tbl' : metadata_on_disk (final_disk rerun fs')
                 = Some (table_start fs ++ map metadata_row (before ++ record :: rest))).
  { rewrite ft'. unfold table_start at 1. rewrite killed, <- th1.
    subst seen. rewrite <- app_assoc, <- map_app, <- app_assoc. reflexivity. }
  split; [now rewrite shape, firstn_prefix|].
  split.
  { destruct (for_page_ends_in_commit cfg r tok before record tk okseen) as (t0 & found).
    exists (fst (write_header cfg fs) ++ opening cfg ++ Request (Initial prefix (set cfg)) :: t0).
    subst committed. fold seen in found |- *. rewrite found.
    rewrite <- !app_assoc. cbn [app]. reflexivity. }
  split; [now rewrite killed|].
  split; [now rewrite killed, <- th1|].
  split; [now rewrite killed|].
  split; [rewrite trace, hh; cbn [snd]; now rewrite okFR|].
  split; [exact ft|].
  split.
  { rewrite fr. unfold stream_with. now destruct (record_output cfg). }
  split.
  { subst rerun. rewrite (crawl_finna_trace fuel cfg sickle fs' prefix target _ hp hm hl'), hh'.
    cbn [snd]. now rewrite okAR. }
  split; [exact tbl'|].
  split.
  { rewrite fr'. rewrite killed, rec1. unfold stream_with.
    destruct (record_output cfg) as [path|]; [|reflexivity].
    cbn [content_or_empty is_some]. subst seen.
    rewrite append_assoc, <- record_lines_app, <- app_assoc. reflexivity. }
  intros more same. rewrite tbl', ft in same. injection same as same.
  apply (f_equal (@length _)) in same.
  rewrite !length_app, !length_map, !length_app in same. cbn [length] in same.
  rewrite length_app in same. destruct after; [now apply more|cbn [length] in same; lia].
Qed.

End Inside.

(** * The calls of one checkpoint write *)

Lemma written_app a b : written (a ++ b) = (written a ++ written b)%string.
Proof.
  induction a as [|e a IH]; [reflexivity|].
  destruct e as [| | | | | |[] d| | | | | |]; cbn [app written]; rewrite IH;
    try reflexivity.
  now rewrite append_assoc.
Qed.

Lemma held_back_prefix a b : held_back (a ++ b) = true -> held_back a = true.
Proof.
  unfold held_back. rewrite !N.ltb_lt, encoded_size_append. lia.
Qed.

Lemma held_back_firstn j ws :
  held_back (written ws) = true -> held_back (written (firstn j ws)) = true.
Proof.
  intros small. apply (held_back_prefix _ (written (skipn j ws))).
  now rewrite <- written_app, firstn_skipn.
Qed.

Section CheckpointWrite.

Context {ext : Externals}.

(** X-never-torn. A checkpoint write whose line is shorter than the
    chunk of the text layer (8192 bytes) never leaves part of the line in
    the status file: once its first call, the truncate, is made, a process
    that stops after any number of its calls leaves the status file either
    empty or holding the complete line of the token. *)
Theorem checkpoint_write_never_torn
    (rt : option ResumptionToken) (p : Process) (k : nat) :
  1 <= k ->
  (forall r, rt = Some r -> (encoded_size (checkpoint_line r) < chunk_size)%N) ->
  let left_behind :=
    status_on_disk (kill (replay (firstn k (fst (save_checkpoint rt))) p)) in
  left_behind = Some ""
  \/ exists r, rt = Some r /\ left_behind = Some (checkpoint_line r).
Proof.
  intros started short. cbv zeta. unfold kill.
  assert (truncated : forall q, status_on_disk (files (step Truncate0 q)) = Some "")
    by (intros q; reflexivity).
  destruct rt as [r|].
  2: { left. destruct k as [|[|[|[|k]]]]; [lia|apply truncated|..].
       - apply (f_equal (fun q => status_on_disk (files q)) (replay_truncate_seek p)).
       - change (firstn 3 (fst (save_checkpoint None))) with ([Truncate0; Seek0] ++ [Flush StatusFile]).
         rewrite replay_app, replay_truncate_seek. reflexivity.
       - rewrite firstn_all2 by (cbn; lia).
         change (fst (save_checkpoint None))
           with ([Truncate0; Seek0] ++ [Flush StatusFile; Fsync StatusFile]).
         rewrite replay_app, replay_truncate_seek. reflexivity. }
  destruct (token r) as [t|] eqn:tk.
  2: { left. unfold save_checkpoint, sf_write. rewrite tk.
       destruct k as [|[|[|k]]]; [lia|apply truncated|..].
       - apply (f_equal (fun q => status_on_disk (files q)) (replay_truncate_seek p)).
       - rewrite firstn_all2 by (cbn; lia).
         apply (f_equal (fun q => status_on_disk (files q)) (replay_truncate_seek p)). }
  specialize (short r eq_refl).
  assert (small : held_back (written (checkpoint_writes r)) = true).
  { rewrite written_checkpoint. unfold held_back. now apply N.ltb_lt. }
  rewrite (save_checkpoint_calls r t tk). cbn [fst].
  destruct k as [|[|j]]; [lia|left; apply truncated|].
  change (firstn (S (S j)) (Truncate0 :: Seek0 :: ?l)) with ([Truncate0; Seek0] ++ firstn j l).
  rewrite replay_app, replay_truncate_seek.
  set (q := mkProcess _ _ _ _ _ _ _).
  assert (fresh : status_is "" "" q) by (subst q; repeat split).
  clearbody q.
  rewrite firstn_app, replay_app.
  destruct (replay_status_writes (firstn j (checkpoint_writes r)) "" "" q
              (forallb_firstn _ _ _ (checkpoint_writes_only r)) fresh)
    as (content & pending & here & sum & _ & kept).
  cbn [append] in sum, kept.
  specialize (kept (held_back_firstn j _ small)). subst content. cbn [append] in sum.
  destruct (j - length (checkpoint_writes r)) as [|d] eqn:beyond.
  - left. cbn [firstn replay fold_left]. apply here.
  - right. exists r. split; [reflexivity|].
    assert (whole : firstn j (checkpoint_writes r) = checkpoint_writes r)
      by (apply firstn_all2; lia).
    rewrite whole in *. rewrite written_checkpoint in sum. subst pending.
    pose proof (flush_status_is _ _ _ here) as (flushed & _).
    cbn [append] in flushed.
    destruct d as [|d].
    + exact flushed.
    + rewrite firstn_all2 by (cbn; lia). exact flushed.
Qed.

(** X-textless-token. When the token of the current response has no text,
    as on the last page of a listing that the server ends with an empty
    resumptionToken element, a record whose sinks are written cannot be
    checkpointed: line 148 raises TypeError after the truncate of line 145.
    The status file is empty and the row of the record is in the metadata
    sink: in its file when the sink is not compressed. *)
Theorem textless_token_breaks_the_checkpoint
    (cfg : Config) (r : ResumptionToken) (record : OAIRecord) (p : Process)
    (target : string) (rows : list (list string)) :
  token r = None ->
  snd (write_record cfg record) = Ret tt ->
  metadata_output cfg = Some target ->
  metadata_on_disk (files p) = Some rows ->
  metadata_buffer p = [] ->
  let run := process_record cfg (Some r) record in
  snd run = Raise TypeError
  /\ status_on_disk (kill (replay (fst run) p)) = Some ""
  /\ table_held (replay (fst run) p) = Some (rows ++ [metadata_row record])
  /\ (metadata_packed p = false ->
      metadata_on_disk (kill (replay (fst run) p)) = Some (rows ++ [metadata_row record])).
Proof.
  intros tk wrote hm table buffer. cbv zeta. unfold kill.
  assert (shape : process_record cfg (Some r) record
                  = ((fst (write_metadata cfg record) ++ fst (write_record cfg record))
                       ++ [Truncate0; Seek0], Raise TypeError)).
  { unfold process_record.
    rewrite (write_metadata_calls cfg record target hm) at 1.
    unfold bind at 1. cbn [fst snd].
    rewrite (bind_returns _ _ tt wrote).
    unfold save_checkpoint, sf_write. rewrite tk. cbn [fst snd bind emit raise app].
    rewrite (write_metadata_calls cfg record target hm). cbn [fst].
    reflexivity. }
  rewrite shape. cbn [fst snd].
  split; [reflexivity|].
  rewrite replay_app, replay_truncate_seek. cbn [files status_on_disk metadata_on_disk].
  split; [reflexivity|].
  set (sinks := fst (write_metadata cfg record) ++ fst (write_record cfg record)).
  assert (quiet : existsb opens_sink sinks = false).
  { pose proof (process_record_keeps_sinks cfg (Some r) record) as k.
    rewrite shape in k. cbn [fst] in k. rewrite existsb_app in k.
    now apply orb_false_iff in k as [k _]. }
  assert (held : table_held p = Some rows).
  { unfold table_held. rewrite table, buffer. cbn. now rewrite app_nil_r. }
  pose proof (replay_table sinks p rows quiet held) as after.
  assert (wrote_rows : rows_written sinks = [metadata_row record]).
  { subst sinks. rewrite rows_written_app, (write_metadata_calls cfg record target hm).
    cbn [fst rows_written flat_map rows_of app].
    rewrite (rows_written_off _ (write_record_off_metadata cfg record)). reflexivity. }
  rewrite wrote_rows in after.
  assert (held' : table_held (mkProcess
            (mkDisk (Some "") (metadata_on_disk (files (replay sinks p)))
               (records_on_disk (files (replay sinks p))))
            "" 0 (metadata_buffer (replay sinks p)) (record_buffer (replay sinks p))
            (metadata_packed (replay sinks p)) (record_packed (replay sinks p)))
          = table_held (replay sinks p)) by reflexivity.
  split; [now rewrite held'|].
  intros plain.
  assert (empty : metadata_buffer (replay sinks p) = []).
  { subst sinks. rewrite replay_app.
    destruct (replay_off_metadata _ (replay (fst (write_metadata cfg record)) p)
                (write_record_off_metadata cfg record)) as (_ & -> & _).
    rewrite (write_metadata_calls cfg record target hm). cbn [fst].
    change (replay [?a; ?b; ?c] p) with (step c (step b (step a p))).
    cbn [step]. apply flush_plain_metadata. exact plain. }
  unfold table_held in after. rewrite empty in after.
  destruct (metadata_on_disk (files (replay sinks p))) as [on_disk|]; [|discriminate].
  cbn in after. rewrite app_nil_r in after. exact after.
Qed.

End CheckpointWrite.

(** * Properties of [strip_namespaces] *)

Section StripNamespaces.

Local Abbreviation prefixed := (PyStr.startswith lbrace).

Lemma element_induction (P : element -> Prop) :
  (forall t a tx ch tl, Forall P ch -> P (Element t a tx ch tl)) ->
  (forall tx tl, P (ContentOnly tx tl)) ->
  forall doc, P doc.
Proof.
  intros step other. fix self 1. intros [t a tx ch tl|tx tl]; [|apply other]. apply step.
  induction ch as [|c ch' IH]; constructor; [apply self | exact IH].
Qed.

Lemma strip_tag_unprefixed t :
  prefixed t = false -> strip_tag t = Val t.
Proof. unfold strip_tag. intros ->. reflexivity. Qed.

Lemma strip_tag_settled t t' :
  settled_name t = true -> strip_tag t = Val t' -> prefixed t' = false.
Proof.
  unfold settled_name, strip_tag, local_name.
  destruct (PyStr.startswith lbrace t) eqn:pre.
  - destruct (PyStr.split1_snd rbrace t) as [l|]; [|discriminate].
    intros ok h. injection h as <-. now apply negb_true_iff in ok.
  - intros _ h. injection h as <-. exact pre.
Qed.

Lemma prefixed_differs k an :
  prefixed k = false -> prefixed an = true -> String.eqb k an = false.
Proof.
  intros hk han. destruct (String.eqb k an) eqn:e; [|reflexivity].
  apply String.eqb_eq in e. subst. congruence.
Qed.

Lemma attrib_pop_keeps an a v a1 k :
  attrib_pop an a = Val (v, a1) -> String.eqb k an = false ->
  In k (map fst a) -> In k (map fst a1).
Proof.
  revert v a1. induction a as [|[k0 v0] rest IH]; simpl; intros v a1 pop ne mem.
  - contradiction.
  - destruct (String.eqb k0 an) eqn:e.
    + inversion pop; subst. destruct mem as [<-|mem]; [congruence|exact mem].
    + destruct (attrib_pop an rest) as [[v' r']|] eqn:p; simpl in pop; [|discriminate].
      inversion pop; subst. simpl. destruct mem as [<-|mem]; [now left|right].
      eapply IH; eauto.
Qed.

Lemma attrib_pop_first a an rest :
  prefixed an = true ->
  filter prefixed (map fst a) = an :: rest ->
  exists v a1, attrib_pop an a = Val (v, a1) /\ filter prefixed (map fst a1) = rest.
Proof.
  intros han. induction a as [|[k0 v0] a' IH]; simpl; intros flt.
  - discriminate.
  - destruct (prefixed k0) eqn:p0.
    + inversion flt; subst. rewrite String.eqb_refl. eauto.
    + rewrite (prefixed_differs k0 an p0 han).
      destruct (IH flt) as (v & a1 & -> & flt1). simpl.
      exists v, ((k0, v0) :: a1). split; [reflexivity|].
      simpl. now rewrite p0.
Qed.

Lemma attrib_set_prefixed l v a :
  prefixed l = false ->
  filter prefixed (map fst (attrib_set l v a)) = filter prefixed (map fst a).
Proof.
  intros hl. induction a as [|[k0 v0] a' IH]; simpl.
  - now rewrite hl.
  - destruct (String.eqb k0 l) eqn:e; simpl.
    + apply String.eqb_eq in e. subst. reflexivity.
    + now rewrite IH.
Qed.

Lemma attrib_set_keeps l v a k :
  In k (map fst a) -> In k (map fst (attrib_set l v a)).
Proof.
  induction a as [|[k0 v0] a' IH]; simpl; [contradiction|].
  intros [<-|mem]; destruct (String.eqb k0 l) eqn:e; simpl; auto.
  apply String.eqb_eq in e. now left.
Qed.

Lemma strip_attrib_settled keys :
  forall a a', forallb settled_name keys = true ->
  filter prefixed (map fst a) = filter prefixed keys ->
  strip_attrib keys a = Val a' ->
  filter prefixed (map fst a') = [].
Proof.
  induction keys as [|an keys' IH]; simpl; intros a a' ok flt run.
  - injection run as <-. exact flt.
  - apply andb_true_iff in ok as [okn ok'].
    destruct (prefixed an) eqn:pre.
    + destruct (attrib_pop_first a an _ pre flt) as (v & a1 & pop & flt1).
      rewrite pop in run. simpl in run.
      destruct (local_name an) as [l|] eqn:hl; simpl in run; [|discriminate].
      assert (unl : prefixed l = false).
      { apply (strip_tag_settled an l okn). unfold strip_tag. now rewrite pre. }
      eapply IH; [exact ok'| |exact run]. now rewrite attrib_set_prefixed.
    + eapply IH; eauto.
Qed.

Lemma strip_attrib_unprefixed keys :
  forall a, filter prefixed keys = [] -> strip_attrib keys a = Val a.
Proof.
  induction keys as [|an keys' IH]; simpl; intros a flt; [reflexivity|].
  destruct (prefixed an); [discriminate|]. now apply IH.
Qed.

Lemma strip_attrib_keeps keys :
  forall a a' k, strip_attrib keys a = Val a' -> prefixed k = false ->
  In k (map fst a) -> In k (map fst a').
Proof.
  induction keys as [|an keys' IH]; simpl; intros a a' k run hk mem.
  - inversion run; now subst.
  - destruct (prefixed an) eqn:pre; [|eauto].
    destruct (attrib_pop an a) as [[v a1]|] eqn:pop; simpl in run; [|discriminate].
    destruct (local_name an) as [l|]; simpl in run; [|discriminate].
    eapply IH; eauto. apply attrib_set_keeps.
    eapply attrib_pop_keeps; eauto using prefixed_differs.
Qed.

(** Each element keeps its place; its unprefixed tag and its unprefixed
    attribute names are still there after one application. *)
Lemma strip_namespaces_keeps doc doc' :
  strip_namespaces doc = Val doc' ->
  (prefixed (tag doc) = false -> tag doc' = tag doc)
  /\ (forall k, In k (map fst (attrib doc)) -> prefixed k = false ->
                In k (map fst (attrib doc')))
  /\ Forall2 (fun c c' => strip_namespaces c = Val c') (children doc) (children doc').
Proof.
  destruct doc as [t a tx ch tl|tx tl]; [|discriminate]. simpl. intros run.
  destruct (strip_tag t) as [t'|] eqn:ht; simpl in run; [|discriminate].
  destruct (strip_attrib (map fst a) a) as [a'|] eqn:ha; simpl in run; [|discriminate].
  match type of run with vbind ?each _ = _ => destruct each as [ch'|] eqn:hc end;
    simpl in run; [|discriminate].
  inversion run; subst; simpl. repeat split.
  - intros un. rewrite (strip_tag_unprefixed t un) in ht. now inversion ht.
  - intros k mem un. eapply strip_attrib_keeps; eauto.
  - clear run ht ha. revert ch' hc.
    induction ch as [|c ch1 IH]; intros ch' hc.
    + inversion hc. constructor.
    + destruct (strip_namespaces c) as [c'|] eqn:hcc; simpl in hc; [|discriminate].
      match type of hc with vbind ?each _ = _ => destruct each as [l''|] eqn:hl end;
        simpl in hc; [|discriminate].
      inversion hc; subst. constructor; [exact hcc | now apply IH].
Qed.

Lemma strip_namespaces_settles doc :
  forall doc', settled_element doc = true ->
  strip_namespaces doc = Val doc' -> strip_namespaces doc' = Val doc'.
Proof.
  induction doc as [t a tx ch tl IH|tx tl] using element_induction; [|discriminate].
  simpl. intros doc' ok run.
  apply andb_true_iff in ok as [ok okc]. apply andb_true_iff in ok as [okt oka].
  destruct (strip_tag t) as [t'|] eqn:ht; simpl in run; [|discriminate].
  destruct (strip_attrib (map fst a) a) as [a'|] eqn:ha; simpl in run; [|discriminate].
  match type of run with vbind ?each _ = _ => destruct each as [ch'|] eqn:hc end;
    simpl in run; [|discriminate].
  injection run as <-. simpl.
  rewrite (strip_tag_unprefixed t' (strip_tag_settled t t' okt ht)). simpl.
  rewrite (strip_attrib_unprefixed (map fst a') a'
             (strip_attrib_settled (map fst a) a a' oka eq_refl ha)). simpl.
  assert (again :
    (fix each (l : list element) : value (list element) :=
       match l with
       | [] => Val []
       | c :: l' => vbind (strip_namespaces c)
                      (fun c' => vbind (each l') (fun l'' => Val (c' :: l'')))
       end) ch' = Val ch').
  { clear ht ha okt oka. revert ch' hc.
    induction IH as [|c ch1 hcs _ IHch]; intros ch' hc.
    - injection hc as <-. reflexivity.
    - apply andb_true_iff in okc as [okc1 okc2].
      destruct (strip_namespaces c) as [c'|] eqn:hcc; simpl in hc; [|discriminate].
      match type of hc with vbind ?each _ = _ => destruct each as [l''|] eqn:hl end;
        simpl in hc; [|discriminate].
      injection hc as <-.
      rewrite (hcs c' okc1 eq_refl). simpl. rewrite (IHch okc2 l'' eq_refl). reflexivity. }
  rewrite again. reflexivity.
Qed.

(** C10, amended. On every element tree whose names settle (no tag or
    attribute name still starts with a brace once its namespace part, up to
    the first closing brace, is removed) a second application of
    [strip_namespaces] gives what the first one gives.  A single
    application leaves every tag without a namespace prefix as it is, keeps
    every attribute name without a prefix, and treats each child the same
    way in its place. *)
Theorem strip_namespaces_idempotent (doc : element) :
  settled_element doc = true ->
  vbind (strip_namespaces doc) strip_namespaces = strip_namespaces doc
  /\ forall doc', strip_namespaces doc = Val doc' ->
       (PyStr.startswith lbrace (tag doc) = false -> tag doc' = tag doc)
       /\ (forall k, In k (map fst (attrib doc)) -> PyStr.startswith lbrace k = false ->
                     In k (map fst (attrib doc')))
       /\ Forall2 (fun c c' => strip_namespaces c = Val c') (children doc) (children doc').
Proof.
  intros ok. split.
  - destruct (strip_namespaces doc) as [doc'|e] eqn:once; [|reflexivity].
    simpl. now apply (strip_namespaces_settles doc).
  - intros doc'. apply strip_namespaces_keeps.
Qed.

End StripNamespaces.

(** * Further properties of [strip_namespaces] *)

Section StripNamespacesMore.

Local Abbreviation prefixed := (PyStr.startswith lbrace).

Lemma attrib_pop_present an a :
  In an (map fst a) ->
  exists v a1,
    attrib_pop an a = Val (v, a1)
    /\ In (an, v) a
    /\ length a = S (length a1)
    /\ (forall kv, In kv a1 -> In kv a)
    /\ (forall k, count_occ string_dec (map fst a) k
                  = count_occ string_dec (map fst a1) k
                    + (if string_dec an k then 1 else 0)).
Proof.
  induction a as [|[k0 v0] a IH]; simpl; [contradiction|]. intros mem.
  destruct (String.eqb_spec k0 an) as [->|ne].
  - exists v0, a. repeat split; auto.
    intros k. destruct (string_dec an k); lia.
  - destruct mem as [eq|mem]; [contradiction|].
    destruct (IH mem) as (v & a1 & -> & here & len & sub & cnt). simpl.
    exists v, ((k0, v0) :: a1).
    split; [reflexivity|]. split; [auto|]. split; [simpl; now rewrite len|].
    split.
    + intros kv [<-|m]; auto.
    + intros k. simpl. rewrite cnt. destruct (string_dec k0 k), (string_dec an k); lia.
Qed.

Lemma attrib_set_grows l v a :
  (forall k, count_occ string_dec (map fst a) k
             <= count_occ string_dec (map fst (attrib_set l v a)) k)
  /\ length (attrib_set l v a) <= S (length a)
  /\ (forall kv, In kv (attrib_set l v a) -> kv = (l, v) \/ In kv a).
Proof.
  induction a as [|[k0 v0] a (cnt & len & sub)]; simpl.
  - split; [intros k; lia|]. split; [lia|]. intros kv [<-|[]]. auto.
  - destruct (String.eqb_spec k0 l) as [->|ne]; simpl.
    + split; [intros k; lia|]. split; [lia|]. intros kv [<-|m]; auto.
    + split; [|split].
      * intros k. specialize (cnt k). destruct (string_dec k0 k); lia.
      * lia.
      * intros kv [<-|m]; auto. destruct (sub kv m); auto.
Qed.

Lemma count_occ_present (k : string) (l : list string) :
  1 <= count_occ string_dec l k -> In k l.
Proof. intros h. apply (count_occ_In string_dec). lia. Qed.

Lemma closed_name_local an :
  prefixed an = true ->
  (closed_name an = true -> exists l, local_name an = Val l)
  /\ (closed_name an = false -> local_name an = Exc IndexError).
Proof.
  unfold closed_name, local_name. intros ->.
  destruct (PyStr.split1_snd rbrace an); simpl; split; eauto; discriminate.
Qed.

(** The loop over the attributes never misses a key it pops; it stops
    with IndexError at the first name without a closing brace. *)
Lemma strip_attrib_outcome keys :
  forall a,
  (forall k, count_occ string_dec keys k <= count_occ string_dec (map fst a) k) ->
  match strip_attrib keys a with
  | Val a' =>
      forallb closed_name keys = true
      /\ length a' <= length a
      /\ (forall k v, In (k, v) a' -> exists k0, In (k0, v) a)
  | Exc e => forallb closed_name keys = false /\ e = IndexError
  end.
Proof.
  induction keys as [|an keys IH]; intros a enough.
  - simpl. repeat split; eauto.
  - cbn [strip_attrib forallb].
    destruct (prefixed an) eqn:pre.
    + assert (mem : In an (map fst a)).
      { apply count_occ_present. specialize (enough an). simpl in enough.
        destruct (string_dec an an); [lia|contradiction]. }
      destruct (attrib_pop_present an a mem) as (v & a1 & -> & here & len & sub & cnt).
      cbn [vbind fst snd].
      destruct (closed_name_local an pre) as [ok bad].
      destruct (closed_name an) eqn:cl.
      * destruct (ok eq_refl) as (l & ->). cbn [vbind andb].
        destruct (attrib_set_grows l v a1) as (grow & len' & sub').
        specialize (IH (attrib_set l v a1)).
        destruct (strip_attrib keys (attrib_set l v a1)) as [a'|e].
        -- destruct IH as (okk & lena & from).
           { intros k. specialize (enough k). specialize (cnt k). specialize (grow k).
             simpl in enough. destruct (string_dec an k); lia. }
           repeat split; auto; [lia|].
           intros k w m. destruct (from k w m) as (k0 & m0).
           destruct (sub' _ m0) as [eq|m1]; [injection eq as _ <-; eauto|eauto].
        -- apply IH. intros k. specialize (enough k). specialize (cnt k). specialize (grow k).
           simpl in enough. destruct (string_dec an k); lia.
      * rewrite (bad eq_refl). cbn. auto.
    + assert (cl : closed_name an = true) by (unfold closed_name; now rewrite pre).
      rewrite cl. cbn [andb]. apply IH.
      intros k. specialize (enough k). simpl in enough. destruct (string_dec an k); lia.
Qed.

Lemma strip_tag_outcome t :
  match strip_tag t with
  | Val _ => closed_name t = true
  | Exc e => closed_name t = false /\ e = IndexError
  end.
Proof.
  unfold strip_tag, closed_name, local_name.
  destruct (prefixed t); [|reflexivity].
  destruct (PyStr.split1_snd rbrace t); simpl; auto.
Qed.

Lemma strip_attrib_unprefixes keys a a' :
  forallb settled_name keys = true ->
  filter prefixed (map fst a) = filter prefixed keys ->
  strip_attrib keys a = Val a' ->
  forallb unprefixed (map fst a') = true.
Proof.
  intros ok flt run.
  pose proof (strip_attrib_settled keys a a' ok flt run) as none.
  clear run. induction (map fst a') as [|k l IH]; [reflexivity|].
  simpl in none. unfold unprefixed at 1. simpl.
  destruct (prefixed k); [discriminate|]. now apply IH.
Qed.

Lemma strip_namespaces_unprefixes (doc doc' : element) :
  settled_element doc = true ->
  strip_namespaces doc = Val doc' ->
  namespace_free doc' = true.
Proof.
  revert doc'. induction doc as [t a tx ch tl IH|tx tl] using element_induction; [|discriminate].
  simpl. intros doc' ok run.
  apply andb_true_iff in ok as [ok okc]. apply andb_true_iff in ok as [okt oka].
  destruct (strip_tag t) as [t'|] eqn:ht; simpl in run; [|discriminate].
  destruct (strip_attrib (map fst a) a) as [a'|] eqn:ha; simpl in run; [|discriminate].
  match type of run with vbind ?each _ = _ => destruct each as [ch'|] eqn:hc end;
    simpl in run; [|discriminate].
  injection run as <-. simpl.
  unfold unprefixed at 1. rewrite (strip_tag_settled t t' okt ht).
  rewrite (strip_attrib_unprefixes (map fst a) a a' oka eq_refl ha). simpl.
  clear ht ha okt oka. revert ch' hc.
  induction IH as [|c ch1 hcs _ IHch]; intros ch' hc.
  - injection hc as <-. reflexivity.
  - apply andb_true_iff in okc as [okc1 okc2].
    destruct (strip_namespaces c) as [c'|] eqn:hcc; simpl in hc; [|discriminate].
    match type of hc with vbind ?each _ = _ => destruct each as [l''|] eqn:hl end;
      simpl in hc; [|discriminate].
    injection hc as <-. rewrite (hcs c' okc1 eq_refl). simpl. now apply IHch.
Qed.

Lemma name_start_not_brace c : name_start c = true -> Ascii.eqb c lbrace = false.
Proof.
  destruct c as [[] [] [] [] [] [] [] []]; vm_compute; congruence.
Qed.

Lemma plain_name_unprefixed name : plain_name name = true -> prefixed name = false.
Proof.
  destruct name as [|c rest]; [discriminate|]. cbn.
  intros ok. apply andb_true_iff in ok as [first _].
  now apply name_start_not_brace.
Qed.

Lemma clark_name_closed name : clark_name name = true -> closed_name name = true.
Proof.
  unfold clark_name, closed_name. destruct (prefixed name); [|reflexivity].
  now destruct (PyStr.split1_snd rbrace name).
Qed.

Lemma clark_name_settled name : clark_name name = true -> settled_name name = true.
Proof.
  unfold clark_name, settled_name. destruct (prefixed name); [|reflexivity].
  destruct (PyStr.split1_snd rbrace name) as [l|]; [|reflexivity].
  intros ok. now rewrite (plain_name_unprefixed l ok).
Qed.

Lemma clark_names_closed keys :
  forallb clark_name keys = true -> forallb closed_name keys = true.
Proof. apply forallb_weaken, clark_name_closed. Qed.

Lemma clark_names_settled keys :
  forallb clark_name keys = true -> forallb settled_name keys = true.
Proof. apply forallb_weaken, clark_name_settled. Qed.

Lemma clark_element_settled doc : clark_element doc = true -> settled_element doc = true.
Proof.
  induction doc as [t a tx ch tl IH|tx tl] using element_induction; [|discriminate].
  cbn [clark_element settled_element]. intros ok.
  apply andb_true_iff in ok as [ok okc]. apply andb_true_iff in ok as [okt oka].
  rewrite (clark_name_settled t okt), (clark_names_settled _ oka). cbn [andb].
  induction IH as [|c ch1 hc _ IHch]; [reflexivity|].
  apply andb_true_iff in okc as [okc1 okc2].
  rewrite (hc okc1). cbn [andb]. now apply IHch.
Qed.

Lemma strip_namespaces_returns doc :
  clark_element doc = true -> exists doc', strip_namespaces doc = Val doc'.
Proof.
  induction doc as [t a tx ch tl IH|tx tl] using element_induction; [|discriminate].
  cbn [clark_element strip_namespaces]. intros ok.
  apply andb_true_iff in ok as [ok okc]. apply andb_true_iff in ok as [okt oka].
  pose proof (strip_tag_outcome t) as ht.
  destruct (strip_tag t) as [t'|e]; cbn [vbind].
  2: { destruct ht as (open & _). rewrite (clark_name_closed t okt) in open. discriminate. }
  pose proof (strip_attrib_outcome (map fst a) a (fun k => le_n _)) as ha.
  destruct (strip_attrib (map fst a) a) as [a'|e]; cbn [vbind].
  2: { destruct ha as (open & _). rewrite (clark_names_closed _ oka) in open. discriminate. }
  assert (kids : exists ch',
    (fix each (l : list element) : value (list element) :=
       match l with
       | [] => Val []
       | c :: l' => vbind (strip_namespaces c)
                      (fun c' => vbind (each l') (fun l'' => Val (c' :: l'')))
       end) ch = Val ch').
  { induction IH as [|c ch1 hc _ IHch]; [now exists []|].
    apply andb_true_iff in okc as [okc1 okc2].
    destruct (hc okc1) as (c' & ->). destruct (IHch okc2) as (l'' & ->).
    cbn [vbind]. eauto. }
  destruct kids as (ch' & ->). cbn [vbind]. eauto.
Qed.

(** X-strip-succeeds. On a tree of elements whose tags and attribute
    names are plain names, alone or after a namespace in braces,
    [strip_namespaces] raises nothing, and no tag and no attribute name of
    its result starts with a brace.  On a comment, a processing instruction
    or an entity reference it raises AttributeError. *)
Theorem strip_namespaces_succeeds_on_clark_names (doc : element) :
  clark_element doc = true ->
  (exists doc', strip_namespaces doc = Val doc' /\ namespace_free doc' = true)
  /\ forall tx tl, strip_namespaces (ContentOnly tx tl) = Exc AttributeError.
Proof.
  intros ok. split; [|reflexivity].
  destruct (strip_namespaces_returns doc ok) as (doc' & run).
  exists doc'. split; [exact run|].
  exact (strip_namespaces_unprefixes doc doc' (clark_element_settled doc ok) run).
Qed.

(** X-strip-result. When the names of a tree settle and
    [strip_namespaces] succeeds, no tag and no attribute name of the result
    starts with a brace: every namespace is gone. *)
Theorem strip_namespaces_removes_every_prefix (doc doc' : element) :
  settled_element doc = true ->
  strip_namespaces doc = Val doc' ->
  namespace_free doc' = true.
Proof. apply strip_namespaces_unprefixes. Qed.

Lemma strip_namespaces_texts doc :
  forall doc', strip_namespaces doc = Val doc' -> texts doc' = texts doc.
Proof.
  induction doc as [t a tx ch tl IH|tx tl] using element_induction; [|discriminate].
  simpl. intros doc' run.
  destruct (strip_tag t) as [t'|]; simpl in run; [|discriminate].
  destruct (strip_attrib (map fst a) a) as [a'|]; simpl in run; [|discriminate].
  match type of run with vbind ?each _ = _ => destruct each as [ch'|] eqn:hc end;
    simpl in run; [|discriminate].
  injection run as <-. simpl. f_equal.
  revert ch' hc. induction IH as [|c ch1 hcs _ IHch]; intros ch' hc.
  - injection hc as <-. reflexivity.
  - destruct (strip_namespaces c) as [c'|] eqn:hcc; simpl in hc; [|discriminate].
    match type of hc with vbind ?each _ = _ => destruct each as [l''|] eqn:hl end;
      simpl in hc; [|discriminate].
    injection hc as <-. rewrite (hcs c' eq_refl). f_equal. now apply IHch.
Qed.

(** X-strip-content. [strip_namespaces] changes names only: the text and
    the tail of every element of the tree are what they were, in the same
    order; an element has as many children as before and no more
    attributes than before, and each attribute value it carries was the
    value of one of its attributes. *)
Theorem strip_namespaces_keeps_content (doc doc' : element) :
  strip_namespaces doc = Val doc' ->
  texts doc' = texts doc
  /\ length (children doc') = length (children doc)
  /\ length (attrib doc') <= length (attrib doc)
  /\ forall k v, In (k, v) (attrib doc') -> exists k0, In (k0, v) (attrib doc).
Proof.
  intros run. split; [now apply strip_namespaces_texts|].
  destruct (strip_namespaces_keeps doc doc' run) as (_ & _ & kids).
  split; [symmetry; eapply Forall2_length; eauto|].
  destruct doc as [t a tx ch tl|tx tl]; [|discriminate]. simpl in run.
  destruct (strip_tag t) as [t'|]; simpl in run; [|discriminate].
  pose proof (strip_attrib_outcome (map fst a) a (fun k => le_n _)) as ha.
  destruct (strip_attrib (map fst a) a) as [a'|]; simpl in run; [|discriminate].
  match type of run with vbind ?each _ = _ => destruct each as [ch'|] end;
    simpl in run; [|discriminate].
  injection run as <-. simpl. destruct ha as (_ & len & from). auto.
Qed.

End StripNamespacesMore.

(** * The columns of a metadata row *)

Lemma split_without sep a :
  PyStr.free_of (fun c => Ascii.eqb c sep) a = true -> PyStr.split sep a = [a].
Proof.
  induction a as [|c a IH]; [reflexivity|]. simpl. intros h.
  apply andb_true_iff in h as [ne h]. apply negb_true_iff in ne.
  now rewrite ne, (IH h).
Qed.

Lemma split_at_first sep a b :
  PyStr.free_of (fun c => Ascii.eqb c sep) a = true ->
  PyStr.split sep (a ++ String sep b) = a :: PyStr.split sep b.
Proof.
  induction a as [|c a IH]; simpl; intros h.
  - now rewrite Ascii.eqb_refl.
  - apply andb_true_iff in h as [ne h]. apply negb_true_iff in ne.
    now rewrite ne, (IH h).
Qed.

Lemma split_join_bar (values : list string) :
  values <> [] ->
  Forall (fun v => PyStr.free_of has_bar v = true) values ->
  PyStr.split bar (PyStr.join "|" values) = values.
Proof.
  induction values as [|x [|y rest] IH]; intros ne free; [contradiction| |].
  - inversion free; subst. now apply split_without.
  - inversion free as [|? ? fx frest]; subst.
    change (PyStr.join "|" (x :: y :: rest))
      with (x ++ String bar (PyStr.join "|" (y :: rest)))%string.
    rewrite (split_at_first bar x _ fx). f_equal. apply IH; [discriminate|exact frest].
Qed.

(** X-columns. A multi-valued column of the metadata row can be read
    back: when the record has at least one value that is not None for the
    key and none of them holds the separator, splitting the column at the
    bar gives those values, None entries dropped, in their order. *)
Theorem metadata_columns_split_back (record : OAIRecord) (i : nat) (key : string) :
  In (i, key) [(2, "identifier"); (3, "creator"); (4, "title"); (5, "subject")] ->
  not_none_values key record <> [] ->
  Forall (fun v => PyStr.free_of has_bar v = true) (not_none_values key record) ->
  PyStr.split bar (nth i (metadata_row record) "") = not_none_values key record.
Proof.
  intros which some free.
  destruct which as [eq|[eq|[eq|[eq|[]]]]]; injection eq as <- <-;
    now apply split_join_bar.
Qed.

(** * What the load reads of the status file *)

Lemma rstrip_cons c s :
  PyStr.rstrip (String c s)
  = match PyStr.rstrip s with
    | EmptyString => if PyStr.is_space c then EmptyString else String c EmptyString
    | r => String c r
    end.
Proof. reflexivity. Qed.

Lemma rstrip_idempotent s : PyStr.rstrip (PyStr.rstrip s) = PyStr.rstrip s.
Proof.
  induction s as [|c s IH]; [reflexivity|]. rewrite rstrip_cons.
  destruct (PyStr.rstrip s) as [|d r] eqn:rs.
  - destruct (PyStr.is_space c) eqn:sp; [reflexivity|]. simpl. now rewrite sp.
  - rewrite rstrip_cons, IH. reflexivity.
Qed.

Lemma rstrip_free p s :
  PyStr.free_of p s = true -> PyStr.free_of p (PyStr.rstrip s) = true.
Proof.
  induction s as [|c s IH]; [reflexivity|]. rewrite rstrip_cons.
  cbn [PyStr.free_of]. intros h.
  apply andb_true_iff in h as [hc hs]. specialize (IH hs).
  destruct (PyStr.rstrip s) as [|d r].
  - destruct (PyStr.is_space c); [reflexivity|]. simpl. now rewrite hc.
  - cbn [PyStr.free_of] in *. now rewrite hc, IH.
Qed.

Lemma rstrip_line_end s :
  PyStr.rstrip (s ++ String PyStr.LF "") = PyStr.rstrip s.
Proof.
  induction s as [|c s IH]; [reflexivity|].
  cbn [append]. now rewrite !rstrip_cons, IH.
Qed.

Lemma readline_shape content :
  exists line,
    PyStr.free_of line_break line = true
    /\ (PyStr.readline content = line
        \/ PyStr.readline content = (line ++ String PyStr.LF "")%string).
Proof.
  induction content as [|c rest (line & free & shape)].
  - exists "". auto.
  - cbn [PyStr.readline]. fold (line_break c).
    destruct (line_break c) eqn:lb.
    + exists "". auto.
    + exists (String c line). cbn [PyStr.free_of append]. rewrite lb, free.
      split; [reflexivity|]. destruct shape as [->| ->]; auto.
Qed.

Lemma readline_one_line line :
  PyStr.free_of line_break line = true -> PyStr.readline line = line.
Proof.
  induction line as [|c line IH]; [reflexivity|]. cbn [PyStr.free_of PyStr.readline].
  fold (line_break c). intros h. apply andb_true_iff in h as [hc hl].
  apply negb_true_iff in hc. now rewrite hc, (IH hl).
Qed.

(** X-first-line. The load looks at the first line of the status file
    without its trailing white space, and at nothing else: a status file
    loads exactly like the file that holds only that stripped line.  So a
    line break after the checkpoint, or lines after the first, change
    nothing. *)
Theorem load_reads_stripped_first_line (content : string) :
  load_status_file (Some content)
  = load_status_file (Some (PyStr.rstrip (PyStr.readline content))).
Proof.
  unfold load_status_file.
  destruct (readline_shape content) as (line & free & [-> | ->]).
  - rewrite (readline_one_line _ (rstrip_free _ _ free)), rstrip_idempotent. reflexivity.
  - rewrite rstrip_line_end.
    rewrite (readline_one_line _ (rstrip_free _ _ free)), rstrip_idempotent. reflexivity.
Qed.

(** * Which status files load *)

Lemma split_length sep s : length (PyStr.split sep s) = S (occurrences sep s).
Proof.
  induction s as [|c s IH]; [reflexivity|]. cbn [PyStr.split occurrences].
  destruct (Ascii.eqb c sep); cbn [length]; [now rewrite IH|].
  pose proof (split_nonempty sep s) as ne.
  destruct (PyStr.split sep s); [contradiction|]. cbn in *. lia.
Qed.

Lemma join_split sep s :
  PyStr.join (String sep "") (PyStr.split sep s) = s.
Proof.
  induction s as [|c s IH]; [reflexivity|]. cbn [PyStr.split].
  pose proof (split_nonempty sep s) as ne.
  destruct (Ascii.eqb_spec c sep) as [->|diff].
  - destruct (PyStr.split sep s) as [|h t]; [contradiction|].
    change (PyStr.join (String sep "") ("" :: h :: t))
      with (String sep (PyStr.join (String sep "") (h :: t))).
    now rewrite IH.
  - destruct (PyStr.split sep s) as [|h [|h' t]]; [contradiction| |].
    + cbn in *. now rewrite IH.
    + change (PyStr.join (String sep "") (String c h :: h' :: t))
        with (String c (PyStr.join (String sep "") (h :: h' :: t))).
      now rewrite IH.
Qed.

(** X-three-slashes. What the load makes of a status file is decided by
    its first line without trailing white space: an empty line is no
    token, a line with exactly three slashes is a token, and every other
    line is reported as unknown parts. *)
Theorem load_by_slashes (content : string) :
  let line := PyStr.rstrip (PyStr.readline content) in
  match load_status_file (Some content) with
  | Loaded (Some _) => occurrences slash line = 3
  | Loaded None => line = ""
  | UnknownParts parts =>
      occurrences slash line <> 3 /\ line <> "" /\ parts = PyStr.split slash line
  end.
Proof.
  cbv zeta. unfold load_status_file.
  pose proof (split_length slash (PyStr.rstrip (PyStr.readline content))) as len.
  destruct (Nat.eqb_spec (length (PyStr.split slash (PyStr.rstrip (PyStr.readline content)))) 4)
    as [four|other].
  - lia.
  - match goal with |- context [if ?c then _ else _] => destruct c eqn:blank end.
    + now apply split_blank in blank.
    + split; [lia|]. split; [|reflexivity].
      intros empty. rewrite empty in blank. discriminate.
Qed.

Section LoadThenSave.

Context {ext : Externals}.

(** X-load-then-save. A token that was loaded can always be saved, and
    saving it writes back the first line of the file it was loaded from,
    without the trailing white space of that line. *)
Theorem load_then_save (content : string) (rt : ResumptionToken) (p : Process) :
  load_status_file (Some content) = Loaded (Some rt) ->
  snd (save_checkpoint (Some rt)) = Ret tt
  /\ status_on_disk (kill (replay (fst (save_checkpoint (Some rt))) p))
     = Some (PyStr.rstrip (PyStr.readline content)).
Proof.
  unfold load_status_file. intros loaded.
  pose proof (join_split slash (PyStr.rstrip (PyStr.readline content))) as back.
  destruct (PyStr.split slash (PyStr.rstrip (PyStr.readline content)))
    as [|a [|b [|c [|d [|x l]]]]]; cbn in loaded; try discriminate.
  - destruct (a =? "")%string; discriminate.
  - injection loaded as <-.
    destruct (replay_save_checkpoint (mkResumptionToken (Some a) (Some b) (Some c) (Some d))
                a p eq_refl) as (ok & ->).
    split; [exact ok|]. unfold kill. cbn [files status_on_disk].
    now rewrite <- back.
Qed.

End LoadThenSave.

(** * What the sinks hold when the status file is written *)

Lemma leaves_sinks_step e p : leaves_sinks e = true -> sink_view (step e p) = sink_view p.
Proof.
  destruct e as [l|r| |q|f m|f path m|f d|row| | |f|f|f]; try discriminate;
    try destruct f; try discriminate; intros _; try reflexivity.
  - cbn [step]. apply write_status_sinks.
  - cbn [step]. now destruct (flush_status p) eqn:h; rewrite <- h, <- (flush_status_sinks p).
  - cbn [step]. now destruct (flush_status p) eqn:h; rewrite <- h, <- (flush_status_sinks p).
  - cbn [step flush_handle]. apply flush_status_sinks.
  - cbn [step flush_file]. apply flush_status_sinks.
Qed.

Lemma leaves_sinks_replay tr :
  forall p, forallb leaves_sinks tr = true -> sink_view (replay tr p) = sink_view p.
Proof.
  induction tr as [|e tr IH]; intros p ok; [reflexivity|].
  cbn [forallb] in ok. apply andb_true_iff in ok as [he ht].
  rewrite replay_cons, (IH _ ht). now apply leaves_sinks_step.
Qed.

Lemma split_at_call {A : Type} (a b t0 t2 : list A) (e : A) :
  a ++ b = t0 ++ e :: t2 ->
  (exists l, a = t0 ++ e :: l /\ t2 = l ++ b)
  \/ (exists l, t0 = a ++ l /\ b = l ++ e :: t2).
Proof.
  intros eq. apply app_eq_app in eq as (l & [[h1 h2]|[h1 h2]]).
  - destruct l as [|x l].
    + right. exists []. rewrite app_nil_r in h1. cbn in h2. subst. now rewrite app_nil_r.
    + left. cbn in h2. injection h2 as -> ->. eauto.
  - right. eauto.
Qed.

Lemma settled_nil cfg : settled cfg [].
Proof.
  intros p rdy. split; [exact rdy|]. intros [|x t0] e t2 eq; discriminate.
Qed.

Lemma settled_app cfg a b : settled cfg a -> settled cfg b -> settled cfg (a ++ b).
Proof.
  intros sa sb p rdy. destruct (sa p rdy) as (enda & ata).
  destruct (sb _ enda) as (endb & atb).
  split; [now rewrite replay_app|].
  intros t0 e t2 eq call.
  apply split_at_call in eq as [(l & -> & _)|(l & -> & inb)].
  - now apply (ata t0 e l).
  - rewrite replay_app. now apply (atb l e t2).
Qed.

Lemma settled_off_sinks cfg tr : forallb leaves_sinks tr = true -> settled cfg tr.
Proof.
  intros ok p rdy. split.
  - eapply ready_by_view; [symmetry; now apply leaves_sinks_replay|exact rdy].
  - intros t0 e t2 eq _. subst tr. rewrite forallb_app in ok.
    apply andb_true_iff in ok as [ok0 _].
    eapply ready_by_view; [symmetry; now apply leaves_sinks_replay|exact rdy].
Qed.

Lemma settled_off_status cfg tr :
  existsb is_status_call tr = false ->
  (forall p, ready cfg p -> ready cfg (replay tr p)) ->
  settled cfg tr.
Proof.
  intros none whole p rdy. split; [now apply whole|].
  intros t0 e t2 eq call. exfalso. subst tr.
  rewrite existsb_app in none. cbn in none. rewrite call in none.
  now rewrite orb_true_r in none.
Qed.

Lemma settled_bind cfg {A B : Type} (m : M A) (k : A -> M B) :
  settled cfg (fst m) -> (forall a, settled cfg (fst (k a))) ->
  settled cfg (fst (bind m k)).
Proof.
  intros sm sk. unfold bind. destruct m as [l [a|e|]]; cbn [fst snd] in *.
  - apply settled_app; auto.
  - exact sm.
  - exact sm.
Qed.

Section StatusCalls.

Context {ext : Externals}.

Lemma process_record_trace cfg rt record :
  fst (process_record cfg rt record)
  = (fst (write_metadata cfg record) ++ fst (write_record cfg record))
    ++ match snd (write_record cfg record) with
       | Ret _ => fst (save_checkpoint rt)
       | _ => []
       end.
Proof.
  unfold process_record.
  assert (wm : snd (write_metadata cfg record) = Ret tt).
  { unfold write_metadata, when. now destruct (is_some (metadata_output cfg)). }
  rewrite (bind_returns _ _ tt wm). cbn [fst].
  unfold bind at 1. destruct (write_record cfg record) as [l [[]|e|]]; cbn [fst snd];
    rewrite <- ?app_assoc, ?app_nil_r; reflexivity.
Qed.

Lemma save_checkpoint_leaves_sinks rt :
  forallb leaves_sinks (fst (save_checkpoint rt)) = true.
Proof. now apply save_checkpoint_emits. Qed.

Lemma settled_process_record cfg rt record target :
  metadata_output cfg = Some target ->
  settled cfg (fst (process_record cfg rt record)).
Proof.
  intros hm. rewrite process_record_trace. apply settled_app.
  - apply settled_off_status.
    + rewrite (write_metadata_calls cfg record target hm), write_record_calls.
      destruct (record_output cfg); [destruct (record_text cfg record)|]; reflexivity.
    + intros p. now apply (replay_sink_writes cfg record target).
  - destruct (snd (write_record cfg record)); [|apply settled_nil..].
    apply settled_off_sinks, save_checkpoint_leaves_sinks.
Qed.

Lemma settled_for_page cfg rt items target :
  metadata_output cfg = Some target ->
  settled cfg (fst (for_page cfg rt items)).
Proof.
  intros hm. induction items as [|record rest IH]; [apply settled_nil|].
  cbn [for_page]. apply settled_bind; [now apply (settled_process_record _ _ _ target)|auto].
Qed.

Lemma next_response_calls sickle q : fst (next_response sickle q) = [Request q].
Proof. unfold next_response. now destruct (list_records sickle q). Qed.

Lemma settled_for_records fuel cfg sickle target :
  metadata_output cfg = Some target ->
  forall rt items, settled cfg (fst (for_records fuel cfg sickle rt items)).
Proof.
  intros hm. induction fuel as [|f IH]; intros rt items; cbn [for_records];
    (apply settled_bind; [now apply (settled_for_page _ _ _ target)|intros _]);
    destruct (continuation rt); try apply settled_nil.
  apply settled_bind; [|intros pg; apply IH].
  rewrite next_response_calls. now apply settled_off_sinks.
Qed.

Lemma tqdm_arguments_silent rt : fst (tqdm_arguments rt) = [].
Proof.
  destruct (tqdm_arguments_cases rt) as [(-> & _)|(e & ->)]; reflexivity.
Qed.

Lemma settled_harvest fuel cfg sickle prefix rt target :
  metadata_output cfg = Some target ->
  settled cfg (fst (harvest fuel cfg sickle prefix rt)).
Proof.
  intros hm. unfold harvest.
  apply settled_bind; [rewrite next_response_calls; now apply settled_off_sinks|intros pg].
  apply settled_bind; [|intros pg'].
  - unfold reposition. destruct rt as [stored|]; [|apply settled_nil].
    apply settled_bind;
      [|intros _; rewrite next_response_calls; now apply settled_off_sinks].
    destruct (snd pg); [|apply settled_nil].
    unfold when. destruct (negb _); [now apply settled_off_sinks|apply settled_nil].
  - unfold stream. apply settled_bind; [|intros _; now apply (settled_for_records _ _ _ target)].
    rewrite tqdm_arguments_silent. apply settled_nil.
Qed.

Lemma crawl_finna_status_calls fuel cfg sickle fs :
  existsb is_status_call (fst (crawl_finna fuel cfg sickle fs)) = false
  \/ exists prefix target rt,
       metadata_prefix cfg = Some prefix
       /\ metadata_output cfg = Some target
       /\ load_status_file (status_on_disk fs) = Loaded rt.
Proof.
  unfold crawl_finna.
  destruct (metadata_prefix cfg) as [prefix|].
  2: { left. destruct (metadata_formats sickle), (set_names sickle); reflexivity. }
  destruct (metadata_output cfg) as [target|] eqn:hm.
  2: { left. cbn [is_some negb andb]. unfold write_header. rewrite hm.
       destruct (record_output cfg); cbn [is_some negb];
         destruct (load_status_file (status_on_disk fs)); reflexivity. }
  destruct (load_status_file (status_on_disk fs)) as [rt|parts].
  2: { left. reflexivity. }
  right. exists prefix, target, rt. auto.
Qed.

Lemma header_rows cfg fs target :
  metadata_output cfg = Some target ->
  content_or_empty [] (metadata_on_disk fs) ++ rows_written (fst (write_header cfg fs))
  = table_start fs.
Proof.
  intros hm. unfold write_header, table_start. rewrite hm.
  destruct (metadata_on_disk fs); cbn; [apply app_nil_r|reflexivity].
Qed.

Lemma header_opening_calls cfg fs :
  existsb is_status_call (fst (write_header cfg fs) ++ opening cfg) = false
  /\ rows_written (opening cfg) = []
  /\ text_written (fst (write_header cfg fs) ++ opening cfg) = "".
Proof.
  unfold write_header, opening.
  destruct (metadata_output cfg), (record_output cfg), (metadata_on_disk fs);
    repeat split.
Qed.

(** X-sinks-hold. With sinks that are not compressed, whenever a call is
    made on the status file after it was opened (the calls of a checkpoint write,
    lines 145-159, and the truncate of line 162), the files of the sinks
    hold every row and every text the run has handed to them so far: the
    flush of lines 129 and 143 has written them out. *)
Theorem plain_sinks_hold_every_write
    (fuel : nat) (cfg : Config) (sickle : Server) (fs : Disk)
    (t0 t2 : list event) (e : event) :
  plain_sinks cfg = true ->
  fst (crawl_finna fuel cfg sickle fs) = t0 ++ e :: t2 ->
  is_status_call e = true ->
  let fs' := killed_after (length t0) (crawl_finna fuel cfg sickle fs) fs in
  metadata_on_disk fs'
  = Some (content_or_empty [] (metadata_on_disk fs) ++ rows_written t0)
  /\ records_on_disk fs'
     = match record_output cfg with
       | Some _ => Some (content_or_empty "" (records_on_disk fs) ++ text_written t0)%string
       | None => records_on_disk fs
       end.
Proof.
  intros plain shape call. cbv zeta.
  unfold killed_after, kill. rewrite shape, firstn_prefix.
  destruct (crawl_finna_status_calls fuel cfg sickle fs)
    as [none|(prefix & target & rt & hp & hm & hl)].
  { exfalso. rewrite shape, existsb_app in none. cbn in none. rewrite call in none.
    now rewrite orb_true_r in none. }
  pose proof (crawl_finna_trace fuel cfg sickle fs prefix target rt hp hm hl) as trace.
  rewrite trace in shape. cbn [fst] in shape.
  set (H := harvest fuel cfg sickle prefix rt) in *.
  destruct (header_opening_calls cfg fs) as (quiet & norows & notext).
  rewrite app_assoc in shape.
  apply split_at_call in shape as [(l & inside & _)|(x & -> & later)].
  { exfalso. rewrite inside, existsb_app in quiet. cbn in quiet. rewrite call in quiet.
    now rewrite orb_true_r in quiet. }
  rewrite app_assoc in later.
  assert (body : settled cfg (fst H ++ ending (snd H))).
  { apply settled_app; [now apply (settled_harvest _ _ _ _ _ target)|].
    apply settled_off_sinks. now destruct (snd H) as [[]|[]|]. }
  assert (inside : exists y, fst H ++ ending (snd H) = x ++ e :: y).
  { apply split_at_call in later as [(l & found & _)|(l & _ & found)]; [eauto|].
    exfalso. unfold closing in found.
    assert (none : existsb is_status_call
                     (option_events (record_output cfg) (Close RecordFile)
                      ++ option_events (metadata_output cfg) (Close MetadataFile)
                      ++ [Close StatusFile]) = false)
      by (now destruct (record_output cfg), (metadata_output cfg)).
    rewrite found, existsb_app in none. cbn in none. rewrite call in none.
    now rewrite orb_true_r in none. }
  destruct inside as (y & inside).
  set (p0 := replay (fst (write_header cfg fs) ++ opening cfg) (start fs)).
  pose proof (ready_after_opening cfg fs target hm plain) as rdy0. fold p0 in rdy0.
  destruct (body p0 rdy0) as (_ & at_call).
  specialize (at_call x e y inside call).
  rewrite replay_app. fold p0.
  destruct at_call as (fl & _ & _).
  destruct (held_flushed _ fl) as (th & sh).
  destruct (opened_state cfg fs target hm) as (_ & _ & table & fl0 & _ & _ & _ & rec).
  fold p0 in table, fl0, rec.
  destruct (held_flushed _ fl0) as (th0 & sh0). rewrite table in th0. rewrite rec in sh0.
  assert (kx : existsb opens_sink x = false).
  { assert (all : existsb opens_sink (fst H ++ ending (snd H)) = false).
    { pose proof (in_harvest_keeps_sinks _ (harvest_emits fuel cfg sickle prefix rt)) as kh.
      fold H in kh. rewrite existsb_app, kh.
      now destruct (snd H) as [[]|[]|]. }
    rewrite inside, existsb_app in all. now apply orb_false_iff in all as [-> _]. }
  split.
  - rewrite <- th, (replay_table x p0 _ kx th0).
    rewrite !rows_written_app, norows, app_nil_r.
    now rewrite app_assoc, (header_rows cfg fs target hm).
  - destruct (record_output cfg) as [path|] eqn:hr.
    + rewrite <- sh, (replay_stream x p0 _ kx sh0).
      now rewrite text_written_app, notext.
    + rewrite <- rec.
      assert (off : existsb on_records x = false).
      { assert (all : existsb on_records (fst H ++ ending (snd H)) = false).
        { pose proof (harvest_off_records fuel cfg sickle prefix rt hr) as oh.
          fold H in oh. rewrite existsb_app, oh.
          now destruct (snd H) as [[]|[]|]. }
        rewrite inside, existsb_app in all. now apply orb_false_iff in all as [-> _]. }
      now destruct (replay_off_records x p0 off) as (-> & _).
Qed.

End StatusCalls.

(** * The properties at sample inputs *)

Section Samples.

Import Sample.

#[local] Existing Instance externals.

Example creators_joined :
  metadata_row r1 = ["r1"; "2020-01-01T00:00:00Z"; ""; "Smith, J.|Lee, A."; "r1"; ""].
Proof. reflexivity. Qed.

Example load_scenario :
  load_status_file (Some "abc123/50/500/")
  = Loaded (Some (mkResumptionToken (Some "abc123") (Some "50") (Some "500") (Some ""))).
Proof. reflexivity. Qed.

Example uninterrupted_table :
  metadata_on_disk (final_disk (crawl_finna 5 both_sinks three_pages empty_disk) empty_disk)
  = Some [header_row; row_of "r1" "Smith, J.|Lee, A."; row_of "r2" "";
          row_of "r3" ""; row_of "r4" ""].
Proof. reflexivity. Qed.

(** Four records come in the pages [r1 r2], [r3], [r4].  Killed after the
    checkpoint of the first record, the process leaves the token of the
    first page in the status file; the restart requests the page after it
    and never writes [r2], whatever its fuel. *)
Example kill_within_page_skips_a_record :
  let run := crawl_finna 5 both_sinks three_pages empty_disk in
  let fs' := killed_after 24 run empty_disk in
  nth_error (fst run) 23 = Some (Fsync StatusFile)
  /\ status_on_disk fs' = Some "t1/0/4/"
  /\ metadata_on_disk fs' = Some [header_row; row_of "r1" "Smith, J.|Lee, A."]
  /\ snd run = Ret tt
  /\ metadata_on_disk (final_disk run empty_disk)
     = Some [header_row; row_of "r1" "Smith, J.|Lee, A."; row_of "r2" "";
             row_of "r3" ""; row_of "r4" ""]
  /\ snd (crawl_finna 5 both_sinks three_pages fs') = Ret tt
  /\ metadata_on_disk (final_disk (crawl_finna 5 both_sinks three_pages fs') fs')
     = Some [header_row; row_of "r1" "Smith, J.|Lee, A."; row_of "r3" ""; row_of "r4" ""]
  /\ forall fuel',
       metadata_on_disk (final_disk (crawl_finna fuel' both_sinks three_pages fs') fs')
       <> metadata_on_disk (final_disk run empty_disk).
Proof.
  cbv zeta. repeat split; try reflexivity.
  intros [|[|fuel']]; vm_compute; discriminate.
Qed.

Lemma kill_within_page_loses_records_witness :
  let run := crawl_finna 5 both_sinks three_pages empty_disk in
  let fs' := killed_after 24 run empty_disk in
  let rerun := crawl_finna 4 both_sinks three_pages fs' in
  nth_error (fst run) 23 = Some (Fsync StatusFile)
  /\ status_on_disk fs' = Some "t1/0/4/"
  /\ metadata_on_disk fs' = Some [header_row; row_of "r1" "Smith, J.|Lee, A."]
  /\ snd rerun = Ret tt
  /\ metadata_on_disk (final_disk rerun fs')
     = Some [header_row; row_of "r1" "Smith, J.|Lee, A."; row_of "r3" ""; row_of "r4" ""]
  /\ metadata_on_disk (final_disk rerun fs') <> metadata_on_disk (final_disk run empty_disk).
Proof.
  cbv zeta.
  destruct (kill_within_page_loses_records (ext := externals) 4 both_sinks three_pages empty_disk
              "oai_dc" "metadata.tsv" "t1" [] [r2] [r3] r1
              (token_of "t1" "0") (token_of "t2" "2")
              eq_refl eq_refl eq_refl eq_refl eq_refl eq_refl eq_refl eq_refl eq_refl
              eq_refl eq_refl eq_refl eq_refl)
    as (_ & _ & _ & _ & _ & _ & _ & _ & _ & _ & _ & differs).
  repeat split; try reflexivity.
  apply differs. discriminate.
Defined.

(** C3, at the inputs where it fails. With compressed sinks, which the
    help of the options offers, the flush of lines 129 and 143 leaves
    what was written in the compressor and the fsync of lines 130 and 144
    forces a file that holds none of it.  The process is killed right after
    the checkpoint write for the first record of the page [r1 r2]: all the
    calls of lines 121-159 were made for [r1], the status file holds the
    token of the page, and neither sink holds a byte of [r1].  The restart
    requests the page after [r1 r2] and ends normally with a metadata table
    and a record stream that lack both records, which the uninterrupted run
    writes.  With sinks that are not compressed the bytes of [r1] are in
    the files at that point, but the checkpoint is the same token: it
    covers [r2], of which nothing is written, and the restart leaves [r2]
    out. *)
Theorem checkpoint_outruns_the_sinks :
  let run := crawl_finna 5 packed_sinks three_pages empty_disk in
  let fs' := killed_after 24 run empty_disk in
  let rerun := crawl_finna 5 packed_sinks three_pages fs' in
  let plain_run := crawl_finna 5 both_sinks three_pages empty_disk in
  let plain_fs' := killed_after 24 plain_run empty_disk in
  let plain_rerun := crawl_finna 5 both_sinks three_pages plain_fs' in
  firstn 24 (fst run)
  = [Xopen MetadataFile "metadata.tsv.bz2" WT; WriteRow header_row; Close MetadataFile;
     Open StatusFile WT; Xopen MetadataFile "metadata.tsv.bz2" AT;
     Xopen RecordFile "records.xml.bz2" AT;
     Request (Initial "oai_dc" None);
     WriteRow (row_of "r1" "Smith, J.|Lee, A."); Flush MetadataFile; Fsync MetadataFile;
     Write RecordFile "<dc/>"; Write RecordFile newline; Flush RecordFile; Fsync RecordFile;
     Truncate0; Seek0;
     Write StatusFile "t1"; Write StatusFile "/"; Write StatusFile "0"; Write StatusFile "/";
     Write StatusFile "4"; Write StatusFile "/";
     Flush StatusFile; Fsync StatusFile]
  /\ status_on_disk fs' = Some "t1/0/4/"
  /\ metadata_on_disk fs' = Some [header_row]
  /\ records_on_disk fs' = Some ""
  /\ snd rerun = Ret tt
  /\ metadata_on_disk (final_disk rerun fs')
     = Some [header_row; row_of "r3" ""; row_of "r4" ""]
  /\ records_on_disk (final_disk rerun fs') = Some ("<dc/>" ++ newline ++ "<dc/>" ++ newline)%string
  /\ snd run = Ret tt
  /\ metadata_on_disk (final_disk run empty_disk)
     = Some [header_row; row_of "r1" "Smith, J.|Lee, A."; row_of "r2" "";
             row_of "r3" ""; row_of "r4" ""]
  /\ records_on_disk (final_disk run empty_disk)
     = Some ("<dc/>" ++ newline ++ "<dc/>" ++ newline
             ++ "<dc/>" ++ newline ++ "<dc/>" ++ newline)%string
  /\ status_on_disk plain_fs' = Some "t1/0/4/"
  /\ metadata_on_disk plain_fs' = Some [header_row; row_of "r1" "Smith, J.|Lee, A."]
  /\ records_on_disk plain_fs' = Some ("<dc/>" ++ newline)%string
  /\ snd plain_rerun = Ret tt
  /\ metadata_on_disk (final_disk plain_rerun plain_fs')
     = Some [header_row; row_of "r1" "Smith, J.|Lee, A."; row_of "r3" ""; row_of "r4" ""]
  /\ records_on_disk (final_disk plain_rerun plain_fs')
     = Some ("<dc/>" ++ newline ++ "<dc/>" ++ newline ++ "<dc/>" ++ newline)%string.
Proof. cbv zeta. repeat split. Qed.

Lemma plain_sinks_hold_every_write_witness :
  let run := crawl_finna 5 both_sinks three_pages empty_disk in
  let t0 := firstn 14 (fst run) in
  let fs' := killed_after (length t0) run empty_disk in
  nth_error (fst run) 14 = Some Truncate0
  /\ rows_written t0 = [header_row; row_of "r1" "Smith, J.|Lee, A."]
  /\ text_written t0 = ("<dc/>" ++ newline)%string
  /\ metadata_on_disk fs'
     = Some (content_or_empty [] (metadata_on_disk empty_disk) ++ rows_written t0)
  /\ records_on_disk fs'
     = match record_output both_sinks with
       | Some _ => Some (content_or_empty "" (records_on_disk empty_disk)
                         ++ text_written t0)%string
       | None => records_on_disk empty_disk
       end.
Proof.
  cbv zeta. split; [reflexivity|]. split; [reflexivity|]. split; [reflexivity|].
  apply (plain_sinks_hold_every_write 5 both_sinks three_pages empty_disk
           (firstn 14 (fst (crawl_finna 5 both_sinks three_pages empty_disk)))
           (skipn 15 (fst (crawl_finna 5 both_sinks three_pages empty_disk)))
           Truncate0); reflexivity.
Defined.

Lemma three_pages_safe :
  forall q items r, list_records three_pages q = Page items (Some r) -> checkpoint_safe r = true.
Proof.
  intros [p s|[t|]] items r; cbn.
  - intros h. injection h as _ <-. reflexivity.
  - destruct (String.eqb t "t1"); [intros h; injection h as _ <-; reflexivity|].
    destruct (String.eqb t "t2"); discriminate.
  - discriminate.
Qed.

Lemma resume_at_page_end_witness :
  let run := crawl_finna 5 both_sinks three_pages empty_disk in
  let t0 := firstn 40 (fst run) in
  let t2 := skipn 42 (fst run) in
  let fs' := killed_after (S (length t0)) run empty_disk in
  fst run = t0 ++ Fsync StatusFile :: Request (Resume (Some "t1")) :: t2
  /\ counts_present (list_records three_pages (Resume (Some "t1"))) = true
  /\ (exists r, status_on_disk fs' = Some (checkpoint_line r) /\ token r = Some "t1")
  /\ exists fuel',
       let rerun := crawl_finna fuel' both_sinks three_pages fs' in
       snd rerun = snd run
       /\ metadata_on_disk (final_disk rerun fs') = metadata_on_disk (final_disk run empty_disk)
       /\ records_on_disk (final_disk rerun fs') = records_on_disk (final_disk run empty_disk).
Proof.
  cbv zeta. split; [reflexivity|]. split; [reflexivity|].
  apply (resume_at_page_end 5 both_sinks three_pages empty_disk
           (firstn 40 (fst (crawl_finna 5 both_sinks three_pages empty_disk)))
           (skipn 42 (fst (crawl_finna 5 both_sinks three_pages empty_disk))) "t1").
  - reflexivity.
  - exact three_pages_safe.
  - reflexivity.
  - reflexivity.
Defined.

Lemma abort_empties_checkpoint_witness :
  let run := crawl_finna 5 both_sinks failing_after_first_page empty_disk in
  snd (harvest 5 both_sinks failing_after_first_page "oai_dc" None) = Raise HTTPError
  /\ status_on_disk (killed_after 41 run empty_disk) = Some "t1/0/4/"
  /\ snd run = Ret tt
  /\ In (Log (LoggedException HTTPError)) (fst run)
  /\ status_on_disk (final_disk run empty_disk) = Some "".
Proof.
  cbv zeta. split; [reflexivity|]. split; [reflexivity|].
  apply (abort_empties_checkpoint 5 both_sinks failing_after_first_page empty_disk
           "oai_dc" "metadata.tsv" None); reflexivity.
Defined.

(** C4 as stated fails. A token whose text holds a slash is written as it
    is; the line then splits into five parts and the load reports them
    instead of returning the token. *)
Lemma slash_in_token_breaks_roundtrip :
  snd (save_checkpoint (Some slashed)) = Ret tt
  /\ status_on_disk (kill (replay (fst (save_checkpoint (Some slashed))) (start empty_disk)))
     = Some "a/b/50/500/"
  /\ load_status_file (Some "a/b/50/500/") = UnknownParts ["a"; "b"; "50"; "500"; ""].
Proof. repeat split. Qed.

Lemma checkpoint_roundtrip_witness :
  token abc123 = Some "abc123"
  /\ checkpoint_safe abc123 = true
  /\ snd (save_checkpoint (Some abc123)) = Ret tt
  /\ load_status_file
       (status_on_disk (kill (replay (fst (save_checkpoint (Some abc123))) (start empty_disk))))
     = Loaded (Some (mkResumptionToken (Some "abc123") (Some "50") (Some "500") (Some ""))).
Proof.
  split; [reflexivity|]. split; [reflexivity|].
  apply (checkpoint_roundtrip abc123 "abc123" (start empty_disk)); reflexivity.
Defined.

(** C5 as stated fails. A status file that holds one space exists, is not
    empty, and its line does not split into four parts; the run logs no
    error and harvests from the start, as it does without a status file. *)
Lemma blank_checkpoint_restarts_silently :
  status_on_disk blank_status_disk = Some " "
  /\ length (PyStr.split slash " ") <> 4
  /\ crawl_finna 5 both_sinks three_pages blank_status_disk
     = crawl_finna 5 both_sinks three_pages empty_disk
  /\ In (Request (Initial "oai_dc" None))
        (fst (crawl_finna 5 both_sinks three_pages blank_status_disk))
  /\ forall parts, ~ In (Log (ErrorUnknownParts parts))
                        (fst (crawl_finna 5 both_sinks three_pages blank_status_disk)).
Proof.
  split; [reflexivity|]. split; [discriminate|]. split; [reflexivity|].
  split; [vm_compute; tauto|].
  intros parts. vm_compute. intuition discriminate.
Qed.

Lemma corrupt_checkpoint_reported_witness :
  crawl_finna 5 both_sinks three_pages short_status_disk
  = ([Log (ErrorUnknownParts ["abc123"; "50"; "500"])], Ret tt).
Proof.
  apply (corrupt_checkpoint_reported 5 both_sinks three_pages short_status_disk
           "oai_dc" "abc123/50/500"); try reflexivity; discriminate.
Defined.

Lemma record_sink_alone_fails_witness :
  crawl_finna 5 records_only three_pages empty_disk = ([], Raise TypeError).
Proof.
  apply (record_sink_alone_fails 5 records_only three_pages empty_disk
           "oai_dc" "records.xml" None); reflexivity.
Defined.



Lemma opening_erases_checkpoint_witness :
  let run := crawl_finna 5 both_sinks drifted interrupted_disk in
  status_on_disk interrupted_disk = Some "abc123/50/500/"
  /\ In (Open StatusFile WT) (firstn 6 (fst run))
  /\ existsb is_status_write (firstn 6 (fst run)) = false
  /\ status_on_disk (killed_after 6 run interrupted_disk) = Some "".
Proof.
  cbv zeta. split; [reflexivity|]. split; [vm_compute; tauto|]. split; [reflexivity|].
  apply (opening_erases_checkpoint 5 both_sinks drifted interrupted_disk 6).
  - vm_compute. tauto.
  - reflexivity.
Defined.

(** C10 as stated fails. The tag [{a}{b}c] loses [{a}] in the first
    application and [{b}] in the second. *)
Lemma braces_in_namespace_strip_twice :
  strip_namespaces braces_in_namespace = Val (Element "{b}c" [] None [] None)
  /\ vbind (strip_namespaces braces_in_namespace) strip_namespaces
     = Val (Element "c" [] None [] None)
  /\ vbind (strip_namespaces braces_in_namespace) strip_namespaces
     <> strip_namespaces braces_in_namespace.
Proof. repeat split. discriminate. Qed.

Lemma strip_namespaces_idempotent_witness :
  settled_element (xml r1) = true
  /\ vbind (strip_namespaces (xml r1)) strip_namespaces = strip_namespaces (xml r1)
  /\ forall doc', strip_namespaces (xml r1) = Val doc' ->
       (PyStr.startswith lbrace (tag (xml r1)) = false -> tag doc' = tag (xml r1))
       /\ (forall k, In k (map fst (attrib (xml r1))) -> PyStr.startswith lbrace k = false ->
                     In k (map fst (attrib doc')))
       /\ Forall2 (fun c c' => strip_namespaces c = Val c')
            (children (xml r1)) (children doc').
Proof.
  split; [reflexivity | apply (strip_namespaces_idempotent (xml r1)); reflexivity].
Defined.

Example stripped_payload :
  strip_namespaces (Element "{http://www.openarchives.org/OAI/2.0/oai_dc/}dc"
                      [("{http://www.w3.org/2001/XMLSchema-instance}schemaLocation", "x");
                       ("id", "7")] None
                      [leaf "{http://purl.org/dc/elements/1.1/}title"] None)
  = Val (Element "dc" [("id", "7"); ("schemaLocation", "x")] None [leaf "title"] None).
Proof. reflexivity. Qed.

Example open_brace_fails :
  strip_namespaces (leaf "{unclosed") = Exc IndexError.
Proof. reflexivity. Qed.

Example comment_fails :
  strip_namespaces (Element "{ns}dc" [] None [ContentOnly (Some "a comment") None] None)
  = Exc AttributeError.
Proof. reflexivity. Qed.

Example trailing_lines_ignored :
  load_status_file (Some ("abc123/50/500/" ++ newline ++ "left over")%string)
  = load_status_file (Some "abc123/50/500/").
Proof. reflexivity. Qed.

Lemma strip_namespaces_succeeds_on_clark_names_witness :
  clark_element (xml r1) = true
  /\ (exists doc', strip_namespaces (xml r1) = Val doc' /\ namespace_free doc' = true)
  /\ forall tx tl, strip_namespaces (ContentOnly tx tl) = Exc AttributeError.
Proof.
  split; [reflexivity|].
  apply (strip_namespaces_succeeds_on_clark_names (xml r1)). reflexivity.
Defined.

Lemma strip_namespaces_removes_every_prefix_witness :
  settled_element (xml r1) = true
  /\ exists doc', strip_namespaces (xml r1) = Val doc' /\ namespace_free doc' = true.
Proof.
  split; [reflexivity|]. eexists. split; [reflexivity|].
  apply (strip_namespaces_removes_every_prefix (xml r1)); reflexivity.
Defined.

Lemma strip_namespaces_keeps_content_witness :
  exists doc',
    strip_namespaces (xml r1) = Val doc'
    /\ texts doc' = texts (xml r1)
    /\ length (children doc') = length (children (xml r1))
    /\ length (attrib doc') <= length (attrib (xml r1))
    /\ forall k v, In (k, v) (attrib doc') -> exists k0, In (k0, v) (attrib (xml r1)).
Proof.
  eexists. split; [reflexivity|].
  apply (strip_namespaces_keeps_content (xml r1)). reflexivity.
Defined.

Lemma metadata_columns_split_back_witness :
  not_none_values "creator" r1 = ["Smith, J."; "Lee, A."]
  /\ PyStr.split bar (nth 3 (metadata_row r1) "") = not_none_values "creator" r1.
Proof.
  split; [reflexivity|].
  apply (metadata_columns_split_back r1 3 "creator").
  - simpl. tauto.
  - discriminate.
  - repeat constructor.
Defined.

Lemma early_exit_touches_nothing_witness :
  load_status_file (status_on_disk short_status_disk) = UnknownParts ["abc123"; "50"; "500"]
  /\ forallb is_inert (fst (crawl_finna 5 both_sinks three_pages short_status_disk)) = true
  /\ existsb is_request (fst (crawl_finna 5 both_sinks three_pages short_status_disk)) = false
  /\ killed_after 1 (crawl_finna 5 both_sinks three_pages short_status_disk) short_status_disk
     = short_status_disk
  /\ final_disk (crawl_finna 5 both_sinks three_pages short_status_disk) short_status_disk
     = short_status_disk.
Proof.
  split; [reflexivity|].
  apply (early_exit_touches_nothing 5 both_sinks three_pages short_status_disk 1).
  right. right. eexists. reflexivity.
Defined.

Lemma return_leaves_empty_checkpoint_witness :
  snd (crawl_finna 5 both_sinks three_pages empty_disk) = Ret tt
  /\ status_on_disk (final_disk (crawl_finna 5 both_sinks three_pages empty_disk) empty_disk)
     = Some "".
Proof.
  split; [reflexivity|].
  apply (return_leaves_empty_checkpoint 5 both_sinks three_pages empty_disk
           "oai_dc" "metadata.tsv" None); reflexivity.
Defined.

Lemma checkpoint_write_never_torn_witness :
  status_on_disk (kill (replay (firstn 5 (fst (save_checkpoint (Some abc123))))
                          (start interrupted_disk))) = Some ""
  /\ (status_on_disk (kill (replay (firstn 9 (fst (save_checkpoint (Some abc123))))
                              (start interrupted_disk))) = Some ""
      \/ exists r, Some abc123 = Some r
           /\ status_on_disk (kill (replay (firstn 9 (fst (save_checkpoint (Some abc123))))
                                      (start interrupted_disk)))
              = Some (checkpoint_line r)).
Proof.
  split; [reflexivity|].
  apply (checkpoint_write_never_torn (Some abc123) (start interrupted_disk) 9); [lia|].
  intros r same. injection same as <-. reflexivity.
Defined.

(** A token of 8192 characters leaves the text layer as soon as it is
    written: a process killed after line 148 leaves the token without its
    slash in the status file. *)
Example long_token_is_torn :
  status_on_disk (kill (replay (firstn 3 (fst (save_checkpoint (Some long_token))))
                          (start empty_disk)))
  = Some (copies (N.to_nat 8192) "a"%char).
Proof. vm_compute. reflexivity. Qed.

Lemma textless_token_breaks_the_checkpoint_witness :
  let p := start interrupted_disk in
  let run := process_record both_sinks (Some textless) r4 in
  snd run = Raise TypeError
  /\ status_on_disk (kill (replay (fst run) p)) = Some ""
  /\ table_held (replay (fst run) p) = Some ([header_row] ++ [metadata_row r4])
  /\ (metadata_packed p = false ->
      metadata_on_disk (kill (replay (fst run) p)) = Some ([header_row] ++ [metadata_row r4])).
Proof.
  cbv zeta.
  apply (textless_token_breaks_the_checkpoint both_sinks textless r4 (start interrupted_disk)
           "metadata.tsv" [header_row]); reflexivity.
Defined.

Lemma completed_harvest_output_witness :
  snd (harvest 5 both_sinks three_pages "oai_dc" None) = Ret tt
  /\ listing 5 three_pages (Some (token_of "t1" "0")) [r1; r2] = [r1; r2; r3; r4]
  /\ exists items rt,
       list_records three_pages (starting_request both_sinks "oai_dc" None) = Page items rt
       /\ metadata_on_disk (final_disk (crawl_finna 5 both_sinks three_pages empty_disk) empty_disk)
          = Some (table_start empty_disk ++ map metadata_row (listing 5 three_pages rt items))
       /\ records_on_disk (final_disk (crawl_finna 5 both_sinks three_pages empty_disk) empty_disk)
          = stream_with both_sinks (records_on_disk empty_disk) (listing 5 three_pages rt items).
Proof.
  split; [reflexivity|]. split; [reflexivity|].
  apply (completed_harvest_output 5 both_sinks three_pages empty_disk
           "oai_dc" "metadata.tsv" None); reflexivity.
Defined.

Lemma other_failure_keeps_checkpoint_witness :
  let run := crawl_finna 5 both_sinks connection_lost empty_disk in
  fst run = firstn 40 (fst run)
            ++ Fsync StatusFile :: Request (Resume (Some "t1")) :: skipn 42 (fst run)
  /\ snd run = Raise TransportError
  /\ skipn 42 (fst run) = closing both_sinks
  /\ exists r,
       token r = Some "t1"
       /\ status_on_disk (final_disk run empty_disk) = Some (checkpoint_line r).
Proof.
  cbv zeta. split; [reflexivity|].
  apply (other_failure_keeps_checkpoint 5 both_sinks connection_lost empty_disk
           (firstn 40 (fst (crawl_finna 5 both_sinks connection_lost empty_disk)))
           (skipn 42 (fst (crawl_finna 5 both_sinks connection_lost empty_disk)))
           "t1" TransportError); [reflexivity|reflexivity|discriminate].
Defined.

Example checkpoint_kept_after_lost_connection :
  status_on_disk (final_disk (crawl_finna 5 both_sinks connection_lost empty_disk) empty_disk)
  = Some "t1/0/4/".
Proof. reflexivity. Qed.

Lemma load_then_save_witness :
  load_status_file (Some ("abc123/50/500/ " ++ newline)%string)
  = Loaded (Some (mkResumptionToken (Some "abc123") (Some "50") (Some "500") (Some "")))
  /\ snd (save_checkpoint
            (Some (mkResumptionToken (Some "abc123") (Some "50") (Some "500") (Some ""))))
     = Ret tt
  /\ status_on_disk
       (kill (replay (fst (save_checkpoint
                (Some (mkResumptionToken (Some "abc123") (Some "50") (Some "500") (Some "")))))
                (start empty_disk)))
     = Some (PyStr.rstrip (PyStr.readline ("abc123/50/500/ " ++ newline)%string)).
Proof.
  split; [reflexivity|].
  apply (load_then_save ("abc123/50/500/ " ++ newline)%string
           (mkResumptionToken (Some "abc123") (Some "50") (Some "500") (Some ""))
           (start empty_disk)).
  reflexivity.
Defined.

Lemma first_response_without_counts_witness :
  exists e,
    snd (crawl_finna 5 both_sinks single_page empty_disk) = Raise e
    /\ (e = AttributeError \/ e = TypeError \/ e = ValueError)
    /\ (@None ResumptionToken = None -> e = AttributeError)
    /\ metadata_on_disk (final_disk (crawl_finna 5 both_sinks single_page empty_disk) empty_disk)
       = Some (table_start empty_disk)
    /\ status_on_disk (final_disk (crawl_finna 5 both_sinks single_page empty_disk) empty_disk)
       = Some "".
Proof.
  apply (first_response_without_counts 5 both_sinks single_page empty_disk
           "oai_dc" "metadata.tsv" [r1; r2] None); reflexivity.
Defined.

Example single_page_listing_is_not_harvested :
  crawl_finna 5 both_sinks single_page empty_disk
  = ([Xopen MetadataFile "metadata.tsv" WT; WriteRow header_row; Close MetadataFile;
      Open StatusFile WT; Xopen MetadataFile "metadata.tsv" AT;
      Xopen RecordFile "records.xml" AT;
      Request (Initial "oai_dc" None);
      Close RecordFile; Close MetadataFile; Close StatusFile],
     Raise AttributeError).
Proof. reflexivity. Qed.

Lemma resumed_response_without_counts_witness :
  let run := crawl_finna 5 both_sinks drifted_last interrupted_disk in
  exists e,
    snd run = Raise e
    /\ (e = AttributeError \/ e = TypeError \/ e = ValueError)
    /\ (@None ResumptionToken = None -> e = AttributeError)
    /\ rows_written (fst run) = rows_written (fst (write_header both_sinks interrupted_disk))
    /\ metadata_on_disk (final_disk run interrupted_disk) = Some (table_start interrupted_disk)
    /\ status_on_disk (final_disk run interrupted_disk) = Some "".
Proof.
  cbv zeta.
  apply (resumed_response_without_counts 5 both_sinks drifted_last interrupted_disk
           "oai_dc" "metadata.tsv"
           (mkResumptionToken (Some "abc123") (Some "50") (Some "500") (Some ""))
           (mkResumptionToken (Some "fresh") (Some "0") (Some "480") None)
           [r1; r2] [r4] None); reflexivity.
Defined.

End Samples.
